(** * sidecar: a terminal dashboard of host counters with a file tail

    A shallow embedding of [sidecar.c] and the properties of its sampling
    and render loop.  C integers are [Z] with their wrap-around written
    out, [double] is IEEE 754 binary64 as the executable [spec_float]
    operations of the standard library, C strings are [string], the static
    arrays are lists updated by index, and what the process reads from the
    C library and the kernel on one tick is an explicit input. *)

From Stdlib Require Import ZArith List String Ascii Bool Lia Reals Lra SpecFloat.
From Stdlib Require DecimalString DecimalPos.
From stdpp Require Import base list.
Import ListNotations.

Local Open Scope Z_scope.

(** ** Machine integers *)

Definition u64_modulus : Z := 2 ^ 64.

(** [unsigned long long] and, on the LP64 Linux targets that expose [/proc],
    [unsigned long]: arithmetic is modulo 2^64. *)
Definition u64 (x : Z) : Z := x mod u64_modulus.

Definition INT_MIN : Z := - 2 ^ 31.
Definition INT_MAX : Z := 2 ^ 31 - 1.

(** Conversion of an out-of-range integer to [int] keeps the low 32 bits. *)
Definition int32 (x : Z) : Z := (x + 2 ^ 31) mod 2 ^ 32 - 2 ^ 31.

(** ** Doubles *)

Definition double : Type := spec_float.

Definition dprec : Z := 53.
Definition demax : Z := 1024.

(** [(double)n] for an integer [n]: round to nearest, ties to even. *)
Definition double_of_Z (n : Z) : double := binary_normalize dprec demax n 0 false.

Definition ddiv (x y : double) : double := SFdiv dprec demax x y.
Definition dmul (x y : double) : double := SFmul dprec demax x y.

(** The literals [0.0] and [100.0]. *)
Definition d_zero : double := S754_zero false.
Definition d_100 : double := S754_finite false 7036874417766400 (-46).

(** [(int)x]: truncation toward zero.  Outside the range of [int] (and for
    infinities and NaN) ISO C leaves the conversion undefined; the value
    taken here is the one the x86-64 conversion instruction delivers. *)
Definition double_to_int (x : double) : Z :=
  match x with
  | S754_zero _ => 0
  | S754_finite s m e =>
      let mag := match e with
                 | Zneg p => Z.shiftr (Zpos m) (Zpos p)
                 | _ => Z.shiftl (Zpos m) e
                 end in
      let v := if s then - mag else mag in
      if (INT_MIN <=? v) && (v <=? INT_MAX) then v else INT_MIN
  | _ => INT_MIN
  end.

(** The real number a finite double stands for (0 for the others). *)
Definition double_to_R (x : double) : R :=
  match x with
  | S754_finite s m e =>
      ((if s then -1 else 1) * IZR (Zpos m) * powerRZ 2 e)%R
  | _ => 0%R
  end.

Definition dleb (x y : double) : bool := SFleb x y.

(** ** Results of calls

    A call returns, leaves the process through [exit], or runs into
    behaviour the C library leaves undefined and glibc answers with a fault
    ([fclose] of a null stream).  A call that returns carries the divisors
    of the floating-point divisions it performed, in order. *)

Inductive result (A : Type) : Type :=
  | Ok (a : A) (divisors : list double)
  | Exit (code : Z)
  | Crash.
Arguments Ok {A} a divisors.
Arguments Exit {A} code.
Arguments Crash {A}.

Definition ret {A} (a : A) : result A := Ok a [].

Definition bind {A B} (m : result A) (k : A -> result B) : result B :=
  match m with
  | Ok a l1 =>
      match k a with
      | Ok b l2 => Ok b (l1 ++ l2)
      | Exit c => Exit c
      | Crash => Crash
      end
  | Exit c => Exit c
  | Crash => Crash
  end.

Definition div_logged (x y : double) : result double := Ok (ddiv x y) [y].

Notation "'do' x <- m ; k" := (bind m (fun x => k))
  (at level 10, x name, m at level 100, k at level 200).
Notation "'do' ' p <- m ; k" := (bind m (fun x => let 'p := x in k))
  (at level 10, p pattern, m at level 100, k at level 200).

(** ** Data *)

Record cpu_stats := mk_cpu_stats {
  user : Z; nice : Z; system : Z; idle : Z;
  iowait : Z; irq : Z; softirq : Z; steal : Z
}.

Record loadavg_t := mk_loadavg {
  load_1min : double;
  load_5min : double;
  load_15min : double;
  running_processes : Z;
  total_processes : Z;
  last_pid : Z
}.

Record power_status_t := mk_power {
  battery_percent : Z;
  on_ac : Z
}.

(** ** Constants *)

Definition HISTORY_HEIGHT : Z := 10.
Definition REFRESH : Z := 500000.
Definition HISTORY_DIVISOR : Z := 4.
Definition MAXW : Z := 512.
Definition MAX_DEBUG_LINES : Z := 12.

(** ** C strings and streams *)

Local Open Scope string_scope.

Definition LF : ascii := "010"%char.
Definition CR : ascii := "013"%char.
Definition NUL : ascii := "000"%char.
Definition nl : string := String LF "".

Fixpoint mem_ascii (c : ascii) (set : string) : bool :=
  match set with
  | "" => false
  | String d rest => Ascii.eqb c d || mem_ascii c rest
  end.

(** [strcspn(s, reject)]: the length of the initial segment of the C string
    in [s] (which ends at the first NUL, if any) free of [reject]. *)
Fixpoint strcspn (s reject : string) : nat :=
  match s with
  | "" => O
  | String c rest =>
      if Ascii.eqb c NUL || mem_ascii c reject then O
      else S (strcspn rest reject)
  end.

(** [buf[n] = 0]: the C string in the buffer now ends at index [n]. *)
Fixpoint terminate_at (n : nat) (buf : string) : string :=
  match n, buf with
  | O, _ => ""
  | S _, "" => ""
  | S k, String c rest => String c (terminate_at k rest)
  end.

(** [strstr(hay, needle) != NULL]. *)
Fixpoint strstr (hay needle : string) : bool :=
  String.prefix needle hay ||
  match hay with
  | "" => false
  | String _ rest => strstr rest needle
  end.

(** A stream opened for reading.  The watched file only grows, and the
    stream is read forward only, so it is kept as the bytes between the read
    position and the current end of the file, and the end-of-file
    indicator. *)
Record FILE := mk_FILE { f_unread : string; f_eof : bool }.

(** The characters one [fgets] takes from the data at hand: up to [room]
    of them, through the first newline; the [bool] tells that the data ran
    out first. *)
Fixpoint fgets_chars (room : nat) (data : string) : string * string * bool :=
  match room with
  | O => ("", data, false)
  | S r =>
      match data with
      | "" => ("", "", true)
      | String c rest =>
          if Ascii.eqb c LF then (String c "", rest, false)
          else let '(t, rem, e) := fgets_chars r rest in (String c t, rem, e)
      end
  end.

(** [fgets(buf, size, fp)].  As in glibc since 2.28 and in ISO C, a stream
    whose end-of-file indicator is set delivers nothing until the indicator
    is cleared. *)
Definition fgets (size : nat) (fp : FILE) : option string * FILE :=
  if f_eof fp then (None, fp)
  else
    let '(t, rem, e) := fgets_chars (size - 1) (f_unread fp) in
    match t with
    | "" => (None, mk_FILE rem e)
    | _ => (Some t, mk_FILE rem e)
    end.

Definition clearerr (fp : FILE) : FILE := mk_FILE (f_unread fp) false.

(** The external writer appends [data] to the file behind the stream. *)
Definition file_append (data : string) (fp : FILE) : FILE :=
  mk_FILE (f_unread fp ++ data) (f_eof fp).

(** The first [fgets(buf, size, file)] on a file just opened with [content],
    followed by [buf[strcspn(buf, "\n")] = 0]. *)
Definition fgets_line (size : nat) (content : string) : option string :=
  match fst (fgets size (mk_FILE content false)) with
  | Some buf => Some (terminate_at (strcspn buf nl) buf)
  | None => None
  end.

(** The [%d] conversion of [fscanf]: white space, an optional sign, decimal
    digits.  glibc converts as [strtol] does and stores the low 32 bits. *)
Definition isspace (c : ascii) : bool :=
  let n := nat_of_ascii c in
  (Nat.eqb n 32 || (Nat.leb 9 n && Nat.leb n 13))%bool.

Definition digit_val (c : ascii) : option Z :=
  let n := nat_of_ascii c in
  if (Nat.leb 48 n && Nat.leb n 57)%bool then Some (Z.of_nat (n - 48)) else None.

Fixpoint scan_digits (s : string) (acc : option Z) : option Z :=
  match s with
  | "" => acc
  | String c rest =>
      match digit_val c with
      | Some d => scan_digits rest (Some (10 * default 0 acc + d))
      | None => acc
      end
  end.

Fixpoint skip_space (s : string) : string :=
  match s with
  | String c rest => if isspace c then skip_space rest else s
  | "" => ""
  end.

Definition LONG_MAX : Z := 2 ^ 63 - 1.

Definition scan_int (s : string) : option Z :=
  let conv (neg : bool) (digits : string) :=
    match scan_digits digits None with
    | Some v =>
        let w := if neg then Z.max (- v) (- LONG_MAX - 1) else Z.min v LONG_MAX in
        Some (int32 w)
    | None => None
    end in
  match skip_space s with
  | String "-" rest => conv true rest
  | String "+" rest => conv false rest
  | t => conv false t
  end.

Local Open Scope Z_scope.

(** ** Process state *)

(** The file-scope variables. *)
Record globals := mk_globals {
  term_cols : Z;
  term_rows : Z;
  graph_width : Z;
  hist_cpu : list double;
  hist_mem : list double;
  last_io_pct : double;
  resize_pending : Z;
  debug_lines : list (option string);
  debug_line_count : Z;
  dbg_fp : option FILE
}.

Definition initial_globals : globals :=
  {| term_cols := 80; term_rows := 24; graph_width := 50;
     hist_cpu := replicate (Z.to_nat MAXW) d_zero;
     hist_mem := replicate (Z.to_nat MAXW) d_zero;
     last_io_pct := d_zero;
     resize_pending := 0;
     debug_lines := replicate (Z.to_nat MAX_DEBUG_LINES) None;
     debug_line_count := 0;
     dbg_fp := None |}.

(** ** Arrays *)

(** [memmove(a + dst, a + src, n * sizeof *a)] inside one array. *)
Definition memmove {A} (a : list A) (dst src n : nat) : list A :=
  take dst a ++ take n (drop src a) ++ drop (dst + n) a.

(** [a[i] = v]; the callers keep [i] inside the array. *)
Definition array_set {A} (a : list A) (i : Z) (v : A) : list A :=
  <[Z.to_nat i := v]> a.

(** ** Terminal size *)

(** [handle_winch]: [ws] is what [ioctl(TIOCGWINSZ)] delivered, columns
    first, or [None] when the call failed. *)
Definition handle_winch (ws : option (Z * Z)) (g : globals) : globals :=
  let g1 :=
    match ws with
    | Some (ws_col, ws_row) =>
        let gw := ws_col - 12 in
        let gw := if gw >? MAXW then MAXW else gw in
        let gw := if gw <? 20 then 20 else gw in
        {| term_cols := ws_col; term_rows := ws_row; graph_width := gw;
           hist_cpu := hist_cpu g; hist_mem := hist_mem g;
           last_io_pct := last_io_pct g; resize_pending := resize_pending g;
           debug_lines := debug_lines g; debug_line_count := debug_line_count g;
           dbg_fp := dbg_fp g |}
    | None => g
    end in
  {| term_cols := term_cols g1; term_rows := term_rows g1;
     graph_width := graph_width g1;
     hist_cpu := hist_cpu g1; hist_mem := hist_mem g1;
     last_io_pct := last_io_pct g1; resize_pending := 1;
     debug_lines := debug_lines g1; debug_line_count := debug_line_count g1;
     dbg_fp := dbg_fp g1 |}.

(** ** The debug log buffer *)

(** The buffer proper: the slots of [debug_lines] and [debug_line_count]. *)
Definition debug_log : Type := list (option string) * Z.

Definition debug_log_append (line : string) (b : debug_log) : debug_log :=
  let '(lines, count) := b in
  let '(lines, count) :=
    if count >=? MAX_DEBUG_LINES
    then (memmove lines 0 1 (Z.to_nat (MAX_DEBUG_LINES - 1)), count - 1)
    else (lines, count) in
  (array_set lines count (Some line), count + 1).

(** The lines the buffer holds, oldest first. *)
Definition log_contents (b : debug_log) : list string :=
  omap (fun slot => slot) (take (Z.to_nat (snd b)) (fst b)).

(** ** The file tail *)

(** [init_debug_file]: [opened] is the content of the file when [fopen]
    succeeded; the stream starts at its end. *)
Definition init_debug_file (opened : option string) : Z * option FILE :=
  match opened with
  | None => (-1, None)
  | Some _ => (0, Some (mk_FILE "" false))
  end.

(** The [while (fgets ...)] loop of [read_debug_file] on a stream whose
    file has an end at the time of the drain: [f_unread] holds the bytes up
    to it.  Every round takes at least one byte, so [fuel] above the number
    of unread bytes is never used up.  A file that does not report its end
    is the [in_endless] of a tick, below. *)
Fixpoint read_debug_loop (fuel : nat) (fp : FILE) (b : debug_log) (updated : Z)
  : option (FILE * debug_log * Z) :=
  match fuel with
  | O => None
  | S fuel' =>
      match fgets 1024 fp with
      | (Some line, fp') =>
          let line := terminate_at (strcspn line (String CR nl)) line in
          read_debug_loop fuel' fp' (debug_log_append line b) 1
      | (None, fp') => Some (fp', b, updated)
      end
  end.

Definition drain_fuel (fp : FILE) : nat := S (String.length (f_unread fp)).

(** [read_debug_file] on such a stream: [None] would be a loop that does
    not end. *)
Definition read_debug_file (ofp : option FILE) (b : debug_log)
  : option (Z * option FILE * debug_log) :=
  match ofp with
  | None => Some (0, None, b)
  | Some fp =>
      match read_debug_loop (drain_fuel fp) fp b 0 with
      | Some (fp', b', updated) => Some (updated, Some (clearerr fp'), b')
      | None => None
      end
  end.

(** ** CPU counters *)

(** What opening and scanning [/proc/stat] gave: no file, or the values
    [fscanf] converted, in the order of the format (at most eight). *)
Inductive cpu_read := CpuNoFile | CpuScanned (vals : list Z).

(** [fscanf] stores each converted value and leaves the other fields of
    [s] as they were. *)
Definition store_cpu (vals : list Z) (s : cpu_stats) : cpu_stats :=
  let f (i : nat) (old : Z) := default old (vals !! i) in
  {| user := f 0%nat (user s); nice := f 1%nat (nice s);
     system := f 2%nat (system s); idle := f 3%nat (idle s);
     iowait := f 4%nat (iowait s); irq := f 5%nat (irq s);
     softirq := f 6%nat (softirq s); steal := f 7%nat (steal s) |}.

Definition get_cpu_stats (r : cpu_read) (s : cpu_stats) : result cpu_stats :=
  match r with
  | CpuNoFile => Exit 1
  | CpuScanned vals => ret (store_cpu vals s)
  end.

Definition cpu_idle_sum (s : cpu_stats) : Z := u64 (idle s + iowait s).

Definition cpu_non_idle_sum (s : cpu_stats) : Z :=
  u64 (user s + nice s + system s + irq s + softirq s + steal s).

Definition cpu_total (s : cpu_stats) : Z := u64 (cpu_idle_sum s + cpu_non_idle_sum s).

Definition cpu_diff_total (prev cur : cpu_stats) : Z := u64 (cpu_total cur - cpu_total prev).
Definition cpu_diff_idle (prev cur : cpu_stats) : Z := u64 (cpu_idle_sum cur - cpu_idle_sum prev).
Definition cpu_diff_iowait (prev cur : cpu_stats) : Z := u64 (iowait cur - iowait prev).

(** [(double)num / den * 100.0] with [den] converted to double. *)
Definition percent_of (num den : Z) : result double :=
  do q <- div_logged (double_of_Z num) (double_of_Z den);
  ret (dmul q d_100).

(** [get_cpu_usage]: [uninit] is what the local [cur] holds before
    [get_cpu_stats] fills it.  Returns the busy percentage, the new [*prev]
    and the new [last_io_pct]. *)
Definition get_cpu_usage (r : cpu_read) (uninit : cpu_stats) (prev : cpu_stats)
  : result (double * cpu_stats * double) :=
  do cur <- get_cpu_stats r uninit;
  let diff_total := cpu_diff_total prev cur in
  let diff_idle := cpu_diff_idle prev cur in
  let diff_iowait := cpu_diff_iowait prev cur in
  if diff_total >? 0 then
    do io <- percent_of diff_iowait diff_total;
    do busy <- percent_of (u64 (diff_total - diff_idle)) diff_total;
    ret (busy, cur, io)
  else
    ret (d_zero, cur, d_zero).

(** ** Memory *)

(** One round of [fscanf(f, "%31s %lu %7s\n", ...)] that converted all
    three items. *)
Record mem_entry := mk_mem_entry { m_key : string; m_val : Z; m_unit : string }.

(** What opening and scanning [/proc/meminfo] gave: no file, or the
    entries read before the first round that did not convert three items. *)
Inductive mem_read := MemNoFile | MemScanned (entries : list mem_entry).

Record mem_vars := mk_mem_vars {
  mem_total : Z; mem_free : Z; buffers : Z; cached : Z;
  swap_total : Z; swap_free : Z
}.

Definition mem_vars_init : mem_vars :=
  {| mem_total := 1; mem_free := 0; buffers := 0; cached := 0;
     swap_total := 1; swap_free := 0 |}.

Definition mem_scan_step (v : mem_vars) (e : mem_entry) : mem_vars :=
  let key := m_key e in
  let val := m_val e in
  if String.eqb key "MemTotal:" then
    mk_mem_vars val (mem_free v) (buffers v) (cached v) (swap_total v) (swap_free v)
  else if String.eqb key "MemFree:" then
    mk_mem_vars (mem_total v) val (buffers v) (cached v) (swap_total v) (swap_free v)
  else if String.eqb key "Buffers:" then
    mk_mem_vars (mem_total v) (mem_free v) val (cached v) (swap_total v) (swap_free v)
  else if String.eqb key "Cached:" then
    mk_mem_vars (mem_total v) (mem_free v) (buffers v) val (swap_total v) (swap_free v)
  else if String.eqb key "SwapTotal:" then
    mk_mem_vars (mem_total v) (mem_free v) (buffers v) (cached v) val (swap_free v)
  else if String.eqb key "SwapFree:" then
    mk_mem_vars (mem_total v) (mem_free v) (buffers v) (cached v) (swap_total v) val
  else v.

(** [get_mem_usage]: returns the used-memory percentage and [*swap_pct]. *)
Definition get_mem_usage (r : mem_read) : result (double * double) :=
  match r with
  | MemNoFile => Exit 1
  | MemScanned entries =>
      let v := fold_left mem_scan_step entries mem_vars_init in
      let used := u64 (mem_total v - mem_free v - buffers v - cached v) in
      do swap_pct <-
        (if swap_total v >? 0
         then percent_of (u64 (swap_total v - swap_free v)) (swap_total v)
         else ret d_zero);
      do mem <- percent_of used (mem_total v);
      ret (mem, swap_pct)
  end.

(** ** Load average *)

(** What [sscanf(buffer, "%lf %lf %lf %d/%d %d", ...)] did with the line:
    input ran out before the first conversion ([EOF]), or the first [k]
    conversions succeeded, with the values they stored. *)
Inductive load_scan :=
  | ScanEOF
  | Scan0
  | Scan1 (l1 : double)
  | Scan2 (l1 l5 : double)
  | Scan3 (l1 l5 l15 : double)
  | Scan4 (l1 l5 l15 : double) (running : Z)
  | Scan5 (l1 l5 l15 : double) (running total : Z)
  | Scan6 (l1 l5 l15 : double) (running total pid : Z).

(** The value [sscanf] returns. *)
Definition scan_count (s : load_scan) : Z :=
  match s with
  | ScanEOF => -1
  | Scan0 => 0
  | Scan1 _ => 1
  | Scan2 _ _ => 2
  | Scan3 _ _ _ => 3
  | Scan4 _ _ _ _ => 4
  | Scan5 _ _ _ _ _ => 5
  | Scan6 _ _ _ _ _ _ => 6
  end.

(** The stores [sscanf] made through the six pointers. *)
Definition store_loadavg (s : load_scan) (l : loadavg_t) : loadavg_t :=
  match s with
  | ScanEOF | Scan0 => l
  | Scan1 a =>
      mk_loadavg a (load_5min l) (load_15min l)
                 (running_processes l) (total_processes l) (last_pid l)
  | Scan2 a b =>
      mk_loadavg a b (load_15min l)
                 (running_processes l) (total_processes l) (last_pid l)
  | Scan3 a b c =>
      mk_loadavg a b c (running_processes l) (total_processes l) (last_pid l)
  | Scan4 a b c r => mk_loadavg a b c r (total_processes l) (last_pid l)
  | Scan5 a b c r t => mk_loadavg a b c r t (last_pid l)
  | Scan6 a b c r t p => mk_loadavg a b c r t p
  end.

(** What reading [/proc/loadavg] gave: [fopen] failed, [fgets] failed, or
    a line was read and scanned. *)
Inductive load_read := LoadNoFile | LoadNoLine | LoadLine (s : load_scan).

(** [parse_loadavg]: the return value and the new [*loadavg]. *)
Definition parse_loadavg (r : load_read) (l : loadavg_t) : Z * loadavg_t :=
  match r with
  | LoadNoFile => (-1, l)
  | LoadNoLine => (-1, l)
  | LoadLine s =>
      let l' := store_loadavg s l in
      if negb (scan_count s =? 6) then (-1, l') else (0, l')
  end.

(** ** Power supplies *)

(** An entry of [/sys/class/power_supply]: its name and the content of the
    attribute files the sampler opens ([None]: the file cannot be opened). *)
Record device := mk_device {
  d_name : string;
  a_type : option string;
  a_capacity : option string;
  a_online : option string;
  a_status : option string
}.

(** [read_sys_int] on a file with the given content. *)
Definition read_sys_int (file : option string) : Z :=
  match file with
  | Some content => default (-1) (scan_int content)
  | None => -1
  end.

Definition dot_entry (d : device) : bool := String.prefix "." (d_name d).

(** The type read in the first lines of the loop body: [None] stands for
    the branches that [continue]. *)
Definition read_type (d : device) : option string :=
  match a_type d with
  | Some content => fgets_line 32 content
  | None => None
  end.

Definition ac_marker (d : device) (type_buf : string) : bool :=
  String.eqb type_buf "Mains" || String.eqb type_buf "ADP1" ||
  strstr (d_name d) "ADP" || strstr (d_name d) "AC".

Record power_scan := mk_power_scan {
  ps_power : power_status_t;
  found_battery : bool;
  found_ac : bool
}.

(** The body of the first [readdir] loop. *)
Definition power_first_pass_step (s : power_scan) (d : device) : power_scan :=
  if dot_entry d then s else
  match read_type d with
  | None => s
  | Some type_buf =>
      if String.eqb type_buf "Battery" && negb (found_battery s) then
        let pct := read_sys_int (a_capacity d) in
        mk_power_scan (mk_power pct (on_ac (ps_power s)))
                      (if pct >=? 0 then true else found_battery s)
                      (found_ac s)
      else if ac_marker d type_buf && negb (found_ac s) then
        let online := read_sys_int (a_online d) in
        if online >? 0
        then mk_power_scan (mk_power (battery_percent (ps_power s)) 1)
                           (found_battery s) true
        else s
      else s
  end.

(** The second [readdir] loop, which ends at the first battery.  [freopen]
    of an attribute that cannot be opened returns a null stream, and the
    loop then calls [fclose] on it. *)
Fixpoint power_second_pass (ds : list device) (p : power_status_t)
  : result power_status_t :=
  match ds with
  | [] => ret p
  | d :: rest =>
      if dot_entry d then power_second_pass rest p else
      match a_type d with
      | None => power_second_pass rest p
      | Some content =>
          match fgets_line 32 content with
          | Some type_buf =>
              if String.eqb type_buf "Battery" then
                match a_status d with
                | None => Crash
                | Some status =>
                    match fgets_line 32 status with
                    | Some buf =>
                        if String.eqb buf "Charging"
                        then ret (mk_power (battery_percent p) 1)
                        else ret p
                    | None => ret p
                    end
                end
              else power_second_pass rest p
          | None => power_second_pass rest p
          end
      end
  end.

(** [parse_power_status]: [dir1] and [dir2] are what the two [opendir]
    calls found ([None]: the directory cannot be opened).  Returns the
    return value and the new [*power]. *)
Definition parse_power_status (dir1 dir2 : option (list device))
  : result (Z * power_status_t) :=
  let defaults := mk_power (-1) 0 in
  match dir1 with
  | None => ret (-1, defaults)
  | Some ds =>
      let s := fold_left power_first_pass_step ds
                 (mk_power_scan defaults false false) in
      if negb (found_ac s) && found_battery s then
        match dir2 with
        | Some ds2 =>
            do p <- power_second_pass ds2 (ps_power s);
            ret (0, p)
        | None => ret (0, ps_power s)
        end
      else ret (0, ps_power s)
  end.

(** ** Rendering *)

(** What [printf] writes: text, or a double under a fixed-point
    conversion, kept with its conversion specification. *)
Inductive out_item :=
  | Text (s : string)
  | Fmt (spec : string) (x : double).

Definition ESC : string := String "027"%char "".

Definition clear_screen : out_item := Text (ESC ++ "[2J").
Definition cursor_home : out_item := Text (ESC ++ "[H").

(** The [%d] conversion. *)
Definition print_int (z : Z) : string :=
  DecimalString.NilZero.string_of_int (Z.to_int z).

(** [(int)(percent / 100.0 * n)] *)
Definition scale_percent (percent : double) (n : Z) : Z :=
  double_to_int (dmul (ddiv percent d_100) (double_of_Z n)).

(** The [%-3s] conversion: left-justified in a field of three. *)
Definition pad3 (s : string) : string :=
  s ++ String.substring 0 (3 - String.length s) "   ".

Definition draw_bar (label : string) (percent : double) (g : globals)
  : list out_item :=
  let filled := scale_percent percent (graph_width g) in
  ([Text "┌> "] ++
   map (fun i => Text (if i <? filled then "■" else " "))
       (seqZ 0 (graph_width g)) ++
   [Text (pad3 label ++ nl ++ "└> "); Fmt "%-5.1f" percent; Text ("%" ++ nl)])%list.

Definition array_get {A} (dflt : A) (a : list A) (i : Z) : A :=
  default dflt (a !! Z.to_nat i).

Definition history_cell (g : globals) (row col : Z) : out_item :=
  let c := scale_percent (array_get d_zero (hist_cpu g) col) HISTORY_HEIGHT in
  let m := scale_percent (array_get d_zero (hist_mem g) col) HISTORY_HEIGHT in
  Text (if (c >=? row) && (m >=? row) then "▓"
        else if c >=? row then "█"
        else if m >=? row then "░"
        else " ").

Definition draw_history (g : globals) : list out_item :=
  Text ("History (CPU=█, RAM=░)" ++ nl) ::
  concat
    (map (fun row =>
            (map (history_cell g row)
                 (seqZ (MAXW - graph_width g) (graph_width g)) ++ [Text nl])%list)
         (reverse (seqZ 0 (HISTORY_HEIGHT + 1)))).

(** The first line under the CPU bar. *)
Definition draw_rates (swap_pct : double) (g : globals) (loads : loadavg_t)
  : list out_item :=
  [Text " > s="; Fmt "%-.1f" swap_pct; Text "% | i=";
   Fmt "%-.1f" (last_io_pct g); Text "% | 1=";
   Fmt "%-.2f" (load_1min loads); Text " | 5=";
   Fmt "%-.2f" (load_5min loads); Text " | 15=";
   Fmt "%-.2f" (load_15min loads); Text nl].

(** The second line: process counts, battery figure and supply marker. *)
Definition summary_line (loads : loadavg_t) (power : power_status_t) : string :=
  " > [" ++ print_int (running_processes loads) ++ "/" ++
  print_int (total_processes loads) ++ "] :: (" ++
  print_int (if battery_percent power =? -1 then 0 else battery_percent power) ++
  "% " ++ (if on_ac power =? 1 then "on ac)  " else "on batt)") ++ nl.

Definition draw_tail (argv1 : string) (g : globals) : list out_item :=
  let used_above_debug := 1 + HISTORY_HEIGHT + 1 + (2 * 2) + 1 in
  let used_below_debug := 2 in
  let available := term_rows g - used_above_debug - used_below_debug in
  let max_debug_rows := if available >? 0 then available else 0 in
  let count := debug_line_count g in
  let start := if count >? max_debug_rows then count - max_debug_rows else 0 in
  let width := if term_cols g >? 1 then term_cols g - 1 else 1 in
  Text (" > tail: " ++ argv1 ++ nl) ::
  map (fun i =>
         Text (terminate_at (Z.to_nat width)
                 (default "(null)" (array_get None (debug_lines g) i)) ++ nl))
      (seqZ start (count - start)).

(** ** The main loop *)

(** The locals of [main] that live across iterations, and [argv[1]]. *)
Record locals := mk_locals {
  prev : cpu_stats;
  loads : loadavg_t;
  power : power_status_t;
  hist_counter : Z;
  argv1 : string
}.

(** What one iteration meets: the outcome of each read, the bytes the
    external writer appended to the watched file since the last drain,
    whether the watched file reports its end during the drain, and the
    [SIGWINCH] deliveries since the last iteration (each with what [ioctl]
    answered), taken here at the top of the iteration.

    [in_endless]: the drain reads a live, unbuffered stream.  When that
    stream never reports its end while the drain runs (the path names a
    device that has none, or the writer keeps ahead of the reader), [fgets]
    never returns a null pointer and the [while] loop of [read_debug_file]
    does not end. *)
Record tick_input := mk_tick_input {
  in_cpu : cpu_read;
  in_cpu_uninit : cpu_stats;
  in_mem : mem_read;
  in_load : load_read;
  in_power1 : option (list device);
  in_power2 : option (list device);
  in_appended : string;
  in_endless : bool;
  in_winch : list (option (Z * Z))
}.

Definition set_tail (g : globals) (fp : option FILE) (b : debug_log) : globals :=
  {| term_cols := term_cols g; term_rows := term_rows g;
     graph_width := graph_width g;
     hist_cpu := hist_cpu g; hist_mem := hist_mem g;
     last_io_pct := last_io_pct g; resize_pending := resize_pending g;
     debug_lines := fst b; debug_line_count := snd b; dbg_fp := fp |}.

Definition set_last_io_pct (g : globals) (io : double) : globals :=
  {| term_cols := term_cols g; term_rows := term_rows g;
     graph_width := graph_width g;
     hist_cpu := hist_cpu g; hist_mem := hist_mem g;
     last_io_pct := io; resize_pending := resize_pending g;
     debug_lines := debug_lines g; debug_line_count := debug_line_count g;
     dbg_fp := dbg_fp g |}.

Definition set_history (g : globals) (hc hm : list double) : globals :=
  {| term_cols := term_cols g; term_rows := term_rows g;
     graph_width := graph_width g;
     hist_cpu := hc; hist_mem := hm;
     last_io_pct := last_io_pct g; resize_pending := resize_pending g;
     debug_lines := debug_lines g; debug_line_count := debug_line_count g;
     dbg_fp := dbg_fp g |}.

Definition set_resize_pending (g : globals) (v : Z) : globals :=
  {| term_cols := term_cols g; term_rows := term_rows g;
     graph_width := graph_width g;
     hist_cpu := hist_cpu g; hist_mem := hist_mem g;
     last_io_pct := last_io_pct g; resize_pending := v;
     debug_lines := debug_lines g; debug_line_count := debug_line_count g;
     dbg_fp := dbg_fp g |}.

(** What happened while the process slept. *)
Definition environment (inp : tick_input) (g : globals) : globals :=
  let g := fold_left (fun g ws => handle_winch ws g) (in_winch inp) g in
  set_tail g (file_append (in_appended inp) <$> dbg_fp g)
           (debug_lines g, debug_line_count g).

(** One history push: both arrays move down by one slot and take the new
    pair in their last slot. *)
Definition history_shift (h : list double) (v : double) : list double :=
  array_set (memmove h 0 1 (Z.to_nat (MAXW - 1))) (MAXW - 1) v.

Definition history_push (cpu mem : double) (g : globals) : globals :=
  set_history g (history_shift (hist_cpu g) cpu) (history_shift (hist_mem g) mem).

(** What one iteration writes, from the optional clear to the tail. *)
Definition draw_frame (redraw : bool) (g : globals) (cpu mem swap_pct : double)
    (lo : loadavg_t) (pw : power_status_t) (path : string) : list out_item :=
  ((if redraw then [clear_screen] else []) ++
   [cursor_home] ++
   draw_history g ++
   [Text nl] ++
   draw_bar "cpu" cpu g ++
   draw_rates swap_pct g lo ++
   [Text (summary_line lo pw)] ++
   draw_bar "mem" mem g ++
   (match dbg_fp g with
    | Some _ => draw_tail path g
    | None => []
    end))%list.

(** The outcome of one iteration of [while (1)]: it comes to its sleep,
    leaves the process through [exit], faults, or does not end. *)
Inductive step_result :=
  | Continue (g : globals) (l : locals) (out : list out_item)
  | Exited (code : Z)
  | Crashed
  | Hangs.

(** The body of [while (1)], up to the sleep. *)
Definition main_loop_body (inp : tick_input) (g : globals) (l : locals)
  : step_result :=
  match get_cpu_usage (in_cpu inp) (in_cpu_uninit inp) (prev l) with
  | Exit c => Exited c
  | Crash => Crashed
  | Ok (cpu, prev', io) _ =>
  let g := set_last_io_pct g io in
  match get_mem_usage (in_mem inp) with
  | Exit c => Exited c
  | Crash => Crashed
  | Ok (mem, swap_pct) _ =>
  let loads' := snd (parse_loadavg (in_load inp) (loads l)) in
  match parse_power_status (in_power1 inp) (in_power2 inp) with
  | Exit c => Exited c
  | Crash => Crashed
  | Ok (_, power') _ =>
  match
    (match dbg_fp g with
     | Some _ =>
         if in_endless inp then None
         else read_debug_file (dbg_fp g) (debug_lines g, debug_line_count g)
     | None => Some (0, dbg_fp g, (debug_lines g, debug_line_count g))
     end)
  with
  | None => Hangs
  | Some (new_debug, fp', b') =>
  let g := set_tail g fp' b' in
  let g := if hist_counter l =? 0 then history_push cpu mem g else g in
  let hist_counter' := Z.rem (hist_counter l + 1) HISTORY_DIVISOR in
  let redraw := negb (resize_pending g =? 0) || negb (new_debug =? 0) in
  let g := if redraw then set_resize_pending g 0 else g in
  let l' := mk_locals prev' loads' power' hist_counter' (argv1 l) in
  Continue g l' (draw_frame redraw g cpu mem swap_pct loads' power' (argv1 l))
  end end end end.

(** One tick: what the environment did during the sleep, then the body. *)
Definition tick (inp : tick_input) (g : globals) (l : locals) : step_result :=
  main_loop_body inp (environment inp g) l.


(** ** Startup *)

(** What [main] meets before the loop: the command line, the outcome of
    [fopen] on the file to watch, of [sigaction] and of the first [ioctl],
    the first reads, and what the uninitialised locals hold. *)
Record startup_input := mk_startup_input {
  su_argv1 : option string;
  su_fopen : option string;
  su_sigaction_ok : bool;
  su_winsize : option (Z * Z);
  su_cpu : cpu_read;
  su_load : load_read;
  su_power1 : option (list device);
  su_power2 : option (list device);
  su_uninit_prev : cpu_stats;
  su_uninit_loads : loadavg_t
}.

Definition install_winch_handler (sigaction_ok : bool) : result unit :=
  if sigaction_ok then ret tt else Exit 1.

(** [main] up to the loop. *)
Definition main_startup (inp : startup_input)
  : result (globals * locals * list out_item) :=
  let fp :=
    match su_argv1 inp with
    | Some _ => snd (init_debug_file (su_fopen inp))
    | None => None
    end in
  let g := set_tail initial_globals fp
             (debug_lines initial_globals, debug_line_count initial_globals) in
  do _ <- install_winch_handler (su_sigaction_ok inp);
  let g := handle_winch (su_winsize inp) g in
  do prev0 <- get_cpu_stats (su_cpu inp) (su_uninit_prev inp);
  let loads0 := snd (parse_loadavg (su_load inp) (su_uninit_loads inp)) in
  do '(_, power0) <- parse_power_status (su_power1 inp) (su_power2 inp);
  ret (g, mk_locals prev0 loads0 power0 0 (default "" (su_argv1 inp)),
       [clear_screen]).

(** The states the loop can be in: those [main_startup] delivers and those
    a tick makes of one of them. *)
Inductive reachable : globals -> locals -> Prop :=
  | reach_start inp g l out divs :
      main_startup inp = Ok (g, l, out) divs -> reachable g l
  | reach_tick inp g l g' l' out :
      reachable g l -> tick inp g l = Continue g' l' out -> reachable g' l'.

(** ** Sample inputs *)

(** A memory table that reports zero everywhere. *)
Definition meminfo_all_zero : list mem_entry :=
  [mk_mem_entry "MemTotal:" 0 "kB"; mk_mem_entry "MemFree:" 0 "kB";
   mk_mem_entry "Buffers:" 0 "kB"; mk_mem_entry "Cached:" 0 "kB";
   mk_mem_entry "SwapTotal:" 0 "kB"; mk_mem_entry "SwapFree:" 0 "kB"].

Definition sample_cpu_vals : list Z := [100; 2; 30; 4000; 50; 6; 7; 8].

Definition sample_loads : load_scan :=
  Scan6 (double_of_Z 1) (double_of_Z 2) (double_of_Z 3) 2 278 1234.

Definition sample_meminfo : list mem_entry :=
  [mk_mem_entry "MemTotal:" 8000 "kB"; mk_mem_entry "MemFree:" 2000 "kB";
   mk_mem_entry "Buffers:" 500 "kB"; mk_mem_entry "Cached:" 1500 "kB";
   mk_mem_entry "SwapTotal:" 1000 "kB"; mk_mem_entry "SwapFree:" 750 "kB"].

Definition zero_cpu_stats : cpu_stats := mk_cpu_stats 0 0 0 0 0 0 0 0.

Definition zero_loads : loadavg_t := mk_loadavg d_zero d_zero d_zero 0 0 0.

(** A start on a machine without power supplies, no file to watch. *)
Definition sample_startup : startup_input :=
  {| su_argv1 := None; su_fopen := None; su_sigaction_ok := true;
     su_winsize := Some (80, 24);
     su_cpu := CpuScanned sample_cpu_vals;
     su_load := LoadLine sample_loads;
     su_power1 := Some []; su_power2 := Some [];
     su_uninit_prev := zero_cpu_stats; su_uninit_loads := zero_loads |}.

(** A tick on which every source answers. *)
Definition sample_tick : tick_input :=
  {| in_cpu := CpuScanned [130; 2; 30; 4060; 60; 6; 7; 8];
     in_cpu_uninit := zero_cpu_stats;
     in_mem := MemScanned sample_meminfo;
     in_load := LoadLine sample_loads;
     in_power1 := Some []; in_power2 := Some [];
     in_appended := ""; in_endless := false; in_winch := [] |}.


(** A battery as sysfs shows it, with the given [status]. *)
Definition sample_battery (status : string) : device :=
  mk_device "BAT0" (Some ("Battery" ++ nl)%string) (Some ("42" ++ nl)%string)
            None (Some (status ++ nl)%string).

(** ** Vocabulary of the statements *)

(** An entry neither pass acts on: hidden, without readable type, or of a
    type that is neither ["Battery"] nor an AC marker. *)
Definition inert (d : device) : bool :=
  dot_entry d ||
  match read_type d with
  | None => true
  | Some t => negb (String.eqb t "Battery") && negb (ac_marker d t)
  end.

(** The [status] attribute reads exactly ["Charging"]. *)
Definition reads_charging (status : string) : bool :=
  match fgets_line 32 status with
  | Some buf => String.eqb buf "Charging"
  | None => false
  end.

(** The last [n] elements of a list. *)
Definition last_n {A} (n : nat) (l : list A) : list A := drop (length l - n) l.

Definition append_all (ls : list string) (b : debug_log) : debug_log :=
  fold_left (fun b line => debug_log_append line b) ls b.

Definition empty_log : debug_log :=
  (debug_lines initial_globals, debug_line_count initial_globals).

Definition push_all (ps : list (double * double)) (g : globals) : globals :=
  fold_left (fun g p => history_push (fst p) (snd p) g) ps g.

(** The shape the buffer keeps: [count] lines in the first slots of the
    twelve. *)
Definition log_holds (b : debug_log) (ls : list string) : Prop :=
  exists rest : list (option string),
    fst b = (map Some ls ++ rest)%list /\
    snd b = Z.of_nat (length ls) /\
    length (fst b) = Z.to_nat MAX_DEBUG_LINES.

(** A byte that is neither a line end nor a string end. *)
Definition plain_char (c : ascii) : bool :=
  negb (Ascii.eqb c LF || Ascii.eqb c CR || Ascii.eqb c NUL).

Fixpoint all_plain (s : string) : bool :=
  match s with
  | EmptyString => true
  | String c rest => plain_char c && all_plain rest
  end.

(** A line that fits the 1024-byte buffer of [read_debug_file] together
    with its newline, made of plain bytes. *)
Definition plain_line (l : string) : Prop :=
  (String.length l <= 1022)%nat /\ all_plain l = true.

(** What the external writer appends for the lines [ls]: each line and its
    newline. *)
Fixpoint file_text (ls : list string) : string :=
  match ls with
  | [] => EmptyString
  | l :: rest => (l ++ nl ++ file_text rest)%string
  end.

(** Between two ticks the writer appends the lines of [batch]; the tick
    then drains. *)
Definition drain_cycle (batch : list string) (fp : FILE) (b : debug_log)
  : option (Z * option FILE * debug_log) :=
  read_debug_file (Some (file_append (file_text batch) fp)) b.

Fixpoint drain_cycles (batches : list (list string)) (fp : FILE) (b : debug_log)
  : option (FILE * debug_log) :=
  match batches with
  | [] => Some (fp, b)
  | batch :: rest =>
      match drain_cycle batch fp b with
      | Some (_, Some fp', b') => drain_cycles rest fp' b'
      | _ => None
      end
  end.

Fixpoint string_of_char (n : nat) (c : ascii) : string :=
  match n with
  | O => EmptyString
  | S k => String c (string_of_char k c)
  end.

Definition thirteen_lines : list string :=
  ["1"; "2"; "3"; "4"; "5"; "6"; "7"; "8"; "9"; "10"; "11"; "12"; "13"]%string.

(** ** Vocabulary of the statements about doubles *)

(** 2^e as a real number. *)
Definition bpow (e : Z) : R := powerRZ 2 e.

(** Where a value with remainder [rem] after a shift lies between two
    neighbours, [half] being half their distance. *)
Definition location_of_remainder (rem half : Z) : location :=
  if rem =? 0 then loc_Exact else loc_Inexact (Z.compare rem half).

(** The integer that [(double)p] stands for, [0 < p < 2^64]: [p] itself
    below 2^53, and above it [p] rounded to 53 significant bits, to
    nearest, ties to even. *)
Definition round_u64 (p : Z) : Z :=
  if p <? 2 ^ 53 then p
  else
    let n := Z.log2 p - 52 in
    round_nearest_even (p / 2 ^ n)
      (location_of_remainder (p mod 2 ^ n) (2 ^ (n - 1))) * 2 ^ n.

(** A positive double [M * 2^E] with a 53-bit mantissa that is at most
    1.0. *)
Definition at_most_one (M E : Z) : Prop := E < -52 \/ (E = -52 /\ M = 2 ^ 52).

(** A positive double [M * 2^E] with a 53-bit mantissa that is at most
    100.0. *)
Definition at_most_100 (M E : Z) : Prop :=
  E < -46 \/ (E = -46 /\ M <= 7036874417766400).

(** ** Vocabulary of the statements about CPU snapshots *)

(** The sum of the eight counters, not wrapped. *)
Definition cpu_sum (s : cpu_stats) : Z :=
  user s + nice s + system s + idle s + iowait s + irq s + softirq s + steal s.

Definition cpu_nonneg (s : cpu_stats) : Prop :=
  0 <= user s /\ 0 <= nice s /\ 0 <= system s /\ 0 <= idle s /\
  0 <= iowait s /\ 0 <= irq s /\ 0 <= softirq s /\ 0 <= steal s.

Definition cpu_nondecreasing (prev cur : cpu_stats) : Prop :=
  user prev <= user cur /\ nice prev <= nice cur /\
  system prev <= system cur /\ idle prev <= idle cur /\
  iowait prev <= iowait cur /\ irq prev <= irq cur /\
  softirq prev <= softirq cur /\ steal prev <= steal cur.

(** The idle complement of the busy percentage, which the code does not
    compute: the share of the idle-like delta (idle plus iowait) in the
    total delta, taken the way [get_cpu_usage] takes its percentages. *)
Definition idle_complement (prev cur : cpu_stats) : result double :=
  percent_of (cpu_diff_idle prev cur) (cpu_diff_total prev cur).

(** ** Vocabulary of the statements about the load line *)

(** The load averages [sscanf] converted, in the order of the format. *)
Definition scanned_loads (s : load_scan) : list double :=
  match s with
  | ScanEOF | Scan0 => []
  | Scan1 a => [a]
  | Scan2 a b => [a; b]
  | Scan3 a b c | Scan4 a b c _ | Scan5 a b c _ _ | Scan6 a b c _ _ _ => [a; b; c]
  end.

(** The integers [sscanf] converted after them, in the order of the
    format. *)
Definition scanned_counts (s : load_scan) : list Z :=
  match s with
  | Scan4 _ _ _ r => [r]
  | Scan5 _ _ _ r t => [r; t]
  | Scan6 _ _ _ r t p => [r; t; p]
  | _ => []
  end.

(** ** Vocabulary of the statements about the loop *)


(** ** Vocabulary of the statements about the state of the loop *)

(** A line as [read_debug_file] stores it: at most 1023 bytes, none of
    them a line end or a string end. *)
Definition stored_line (s : string) : Prop :=
  (String.length s <= 1023)%nat /\ all_plain s = true.

(** What the loop relies on without checking it: the graph is between 20
    and [MAXW] columns wide, both history arrays have [MAXW] slots, the
    history counter is below [HISTORY_DIVISOR], the log buffer holds
    [debug_line_count] lines in its first slots, each a [stored_line], and
    the stream of the tail, if there is one, is read up to the end of the
    file with its end-of-file indicator cleared. *)
Definition state_ok (g : globals) (l : locals) : Prop :=
  20 <= graph_width g <= MAXW /\
  length (hist_cpu g) = Z.to_nat MAXW /\
  length (hist_mem g) = Z.to_nat MAXW /\
  0 <= hist_counter l < HISTORY_DIVISOR /\
  (exists ls, log_holds (debug_lines g, debug_line_count g) ls /\
              Forall stored_line ls) /\
  (forall fp, dbg_fp g = Some fp -> fp = mk_FILE "" false).

(** A frame starts with a clear of the screen: the window changed since
    the last frame, or the drain has bytes to read. *)
Definition redraw_due (inp : tick_input) (g : globals) : bool :=
  negb (resize_pending g =? 0) ||
  match in_winch inp with [] => false | _ => true end ||
  match dbg_fp g, in_appended inp with
  | Some _, String _ _ => true
  | _, _ => false
  end.

(** The initial locals of a run without a file to watch. *)
Definition sample_locals : locals :=
  mk_locals zero_cpu_stats zero_loads (mk_power (-1) 0) 0 "".

(** ** Vocabulary of the statements about the samplers *)

(** A finite double above zero. *)
Definition positive_finite (d : double) : Prop :=
  exists (m : positive) (e : Z), d = S754_finite false m e.

(** One of the six keys of [/proc/meminfo] that [get_mem_usage] looks
    for. *)
Definition known_key (e : mem_entry) : bool :=
  (String.eqb (m_key e) "MemTotal:" || String.eqb (m_key e) "MemFree:" ||
   String.eqb (m_key e) "Buffers:" || String.eqb (m_key e) "Cached:" ||
   String.eqb (m_key e) "SwapTotal:" || String.eqb (m_key e) "SwapFree:")%string.

(** An entry the first pass reads as a battery: not hidden, with a type
    that reads ["Battery"]. *)
Definition is_battery (d : device) : bool :=
  negb (dot_entry d) &&
  match read_type d with
  | Some t => String.eqb t "Battery"
  | None => false
  end.

(** What the [capacity] attributes of the batteries read, in directory
    order. *)
Definition battery_readings (ds : list device) : list Z :=
  map (fun d => read_sys_int (a_capacity d)) (List.filter is_battery ds).

(** The first reading that is not negative; without one, the last reading;
    without a battery, the sentinel -1. *)
Definition reported_capacity (ds : list device) : Z :=
  match List.find (fun c => c >=? 0) (battery_readings ds) with
  | Some c => c
  | None => List.last (battery_readings ds) (-1)
  end.

(** A mains adapter that reads on line. *)
Definition sample_adapter : device :=
  mk_device "AC0" (Some ("Mains" ++ nl)%string) None (Some ("1" ++ nl)%string) None.

(** ** Vocabulary of the statements about decimal numerals *)

(** The number a decimal numeral stands for when read from its most
    significant digit on, continuing from [acc]. *)
Fixpoint uint_value (d : Decimal.uint) (acc : Z) : Z :=
  match d with
  | Decimal.Nil => acc
  | Decimal.D0 l => uint_value l (10 * acc)
  | Decimal.D1 l => uint_value l (10 * acc + 1)
  | Decimal.D2 l => uint_value l (10 * acc + 2)
  | Decimal.D3 l => uint_value l (10 * acc + 3)
  | Decimal.D4 l => uint_value l (10 * acc + 4)
  | Decimal.D5 l => uint_value l (10 * acc + 5)
  | Decimal.D6 l => uint_value l (10 * acc + 6)
  | Decimal.D7 l => uint_value l (10 * acc + 7)
  | Decimal.D8 l => uint_value l (10 * acc + 8)
  | Decimal.D9 l => uint_value l (10 * acc + 9)
  end.

(** ** Vocabulary of the statements about the frame *)

(** The cell of the history graph at height [row] for one sample of the
    CPU and memory percentages. *)
Definition shade (row : Z) (sample : double * double) : out_item :=
  let c := scale_percent (fst sample) HISTORY_HEIGHT in
  let m := scale_percent (snd sample) HISTORY_HEIGHT in
  Text (if (c >=? row) && (m >=? row) then "▓"
        else if c >=? row then "█"
        else if m >=? row then "░"
        else " ")%string.

(** The samples the two history arrays hold, oldest first. *)
Definition samples (g : globals) : list (double * double) :=
  zip (hist_cpu g) (hist_mem g).

(** The last three lines of a bar: label, and the percentage under its
    conversion. *)
Definition bar_caption (label : string) (percent : double) : list out_item :=
  [Text (pad3 label ++ nl ++ "└> ")%string; Fmt "%-5.1f" percent;
   Text ("%" ++ nl)%string].

(** A double that is 0.0 or a positive normal number of at most 100.0,
    with its 53-bit mantissa: what [percent_of] gives for a numerator
    within its divisor. *)
Definition percent_value (p : double) : Prop :=
  p = d_zero \/
  exists M E : Z,
    p = S754_finite false (Z.to_pos M) E /\
    2 ^ 52 <= M < 2 ^ 53 /\ -200 <= E /\ at_most_100 M E.

(** * Properties *)

Local Close Scope string_scope.

(** ** The CPU sampler at a zero total delta *)

Lemma u64_diff_self (x : Z) : u64 (x - x) = 0.
Proof. unfold u64. now rewrite Z.sub_diag. Qed.

Lemma cpu_diff_total_same (s : cpu_stats) : cpu_diff_total s s = 0.
Proof. apply u64_diff_self. Qed.

Lemma get_cpu_usage_zero_delta (vals : list Z) (uninit prev : cpu_stats) :
  cpu_diff_total prev (store_cpu vals uninit) = 0 ->
  get_cpu_usage (CpuScanned vals) uninit prev
  = Ok (d_zero, store_cpu vals uninit, d_zero) [].
Proof.
  intros Hz. unfold get_cpu_usage. cbn [get_cpu_stats ret bind].
  rewrite Hz. reflexivity.
Qed.

(** The guard compares an unsigned value with 0: the sampler divides
    exactly when the total delta is not 0 modulo 2^64, a delta that wrapped
    below zero included. *)
Lemma get_cpu_usage_divides_iff (vals : list Z) (uninit prev : cpu_stats) :
  let cur := store_cpu vals uninit in
  (exists v, get_cpu_usage (CpuScanned vals) uninit prev = Ok v []) <->
  cpu_diff_total prev cur = 0.
Proof.
  intros cur. split.
  - intros [v Hv]. unfold get_cpu_usage in Hv. cbn [get_cpu_stats ret bind] in Hv.
    fold cur in Hv.
    destruct (Z.gtb_spec (cpu_diff_total prev cur) 0) as [Hpos|Hle].
    + cbn in Hv. discriminate.
    + unfold cpu_diff_total, u64, u64_modulus in *.
      pose proof (Z.mod_pos_bound (cpu_total cur - cpu_total prev) (2 ^ 64)
                    ltac:(lia)). lia.
  - intros Hz. eexists. apply get_cpu_usage_zero_delta. exact Hz.
Qed.

Lemma cpu_total_is_sum (s : cpu_stats) :
  cpu_nonneg s -> cpu_sum s < 2 ^ 64 -> cpu_total s = cpu_sum s.
Proof.
  unfold cpu_nonneg, cpu_sum, cpu_total, cpu_idle_sum, cpu_non_idle_sum, u64,
    u64_modulus.
  intros (H1 & H2 & H3 & H4 & H5 & H6 & H7 & H8) Hs.
  rewrite (Z.mod_small (idle s + iowait s)) by lia.
  rewrite (Z.mod_small (user s + nice s + system s + irq s + softirq s + steal s))
    by lia.
  rewrite Z.mod_small by lia. lia.
Qed.

(** After a reset the counters read are below those of [*prev]: the
    unsigned total delta wraps to a value above zero. *)
Lemma cpu_reset_wraps (prev cur : cpu_stats) :
  cpu_nonneg prev -> cpu_nonneg cur -> cpu_sum cur < cpu_sum prev < 2 ^ 64 ->
  cpu_diff_total prev cur = 2 ^ 64 - (cpu_sum prev - cpu_sum cur) /\
  0 < cpu_diff_total prev cur < 2 ^ 64.
Proof.
  intros Hp Hc Hs.
  assert (Hc0 : 0 <= cpu_sum cur) by (unfold cpu_nonneg, cpu_sum in *; lia).
  unfold cpu_diff_total.
  rewrite (cpu_total_is_sum prev Hp), (cpu_total_is_sum cur Hc) by lia.
  unfold u64, u64_modulus.
  rewrite <- (Z.mod_add (cpu_sum cur - cpu_sum prev) 1 (2 ^ 64)) by lia.
  rewrite Z.mod_small by lia. lia.
Qed.

(** C2, as the code has it.  When the total delta between [*prev] and the
    snapshot just read is zero as the code computes it, in unsigned 64-bit
    arithmetic, and so when the two snapshots are identical, [get_cpu_usage]
    returns 0.0, sets [last_io_pct] to 0.0 and performs no division; and it
    is only then that it does not divide.  After a counter reset, where the
    counters read sum to less than those of [*prev], the delta is not zero:
    it wraps to 2^64 less the drop, the guard lets it pass and both
    divisions are made, by that wrapped delta. *)
Theorem cpu_zero_delta_gives_zero (vals : list Z) (uninit prev : cpu_stats) :
  let cur := store_cpu vals uninit in
  (cpu_diff_total prev cur = 0 ->
   get_cpu_usage (CpuScanned vals) uninit prev = Ok (d_zero, cur, d_zero) []) /\
  (cur = prev ->
   get_cpu_usage (CpuScanned vals) uninit prev = Ok (d_zero, cur, d_zero) []) /\
  ((exists v, get_cpu_usage (CpuScanned vals) uninit prev = Ok v []) <->
   cpu_diff_total prev cur = 0) /\
  (cpu_nonneg prev -> cpu_nonneg cur -> cpu_sum cur < cpu_sum prev < 2 ^ 64 ->
   cpu_diff_total prev cur = 2 ^ 64 - (cpu_sum prev - cpu_sum cur) /\
   exists busy io : double,
     get_cpu_usage (CpuScanned vals) uninit prev
     = Ok (busy, cur, io) [double_of_Z (cpu_diff_total prev cur);
                           double_of_Z (cpu_diff_total prev cur)]).
Proof.
  intros cur. split; [|split; [|split]].
  - apply get_cpu_usage_zero_delta.
  - intros E. apply get_cpu_usage_zero_delta. fold cur. rewrite E.
    apply cpu_diff_total_same.
  - apply get_cpu_usage_divides_iff.
  - intros Hp Hc Hs. destruct (cpu_reset_wraps prev cur Hp Hc Hs) as [Hd Hpos].
    split; [exact Hd|].
    unfold get_cpu_usage. cbn [get_cpu_stats ret bind]. fold cur.
    destruct (Z.gtb_spec (cpu_diff_total prev cur) 0) as [_|Hle]; [|lia].
    unfold percent_of, div_logged, bind, ret. cbn [app].
    eexists. eexists. reflexivity.
Qed.

Lemma cpu_zero_delta_gives_zero_witness :
  let s := mk_cpu_stats 100 2 30 4000 50 6 7 8 in
  let vals := [100; 2; 30; 4000; 50; 6; 7; 8] in
  let other := mk_cpu_stats 102 0 30 4000 50 6 7 8 in
  let before_reset := mk_cpu_stats 1000 2 30 5000 50 6 7 8 in
  (store_cpu vals s = s /\
   get_cpu_usage (CpuScanned vals) s s = Ok (d_zero, s, d_zero) []) /\
  (cpu_diff_total other (store_cpu vals s) = 0 /\
   get_cpu_usage (CpuScanned vals) s other = Ok (d_zero, s, d_zero) []) /\
  (cpu_diff_total before_reset (store_cpu vals s) = 2 ^ 64 - 1900 /\
   exists busy io : double,
     get_cpu_usage (CpuScanned vals) s before_reset
     = Ok (busy, s, io) [double_of_Z (2 ^ 64 - 1900); double_of_Z (2 ^ 64 - 1900)]).
Proof.
  split; [|split]; [split; [reflexivity|]|split; [reflexivity|]| ].
  - exact (proj1 (proj2 (cpu_zero_delta_gives_zero
                    [100; 2; 30; 4000; 50; 6; 7; 8]
                    (mk_cpu_stats 100 2 30 4000 50 6 7 8)
                    (mk_cpu_stats 100 2 30 4000 50 6 7 8))) eq_refl).
  - exact (proj1 (cpu_zero_delta_gives_zero
                    [100; 2; 30; 4000; 50; 6; 7; 8]
                    (mk_cpu_stats 100 2 30 4000 50 6 7 8)
                    (mk_cpu_stats 102 0 30 4000 50 6 7 8)) eq_refl).
  - refine (proj2 (proj2 (proj2 (cpu_zero_delta_gives_zero
                    [100; 2; 30; 4000; 50; 6; 7; 8]
                    (mk_cpu_stats 100 2 30 4000 50 6 7 8)
                    (mk_cpu_stats 1000 2 30 5000 50 6 7 8)))) _ _ _);
      unfold cpu_nonneg, cpu_sum; cbn; lia.
Defined.

(** C2, as stated, fails after a counter reset: the counters read are
    below those of [*prev], the total delta the code computes is 2^64 - 5940
    and not zero, both divisions are made, and the busy percentage returned
    is not 0 but three units in the last place above 100.0. *)
Lemma cpu_counter_reset_is_not_answered_with_zero :
  let prev := mk_cpu_stats 1000 0 0 5000 0 0 0 0 in
  let vals := [10; 0; 0; 50; 0; 0; 0; 0] in
  let cur := store_cpu vals zero_cpu_stats in
  cpu_nonneg prev /\ cpu_nonneg cur /\ cpu_sum cur < cpu_sum prev /\
  cpu_diff_total prev cur = 2 ^ 64 - 5940 /\
  get_cpu_usage (CpuScanned vals) zero_cpu_stats prev
  = Ok (S754_finite false 7036874417766403 (-46), cur, d_zero)
       [double_of_Z (2 ^ 64 - 5940); double_of_Z (2 ^ 64 - 5940)] /\
  S754_finite false 7036874417766403 (-46) <> d_zero /\
  dleb (S754_finite false 7036874417766403 (-46)) d_100 = false.
Proof.
  cbv zeta. split; [unfold cpu_nonneg; cbn; lia|].
  split; [unfold cpu_nonneg; cbn; lia|].
  split; [unfold cpu_sum; cbn; lia|].
  split; [vm_compute; reflexivity|].
  split; [vm_compute; reflexivity|].
  split; [discriminate|reflexivity].
Qed.

(** ** The memory sampler at a zero total *)

Lemma get_mem_usage_swap_guard (entries : list mem_entry) :
  let v := fold_left mem_scan_step entries mem_vars_init in
  swap_total v = 0 ->
  exists mem, get_mem_usage (MemScanned entries)
              = Ok (mem, d_zero) [double_of_Z (mem_total v)].
Proof.
  intros v Hs. unfold get_mem_usage. fold v. rewrite Hs.
  cbn. eexists. reflexivity.
Qed.

(** C3.  On a table that reports a zero [MemTotal] the swap side is
    guarded and gives 0.0 without dividing, while the memory side divides
    by the zero total: the used-memory percentage returned is NaN, not 0,
    and the zero divisor is on record. *)
Theorem mem_zero_total_divides_by_zero :
  get_mem_usage (MemScanned meminfo_all_zero)
  = Ok (S754_nan, d_zero) [S754_zero false].
Proof. vm_compute. reflexivity. Qed.

(** ** The load sampler on a short parse *)

Lemma parse_loadavg_short (s : load_scan) (l : loadavg_t) :
  scan_count s <> 6 ->
  parse_loadavg (LoadLine s) l = (-1, store_loadavg s l).
Proof.
  intros H. unfold parse_loadavg.
  destruct (Z.eqb_spec (scan_count s) 6); [contradiction | reflexivity].
Qed.

(** C4, as the code has it.  A line from which fewer than six fields convert
    makes [parse_loadavg] return -1.  As many values as the conversion count
    says were converted, load averages first; each field of the snapshot
    that has a converted value holds that value, and each field that has
    none keeps its previous value, [last_pid] always.  In particular
    nothing changes when no conversion took place. *)
Theorem loadavg_short_parse_keeps_unconverted (s : load_scan) (l : loadavg_t) :
  scan_count s <> 6 ->
  let l' := snd (parse_loadavg (LoadLine s) l) in
  fst (parse_loadavg (LoadLine s) l) = -1 /\
  Z.of_nat (length (scanned_loads s) + length (scanned_counts s))
  = Z.max 0 (scan_count s) /\
  (scanned_counts s <> [] -> length (scanned_loads s) = 3%nat) /\
  load_1min l' = default (load_1min l) (scanned_loads s !! 0%nat) /\
  load_5min l' = default (load_5min l) (scanned_loads s !! 1%nat) /\
  load_15min l' = default (load_15min l) (scanned_loads s !! 2%nat) /\
  running_processes l' = default (running_processes l) (scanned_counts s !! 0%nat) /\
  total_processes l' = default (total_processes l) (scanned_counts s !! 1%nat) /\
  (scan_count s <= 0 -> l' = l) /\
  (scan_count s < 1 -> load_1min l' = load_1min l) /\
  (scan_count s < 2 -> load_5min l' = load_5min l) /\
  (scan_count s < 3 -> load_15min l' = load_15min l) /\
  (scan_count s < 4 -> running_processes l' = running_processes l) /\
  (scan_count s < 5 -> total_processes l' = total_processes l) /\
  last_pid l' = last_pid l.
Proof.
  intros H l'. subst l'. rewrite (parse_loadavg_short s l H). cbn [fst snd].
  destruct s; cbn in *; repeat split; intros; try reflexivity; try lia;
    try congruence; now destruct l.
Qed.

Lemma loadavg_short_parse_keeps_unconverted_witness :
  let old := mk_loadavg (double_of_Z 1) (double_of_Z 1) (double_of_Z 1) 1 100 7 in
  let s := Scan4 (double_of_Z 2) (double_of_Z 3) (double_of_Z 4) 5 in
  let l' := snd (parse_loadavg (LoadLine s) old) in
  fst (parse_loadavg (LoadLine s) old) = -1 /\
  load_1min l' = double_of_Z 2 /\ load_5min l' = double_of_Z 3 /\
  load_15min l' = double_of_Z 4 /\ running_processes l' = 5 /\
  total_processes l' = 100 /\ last_pid l' = 7.
Proof.
  cbv zeta.
  destruct (loadavg_short_parse_keeps_unconverted
              (Scan4 (double_of_Z 2) (double_of_Z 3) (double_of_Z 4) 5)
              (mk_loadavg (double_of_Z 1) (double_of_Z 1) (double_of_Z 1) 1 100 7)
              ltac:(cbn; lia))
    as (Hrc & _ & _ & H1 & H5 & H15 & Hrun & Htot & _ & _ & _ & _ & _ & _ & Hpid).
  split; [exact Hrc|]. split; [exact H1|]. split; [exact H5|].
  split; [exact H15|]. split; [exact Hrun|]. split; [exact Htot|exact Hpid].
Defined.

(** C4, as stated, fails: three of six fields convert, the call returns -1
    and the three load averages of the snapshot have changed. *)
Lemma loadavg_short_parse_overwrites :
  let old := mk_loadavg (double_of_Z 1) (double_of_Z 1) (double_of_Z 1) 1 100 7 in
  let s := Scan3 (double_of_Z 2) (double_of_Z 3) (double_of_Z 4) in
  scan_count s = 3 /\
  fst (parse_loadavg (LoadLine s) old) = -1 /\
  snd (parse_loadavg (LoadLine s) old) <> old /\
  load_1min (snd (parse_loadavg (LoadLine s) old)) = double_of_Z 2.
Proof.
  cbv zeta. repeat split; try reflexivity.
  vm_compute. discriminate.
Qed.

(** ** The drain loop ends *)

Lemma fgets_chars_length (room : nat) (data t rem : string) (e : bool) :
  fgets_chars room data = (t, rem, e) ->
  String.length data = (String.length t + String.length rem)%nat.
Proof.
  revert data t rem e. induction room as [|r IH]; intros data t rem e H.
  - cbn in H. inversion H; subst. reflexivity.
  - destruct data as [|c rest]; cbn in H.
    + inversion H; subst. reflexivity.
    + destruct (Ascii.eqb c LF).
      * inversion H; subst. reflexivity.
      * destruct (fgets_chars r rest) as [[t0 rem0] e0] eqn:E.
        inversion H; subst. cbn. f_equal. eapply IH. exact E.
Qed.

Lemma fgets_some_consumes (size : nat) (fp fp' : FILE) (line : string) :
  fgets size fp = (Some line, fp') ->
  (String.length (f_unread fp') < String.length (f_unread fp))%nat.
Proof.
  unfold fgets. destruct (f_eof fp); [discriminate|].
  destruct (fgets_chars (size - 1) (f_unread fp)) as [[t rem] e] eqn:E.
  apply fgets_chars_length in E.
  destruct t as [|c t]; intros H; inversion H; subst; cbn in *. lia.
Qed.



(** ** What ends the loop *)



(** A battery whose [status] cannot be opened, with no AC device on line:
    the second pass hands a null stream to [fclose]. *)
Lemma parse_power_status_null_stream :
  let b := mk_device "BAT0" (Some ("Battery" ++ nl)%string)
                     (Some ("42" ++ nl)%string) None None in
  parse_power_status (Some [b]) (Some [b]) = Crash.
Proof. reflexivity. Qed.

Lemma parse_power_status_never_exits (d1 d2 : option (list device)) (c : Z) :
  parse_power_status d1 d2 <> Exit c.
Proof.
  assert (H2 : forall ds p, power_second_pass ds p <> Exit c).
  { induction ds as [|d rest IH]; intros p; cbn; [discriminate|].
    destruct (dot_entry d); [apply IH|].
    destruct (a_type d) as [content|]; [|apply IH].
    destruct (fgets_line 32 content) as [t|]; [|apply IH].
    destruct (String.eqb t "Battery"); [|apply IH].
    destruct (a_status d) as [st|]; [|discriminate].
    destruct (fgets_line 32 st) as [buf|]; [|discriminate].
    destruct (String.eqb buf "Charging"); discriminate. }
  unfold parse_power_status. destruct d1 as [ds|]; [|discriminate].
  destruct (negb _ && _); [|discriminate].
  destruct d2 as [ds2|]; [|discriminate].
  cbn. specialize (H2 ds2 (ps_power (fold_left power_first_pass_step ds
                                       (mk_power_scan (mk_power (-1) 0) false false)))).
  destruct (power_second_pass ds2 _); cbn; congruence.
Qed.







(** C1, as stated, fails a second way: a tick of a process that watches a
    file which does not report its end never finishes, though every other
    source answers. *)
Lemma tick_hangs_on_endless_file :
  let g := set_tail initial_globals (Some (mk_FILE "" false)) empty_log in
  let inp := mk_tick_input (CpuScanned [130; 2; 30; 4060; 60; 6; 7; 8])
               zero_cpu_stats (MemScanned sample_meminfo) (LoadLine sample_loads)
               (Some []) (Some []) "" true [] in
  tick inp g (mk_locals zero_cpu_stats zero_loads (mk_power (-1) 0) 0 "log")
  = Hangs.
Proof. vm_compute. reflexivity. Qed.


(** ** The battery figure of a host without battery *)

Lemma summary_line_sentinel (lo : loadavg_t) (ac : Z) :
  summary_line lo (mk_power (-1) ac) = summary_line lo (mk_power 0 ac).
Proof. reflexivity. Qed.

Lemma draw_frame_summary (redraw : bool) (g : globals) (cpu mem swap_pct : double)
    (lo : loadavg_t) (pw : power_status_t) (path : string) :
  In (Text (summary_line lo pw)) (draw_frame redraw g cpu mem swap_pct lo pw path).
Proof.
  unfold draw_frame. do 6 (apply in_or_app; right).
  apply in_or_app. left. left. reflexivity.
Qed.

Lemma main_loop_body_draws_summary (inp : tick_input) (g g' : globals)
    (l l' : locals) (out : list out_item) :
  main_loop_body inp g l = Continue g' l' out ->
  In (Text (summary_line (loads l') (power l'))) out.
Proof.
  unfold main_loop_body.
  destruct (get_cpu_usage _ _ _) as [[[cpu prev'] io] ?| |]; try discriminate.
  destruct (get_mem_usage _) as [[mem swap] ?| |]; try discriminate.
  destruct (parse_power_status _ _) as [[rc power'] ?| |]; try discriminate.
  destruct (match dbg_fp (set_last_io_pct g io) with
            | Some _ => _ | None => _ end) as [[[nd fp'] b']|]; try discriminate.
  intros H. inversion H; subst; clear H. cbn [loads power].
  apply draw_frame_summary.
Qed.

Lemma main_loop_body_samples (inp : tick_input) (g g' : globals)
    (l l' : locals) (out : list out_item) :
  main_loop_body inp g l = Continue g' l' out ->
  loads l' = snd (parse_loadavg (in_load inp) (loads l)) /\
  exists rc divs,
    parse_power_status (in_power1 inp) (in_power2 inp) = Ok (rc, power l') divs.
Proof.
  unfold main_loop_body.
  destruct (get_cpu_usage _ _ _) as [[[cpu prev'] io] ?| |]; try discriminate.
  destruct (get_mem_usage _) as [[mem swap] ?| |]; try discriminate.
  destruct (parse_power_status _ _) as [[rc power'] ?| |]; try discriminate.
  destruct (match dbg_fp (set_last_io_pct g io) with
            | Some _ => _ | None => _ end) as [[[nd fp'] b']|]; try discriminate.
  intros H. inversion H; subst; clear H. cbn [loads power].
  split; [reflexivity|]. do 2 eexists. reflexivity.
Qed.

(** C10.  On every tick that leaves the power snapshot at the no-battery
    sentinel -1, the frame holds the summary line with the battery figure
    0, the very line drawn for a battery at 0 percent, and with the marker
    "on batt)" when [on_ac] is 0; a frame drawn for the sentinel and one
    drawn for a battery at 0 percent are the same. *)
Theorem no_battery_is_drawn_as_zero (inp : tick_input) (g g' : globals)
    (l l' : locals) (out : list out_item) :
  tick inp g l = Continue g' l' out ->
  battery_percent (power l') = -1 ->
  In (Text (summary_line (loads l') (mk_power 0 (on_ac (power l'))))) out /\
  (on_ac (power l') = 0 ->
   summary_line (loads l') (power l')
   = (" > [" ++ print_int (running_processes (loads l')) ++ "/" ++
      print_int (total_processes (loads l')) ++ "] :: (0% on batt)" ++ nl)%string) /\
  (forall redraw gl cpu mem swap_pct lo ac path,
     draw_frame redraw gl cpu mem swap_pct lo (mk_power (-1) ac) path
     = draw_frame redraw gl cpu mem swap_pct lo (mk_power 0 ac) path).
Proof.
  intros Ht Hb. apply main_loop_body_draws_summary in Ht.
  destruct (power l') as [bp ac]. cbn in Hb. subst bp. split; [|split].
  - rewrite <- summary_line_sentinel. exact Ht.
  - cbn. intros ->. reflexivity.
  - reflexivity.
Qed.

Lemma no_battery_is_drawn_as_zero_witness :
  exists g' l' out,
    tick sample_tick initial_globals
         (mk_locals zero_cpu_stats zero_loads (mk_power 50 1) 0 "")
    = Continue g' l' out /\
    power l' = mk_power (-1) 0 /\
    In (Text (" > [2/278] :: (0% on batt)" ++ nl)%string) out.
Proof.
  destruct (tick sample_tick initial_globals
              (mk_locals zero_cpu_stats zero_loads (mk_power 50 1) 0 ""))
    as [g' l' out| | |] eqn:E; try (vm_compute in E; discriminate).
  destruct (main_loop_body_samples _ _ _ _ _ _ E) as (Hl & rc & divs & Hp).
  assert (Hpw : power l' = mk_power (-1) 0).
  { remember (power l') as pw eqn:Epw. vm_compute in Hp. congruence. }
  exists g', l', out. split; [reflexivity|]. split; [exact Hpw|].
  pose proof (no_battery_is_drawn_as_zero _ _ _ _ _ _ E) as Hdrawn.
  rewrite Hpw, Hl in Hdrawn. exact (proj1 (Hdrawn eq_refl)).
Defined.

(** ** Shifting an array down by one slot *)

Lemma shift_down_spec {A} (a : list A) (n : nat) (v : A) :
  length a = S n ->
  <[n := v]> (memmove a 0 1 n) = drop 1 a ++ [v].
Proof.
  destruct a as [|x a']; [discriminate|]. cbn [length]. intros [= Hn].
  unfold memmove. cbn [take drop app Nat.add]. rewrite !drop_0.
  rewrite take_ge by lia.
  rewrite insert_app_r_alt by lia.
  replace (n - length a')%nat with 0%nat by lia.
  assert (Hd : length (drop n (x :: a')) = 1%nat) by (rewrite length_drop; cbn; lia).
  destruct (drop n (x :: a')) as [|y [|? ?]]; try discriminate. reflexivity.
Qed.

Lemma history_shift_spec (h : list double) (v : double) :
  length h = Z.to_nat MAXW ->
  history_shift h v = drop 1 h ++ [v].
Proof.
  intros H. unfold history_shift, array_set.
  replace (Z.to_nat (MAXW - 1)) with 511%nat by reflexivity.
  apply shift_down_spec. rewrite H. reflexivity.
Qed.

Lemma history_shift_length (h : list double) (v : double) :
  length h = Z.to_nat MAXW -> length (history_shift h v) = Z.to_nat MAXW.
Proof.
  intros H. rewrite history_shift_spec by exact H.
  rewrite length_app, length_drop, H. reflexivity.
Qed.

Lemma drop_one_app {A} (h t : list A) :
  h <> [] -> drop 1 h ++ t = drop 1 (h ++ t).
Proof. destruct h; [congruence | reflexivity]. Qed.

Lemma history_shift_all (vs : list double) :
  forall h : list double,
    length h = Z.to_nat MAXW ->
    fold_left history_shift vs h = drop (length vs) (h ++ vs) /\
    length (fold_left history_shift vs h) = Z.to_nat MAXW.
Proof.
  induction vs as [|v vs IH]; intros h H.
  - cbn. rewrite app_nil_r. auto.
  - cbn [fold_left length].
    destruct (IH (history_shift h v) (history_shift_length h v H)) as [E L].
    split; [|exact L]. rewrite E, history_shift_spec by exact H.
    rewrite <- app_assoc. cbn [app].
    rewrite drop_one_app by (intros ->; discriminate).
    rewrite drop_drop. reflexivity.
Qed.

Lemma push_all_hist (ps : list (double * double)) :
  forall g : globals,
    hist_cpu (push_all ps g) = fold_left history_shift (map fst ps) (hist_cpu g) /\
    hist_mem (push_all ps g) = fold_left history_shift (map snd ps) (hist_mem g).
Proof.
  induction ps as [|p ps IH]; intros g; [split; reflexivity|].
  unfold push_all in *. cbn [fold_left map]. apply IH.
Qed.

Lemma drop_app_all {A} (h vs : list A) (k : nat) :
  (length h <= k)%nat ->
  drop k (h ++ vs) = drop (k - length h) vs.
Proof. intros H. rewrite drop_app. rewrite drop_ge by lia. reflexivity. Qed.

(** C6.  One history push moves every entry of both arrays one slot toward
    the oldest end, drops the oldest and puts the new pair in the newest
    slot; after any pushes the arrays hold the last [MAXW] values of what
    they held followed by the pushed values, oldest first, and once [MAXW]
    values were pushed, exactly the last [MAXW] pushed values in order. *)
Theorem history_push_slides (g : globals) (ps : list (double * double))
    (cpu mem : double) :
  length (hist_cpu g) = Z.to_nat MAXW ->
  length (hist_mem g) = Z.to_nat MAXW ->
  (hist_cpu (history_push cpu mem g) = drop 1 (hist_cpu g) ++ [cpu] /\
   hist_mem (history_push cpu mem g) = drop 1 (hist_mem g) ++ [mem]) /\
  (hist_cpu (push_all ps g) = last_n (Z.to_nat MAXW) (hist_cpu g ++ map fst ps) /\
   hist_mem (push_all ps g) = last_n (Z.to_nat MAXW) (hist_mem g ++ map snd ps)) /\
  ((Z.to_nat MAXW <= length ps)%nat ->
   hist_cpu (push_all ps g) = last_n (Z.to_nat MAXW) (map fst ps) /\
   hist_mem (push_all ps g) = last_n (Z.to_nat MAXW) (map snd ps)).
Proof.
  intros Hc Hm.
  destruct (push_all_hist ps g) as [Ec Em].
  destruct (history_shift_all (map fst ps) _ Hc) as [Fc _].
  destruct (history_shift_all (map snd ps) _ Hm) as [Fm _].
  rewrite Fc in Ec. rewrite Fm in Em. rewrite length_map in Ec, Em.
  assert (Lc : hist_cpu (push_all ps g)
               = last_n (Z.to_nat MAXW) (hist_cpu g ++ map fst ps)).
  { rewrite Ec. unfold last_n. rewrite length_app, length_map, Hc.
    f_equal. lia. }
  assert (Lm : hist_mem (push_all ps g)
               = last_n (Z.to_nat MAXW) (hist_mem g ++ map snd ps)).
  { rewrite Em. unfold last_n. rewrite length_app, length_map, Hm.
    f_equal. lia. }
  split; [|split].
  - cbn [history_push set_history hist_cpu hist_mem].
    split; apply history_shift_spec; assumption.
  - split; assumption.
  - intros Hk. rewrite Ec, Em. unfold last_n. rewrite !length_map.
    split; rewrite drop_app_all by lia; f_equal; lia.
Qed.

Lemma history_push_slides_witness :
  let ps := [(double_of_Z 10, double_of_Z 20); (double_of_Z 30, double_of_Z 40)] in
  let many := map (fun i => (double_of_Z i, double_of_Z (i + 1))) (seqZ 0 600) in
  (hist_cpu (push_all ps initial_globals)
   = replicate 510 d_zero ++ [double_of_Z 10; double_of_Z 30] /\
   hist_mem (push_all ps initial_globals)
   = replicate 510 d_zero ++ [double_of_Z 20; double_of_Z 40]) /\
  (hist_cpu (push_all many initial_globals)
   = last_n (Z.to_nat MAXW) (map fst many) /\
   hist_mem (push_all many initial_globals)
   = last_n (Z.to_nat MAXW) (map snd many)).
Proof.
  split.
  - exact (proj1 (proj2 (history_push_slides initial_globals
       [(double_of_Z 10, double_of_Z 20); (double_of_Z 30, double_of_Z 40)]
       d_zero d_zero eq_refl eq_refl))).
  - refine (proj2 (proj2 (history_push_slides initial_globals
       (map (fun i => (double_of_Z i, double_of_Z (i + 1))) (seqZ 0 600))
       d_zero d_zero eq_refl eq_refl)) _).
    rewrite length_map, length_seqZ. vm_compute. lia.
Defined.

(** ** The debug log buffer *)

Lemma omap_map_Some {A} (ls : list A) :
  omap (fun slot => slot) (map Some ls) = ls.
Proof. induction ls as [|x ls IH]; [reflexivity|]. cbn. now rewrite IH. Qed.

Lemma log_holds_contents (b : debug_log) (ls : list string) :
  log_holds b ls -> log_contents b = ls /\ (length ls <= 12)%nat.
Proof.
  intros (rest & Hl & Hc & Hlen). unfold log_contents. rewrite Hl, Hc.
  rewrite Nat2Z.id.
  rewrite take_app_le by (rewrite length_map; lia).
  rewrite take_ge by (rewrite length_map; lia).
  split; [apply omap_map_Some|].
  rewrite Hl, length_app, length_map in Hlen.
  change (Z.to_nat MAX_DEBUG_LINES) with 12%nat in Hlen. lia.
Qed.

Lemma empty_log_holds : log_holds empty_log [].
Proof. exists (replicate 12 None). repeat split. Qed.

Lemma debug_log_append_holds (line : string) (b : debug_log) (ls : list string) :
  log_holds b ls ->
  log_holds (debug_log_append line b)
            ((if (length ls <? 12)%nat then ls else drop 1 ls) ++ [line]).
Proof.
  intros (rest & Hl & Hc & Hlen). destruct b as [lines count]. cbn in Hl, Hc, Hlen.
  subst lines count.
  assert (Hle : (length ls + length rest = 12)%nat).
  { rewrite length_app, length_map in Hlen. exact Hlen. }
  unfold debug_log_append, MAX_DEBUG_LINES, array_set.
  destruct (Nat.ltb_spec (length ls) 12) as [Hlt|Hge].
  - destruct (Z.geb_spec (Z.of_nat (length ls)) 12) as [Hz|Hz]; [lia|].
    rewrite Nat2Z.id.
    destruct rest as [|r rest']; [cbn in Hle; lia|].
    exists rest'. cbn [fst snd]. repeat split.
    + rewrite insert_app_r_alt by (rewrite length_map; lia).
      rewrite length_map, Nat.sub_diag. cbn.
      rewrite map_app, <- app_assoc. reflexivity.
    + rewrite length_app. cbn. lia.
    + rewrite length_insert. exact Hlen.
  - destruct (Z.geb_spec (Z.of_nat (length ls)) 12) as [Hz|Hz]; [|lia].
    assert (rest = []) by (destruct rest; [reflexivity | cbn in Hle; lia]).
    subst rest. rewrite app_nil_r in *.
    replace (Z.to_nat (Z.of_nat (length ls) - 1)) with 11%nat by lia.
    change (Z.to_nat (12 - 1)) with 11%nat.
    rewrite shift_down_spec by (rewrite length_map; lia).
    exists []. cbn [fst snd]. rewrite app_nil_r. repeat split.
    + rewrite map_app, <- skipn_map. reflexivity.
    + rewrite length_app, length_drop. cbn. lia.
    + rewrite length_app, length_drop, length_map.
      change (Z.to_nat MAX_DEBUG_LINES) with 12%nat. cbn in *. lia.
Qed.

Lemma append_all_holds (ls : list string) :
  forall (b : debug_log) (old : list string),
    log_holds b old ->
    log_holds (append_all ls b) (last_n 12 (old ++ ls)).
Proof.
  induction ls as [|l ls IH] using rev_ind; intros b old H.
  - cbn. rewrite app_nil_r. unfold last_n.
    destruct (log_holds_contents _ _ H) as [_ Hlen].
    replace (length old - 12)%nat with 0%nat by lia. exact H.
  - unfold append_all. rewrite fold_left_app. cbn [fold_left].
    fold (append_all ls b).
    pose proof (debug_log_append_holds l _ _ (IH b old H)) as Hs.
    rewrite app_assoc.
    destruct (log_holds_contents _ _ (IH b old H)) as [_ Hlen].
    unfold last_n in *. rewrite length_app. cbn [length].
    set (all := old ++ ls) in *.
    destruct (Nat.ltb_spec (length (drop (length all - 12) all)) 12) as [Hlt|Hge].
    + rewrite length_drop in Hlt.
      rewrite drop_app_le by lia.
      replace (length all + 1 - 12)%nat with (length all - 12)%nat by lia.
      exact Hs.
    + rewrite length_drop in Hge.
      rewrite drop_drop in Hs.
      rewrite drop_app_le by lia.
      replace (length all + 1 - 12)%nat with (length all - 12 + 1)%nat by lia.
      exact Hs.
Qed.

(** C7.  Starting from the empty buffer, after any sequence of appends the
    buffer holds the last [MAX_DEBUG_LINES] appended lines, at most that
    many, in the order of their arrival; an append to a full buffer drops
    exactly the oldest line, an append to one that is not full drops
    none. *)
Theorem debug_log_is_bounded_fifo (ls : list string) (line : string) :
  let b := append_all ls empty_log in
  log_contents b = last_n (Z.to_nat MAX_DEBUG_LINES) ls /\
  (length (log_contents b) <= Z.to_nat MAX_DEBUG_LINES)%nat /\
  log_contents (debug_log_append line b)
  = (if (length (log_contents b) <? Z.to_nat MAX_DEBUG_LINES)%nat
     then log_contents b else drop 1 (log_contents b)) ++ [line].
Proof.
  intros b. change (Z.to_nat MAX_DEBUG_LINES) with 12%nat.
  pose proof (append_all_holds ls empty_log [] empty_log_holds) as H.
  cbn [app] in H. fold b in H.
  destruct (log_holds_contents _ _ H) as [Hc Hlen].
  pose proof (debug_log_append_holds line _ _ H) as Hs.
  destruct (log_holds_contents _ _ Hs) as [Hc' _].
  rewrite Hc. repeat split; [exact Hlen | exact Hc'].
Qed.

(** ** Power supplies: one battery, no AC device *)

Lemma first_pass_inert (s : power_scan) (d : device) :
  inert d = true -> power_first_pass_step s d = s.
Proof.
  unfold inert, power_first_pass_step.
  destruct (dot_entry d); [reflexivity|]. cbn [orb].
  destruct (read_type d) as [t|]; [|reflexivity].
  intros H. apply andb_true_iff in H as [Hb Ha].
  apply negb_true_iff in Hb, Ha. rewrite Hb, Ha. reflexivity.
Qed.

Lemma first_pass_all_inert (ds : list device) (s : power_scan) :
  Forall (fun d => inert d = true) ds ->
  fold_left power_first_pass_step ds s = s.
Proof.
  revert s. induction ds as [|d ds IH]; intros s H; [reflexivity|].
  inversion H; subst. cbn [fold_left]. rewrite first_pass_inert by assumption.
  now apply IH.
Qed.

Lemma second_pass_skips_inert (ds rest : list device) (p : power_status_t) :
  Forall (fun d => inert d = true) ds ->
  power_second_pass (ds ++ rest) p = power_second_pass rest p.
Proof.
  induction ds as [|d ds IH]; intros H; [reflexivity|].
  inversion H as [|? ? Hd Hds]; subst. cbn [app power_second_pass].
  unfold inert, read_type in Hd.
  destruct (dot_entry d); [now apply IH|]. cbn [orb] in Hd.
  destruct (a_type d) as [content|]; [|now apply IH].
  destruct (fgets_line 32 content) as [t|]; [|now apply IH].
  apply andb_true_iff in Hd as [Hb _]. apply negb_true_iff in Hb.
  rewrite Hb. now apply IH.
Qed.

(** C9.  In a device set with one battery whose capacity reads [pct >= 0]
    (42 in particular) and whose other entries are neither batteries nor
    AC devices, [parse_power_status] returns that capacity as
    [battery_percent], and [on_ac] is 1 when the battery's [status] reads
    exactly "Charging" and 0 when it reads anything else, "Discharging"
    included: with no AC device found, the second pass decides.  The second
    pass is not made when an AC device was found on line or no battery
    was. *)
Theorem lone_battery_power_status (before after : list device) (b : device)
    (pct : Z) (status : string) :
  Forall (fun d => inert d = true) before ->
  Forall (fun d => inert d = true) after ->
  dot_entry b = false ->
  read_type b = Some "Battery"%string ->
  read_sys_int (a_capacity b) = pct ->
  0 <= pct ->
  a_status b = Some status ->
  let ds := before ++ b :: after in
  parse_power_status (Some ds) (Some ds)
  = Ok (0, mk_power pct (if reads_charging status then 1 else 0)) [] /\
  (forall (ds1 : list device) (dir2 : option (list device)),
     let s := fold_left power_first_pass_step ds1
                (mk_power_scan (mk_power (-1) 0) false false) in
     found_ac s = true \/ found_battery s = false ->
     parse_power_status (Some ds1) dir2 = Ok (0, ps_power s) []).
Proof.
  intros Hpre Hpost Hdot Htype Hcap Hpos Hst ds. subst ds.
  split.
  2: { intros ds1 dir2 s Hgate. unfold parse_power_status. fold s.
       destruct Hgate as [-> | ->]; [reflexivity|].
       rewrite andb_false_r. reflexivity. }
  unfold parse_power_status.
  rewrite fold_left_app. cbn [fold_left].
  rewrite (first_pass_all_inert before) by exact Hpre.
  assert (Hstep : power_first_pass_step
                    (mk_power_scan (mk_power (-1) 0) false false) b
                  = mk_power_scan (mk_power pct 0) true false).
  { unfold power_first_pass_step. rewrite Hdot, Htype, Hcap. cbn.
    destruct (Z.geb_spec pct 0); [reflexivity | lia]. }
  rewrite Hstep, (first_pass_all_inert after) by exact Hpost.
  cbn [found_ac found_battery negb andb ps_power].
  rewrite (second_pass_skips_inert before) by exact Hpre.
  cbn [power_second_pass]. rewrite Hdot.
  unfold read_type in Htype.
  destruct (a_type b) as [content|]; [|discriminate].
  rewrite Htype, Hst. cbn [String.eqb Ascii.eqb Bool.eqb].
  unfold reads_charging.
  destruct (fgets_line 32 status) as [buf|]; [|reflexivity].
  destruct (String.eqb buf "Charging"); reflexivity.
Qed.

Lemma lone_battery_power_status_witness :
  parse_power_status (Some [sample_battery "Charging"])
                     (Some [sample_battery "Charging"])
  = Ok (0, mk_power 42 1) [] /\
  parse_power_status (Some [sample_battery "Discharging"])
                     (Some [sample_battery "Discharging"])
  = Ok (0, mk_power 42 0) [].
Proof.
  split.
  - refine (proj1 (lone_battery_power_status [] [] (sample_battery "Charging") 42
                     ("Charging" ++ nl)%string _ _ _ _ _ _ _));
      try constructor; try reflexivity; lia.
  - refine (proj1 (lone_battery_power_status [] [] (sample_battery "Discharging") 42
                     ("Discharging" ++ nl)%string _ _ _ _ _ _ _));
      try constructor; try reflexivity; lia.
Defined.

(** ** The file tail *)

Lemma string_app_assoc (a b c : string) :
  ((a ++ b) ++ c = a ++ (b ++ c))%string.
Proof. induction a as [|x a IH]; [reflexivity|]. cbn. now rewrite IH. Qed.

Lemma string_app_empty_r (a : string) : (a ++ "")%string = a.
Proof. induction a as [|x a IH]; [reflexivity|]. cbn. now rewrite IH. Qed.

Lemma string_length_app (a b : string) :
  String.length (a ++ b)%string = (String.length a + String.length b)%nat.
Proof. induction a as [|x a IH]; [reflexivity|]. cbn. now rewrite IH. Qed.

Lemma plain_char_not_LF (c : ascii) : plain_char c = true -> Ascii.eqb c LF = false.
Proof.
  unfold plain_char. destruct (Ascii.eqb c LF); [discriminate | reflexivity].
Qed.

Lemma fgets_chars_plain_line (l rest : string) :
  forall room : nat,
    all_plain l = true ->
    (String.length l < room)%nat ->
    fgets_chars room (l ++ String LF rest) = ((l ++ nl)%string, rest, false).
Proof.
  induction l as [|c l IH]; intros room Hp Hlen.
  - destruct room; [cbn in Hlen; lia|]. reflexivity.
  - destruct room; [cbn in Hlen; lia|]. cbn in Hp, Hlen.
    apply andb_true_iff in Hp as [Hc Hp].
    cbn [append fgets_chars]. rewrite (plain_char_not_LF c Hc).
    rewrite IH by (assumption || lia). reflexivity.
Qed.

Lemma strip_plain_line (l : string) :
  all_plain l = true ->
  terminate_at (strcspn (l ++ nl) (String CR nl)) (l ++ nl) = l.
Proof.
  induction l as [|c l IH]; intros Hp; [reflexivity|]. cbn in Hp.
  apply andb_true_iff in Hp as [Hc Hp]. cbn [append strcspn mem_ascii nl].
  unfold plain_char in Hc.
  destruct (Ascii.eqb c LF), (Ascii.eqb c CR), (Ascii.eqb c NUL); try discriminate.
  cbn [orb terminate_at]. f_equal. apply IH. exact Hp.
Qed.

Lemma read_debug_loop_lines (ls : list string) :
  forall (fuel : nat) (b : debug_log) (u : Z),
    Forall plain_line ls ->
    (String.length (file_text ls) < fuel)%nat ->
    read_debug_loop fuel (mk_FILE (file_text ls) false) b u
    = Some (mk_FILE "" true, append_all ls b,
            match ls with [] => u | _ => 1 end).
Proof.
  induction ls as [|l ls IH]; intros fuel b u Hp Hf.
  - destruct fuel; [cbn in Hf; lia|]. reflexivity.
  - destruct fuel; [cbn in Hf; lia|].
    inversion Hp as [|? ? [Hlen Hpl] Hrest]; subst.
    cbn [read_debug_loop file_text]. unfold fgets. cbn [f_eof f_unread].
    change (1024 - 1)%nat with 1023%nat.
    change (l ++ nl ++ file_text ls)%string
      with (l ++ String LF (file_text ls))%string.
    rewrite fgets_chars_plain_line by (assumption || lia).
    assert (Hne : exists c t, (l ++ nl)%string = String c t).
    { destruct l; cbn; eauto. }
    destruct Hne as (c & t & Hne). rewrite Hne. rewrite <- Hne.
    rewrite strip_plain_line by exact Hpl.
    rewrite IH.
    + f_equal. f_equal. destruct ls; reflexivity.
    + exact Hrest.
    + cbn [file_text] in Hf. rewrite !string_length_app in Hf. cbn in Hf. lia.
Qed.

Lemma drain_cycle_lines (batch : list string) (b : debug_log) :
  Forall plain_line batch ->
  drain_cycle batch (mk_FILE "" false) b
  = Some (match batch with [] => 0 | _ => 1 end,
          Some (mk_FILE "" false), append_all batch b).
Proof.
  intros Hp. unfold drain_cycle, read_debug_file, file_append, drain_fuel.
  cbn [f_unread f_eof append].
  rewrite read_debug_loop_lines by (assumption || lia). reflexivity.
Qed.

Lemma append_all_app (xs ys : list string) (b : debug_log) :
  append_all (xs ++ ys) b = append_all ys (append_all xs b).
Proof. unfold append_all. apply fold_left_app. Qed.

Lemma drain_cycles_lines (batches : list (list string)) :
  forall b : debug_log,
    Forall (Forall plain_line) batches ->
    drain_cycles batches (mk_FILE "" false) b
    = Some (mk_FILE "" false, append_all (concat batches) b).
Proof.
  induction batches as [|batch rest IH]; intros b Hp; [reflexivity|].
  inversion Hp; subst. cbn [drain_cycles concat].
  rewrite drain_cycle_lines by assumption.
  rewrite IH by assumption. now rewrite append_all_app.
Qed.

(** C8, as the code has it.  Let the writer append, between ticks, batches
    of complete lines, each line of at most 1022 bytes and free of CR, LF
    and NUL.  Every drain reads all the lines at hand up to the end of the
    file, appends them to the log buffer in order, reports whether there
    were any, and leaves the stream with its end-of-file indicator cleared,
    so the next drain reads what is appended later, over any number of
    such cycles; the buffer then holds the last [MAX_DEBUG_LINES] of the
    lines it held and those appended, in order. *)
Theorem drains_deliver_appended_lines (batches : list (list string))
    (batch : list string) (b : debug_log) (old : list string) :
  Forall (Forall plain_line) batches ->
  Forall plain_line batch ->
  log_holds b old ->
  drain_cycle batch (mk_FILE "" false) b
  = Some (match batch with [] => 0 | _ => 1 end,
          Some (mk_FILE "" false), append_all batch b) /\
  exists b',
    drain_cycles batches (mk_FILE "" false) b = Some (mk_FILE "" false, b') /\
    b' = append_all (concat batches) b /\
    log_contents b' = last_n (Z.to_nat MAX_DEBUG_LINES) (old ++ concat batches).
Proof.
  intros Hps Hp Hb. split; [apply drain_cycle_lines; exact Hp|].
  eexists. split; [apply drain_cycles_lines; exact Hps|]. split; [reflexivity|].
  apply (log_holds_contents _ _ (append_all_holds _ _ _ Hb)).
Qed.

Lemma drains_deliver_appended_lines_witness :
  exists b',
    drain_cycles [["boot"; "ready"]; []; ["request 1"]]%string
                 (mk_FILE "" false) empty_log
    = Some (mk_FILE "" false, b') /\
    log_contents b' = ["boot"; "ready"; "request 1"]%string.
Proof.
  destruct (proj2 (drains_deliver_appended_lines
                     [["boot"; "ready"]; []; ["request 1"]]%string
                     ["boot"]%string empty_log []
                     ltac:(repeat constructor) ltac:(repeat constructor)
                     empty_log_holds))
    as (b' & Hc & _ & Hl).
  exists b'. split; [exact Hc | exact Hl].
Defined.

(** C8, as stated, fails on a burst: of thirteen lines appended between two
    ticks the first is gone from the buffer after the drain; a line of 1024
    bytes arrives as two entries; and a line is cut at a CR or a NUL inside
    it. *)
Lemma drain_does_not_show_every_line :
  (exists fp' b',
     drain_cycle thirteen_lines (mk_FILE "" false) empty_log = Some (1, fp', b') /\
     log_contents b' = drop 1 thirteen_lines /\
     ~ In "1"%string (log_contents b')) /\
  (exists fp' b',
     drain_cycle [string_of_char 1024 "a"] (mk_FILE "" false) empty_log
     = Some (1, fp', b') /\
     log_contents b' = [string_of_char 1023 "a"; "a"%string]) /\
  (exists fp' b',
     drain_cycle [String "a" (String CR "b"); String "c" (String NUL "d")]
                 (mk_FILE "" false) empty_log
     = Some (1, fp', b') /\
     log_contents b' = ["a"; "c"]%string).
Proof.
  split; [|split].
  - do 2 eexists. split; [vm_compute; reflexivity|]. split; [reflexivity|].
    vm_compute. intros H. repeat (destruct H as [H|H]; [discriminate|]). exact H.
  - do 2 eexists. split; [vm_compute; reflexivity|]. vm_compute. reflexivity.
  - do 2 eexists. split; [vm_compute; reflexivity|]. reflexivity.
Qed.

(** ** Doubles: rounding to 53 bits *)

Lemma digits2_pos_size (p : positive) : digits2_pos p = Pos.size p.
Proof. induction p; cbn; congruence. Qed.

Lemma Zdigits2_log2 (p : positive) : Zdigits2 (Zpos p) = Z.log2 (Zpos p) + 1.
Proof.
  cbn [Zdigits2]. rewrite digits2_pos_size.
  destruct p; cbn [Z.log2 Pos.size]; rewrite ?Pos2Z.inj_succ; lia.
Qed.

Lemma log2_bounds (z k : Z) : 0 < z -> 0 <= k ->
  (Z.log2 z = k <-> 2 ^ k <= z < 2 ^ (k + 1)).
Proof.
  intros Hz Hk. split.
  - intros <-. pose proof (Z.log2_spec z Hz). rewrite Z.add_1_r. lia.
  - intros H. apply Z.log2_unique; [lia|]. rewrite <- Z.add_1_r. lia.
Qed.

(** One right shift of a non-negative mantissa: the bit shifted out
    becomes the round bit, the old round bit joins the sticky bit. *)
Lemma shr_1_spec (m : Z) (r s : bool) : 0 <= m ->
  shr_1 (Build_shr_record m r s) = Build_shr_record (m / 2) (Z.odd m) (r || s).
Proof.
  intros Hm. rewrite <- Z.div2_div.
  destruct m as [|[p|p|]|p]; try lia; reflexivity.
Qed.

Lemma iter_pos_nat {A} (f : A -> A) (p : positive) (x : A) :
  SpecFloat.iter_pos f p x = Nat.iter (Pos.to_nat p) f x.
Proof.
  revert x. induction p as [p IH|p IH|]; intros x; cbn [SpecFloat.iter_pos].
  - rewrite !IH. rewrite Pos2Nat.inj_xI.
    replace (S (2 * Pos.to_nat p)) with (Pos.to_nat p + (Pos.to_nat p + 1))%nat by lia.
    rewrite !Nat.iter_add. reflexivity.
  - rewrite !IH. rewrite Pos2Nat.inj_xO.
    replace (2 * Pos.to_nat p)%nat with (Pos.to_nat p + Pos.to_nat p)%nat by lia.
    rewrite Nat.iter_add. reflexivity.
  - reflexivity.
Qed.

Lemma iter_shr_m (k : nat) (rec : shr_record) :
  0 <= shr_m rec ->
  shr_m (Nat.iter k shr_1 rec) = shr_m rec / 2 ^ Z.of_nat k /\
  0 <= shr_m (Nat.iter k shr_1 rec).
Proof.
  intros H0. induction k as [|k [IH IHp]].
  - cbn. rewrite Z.div_1_r. auto.
  - rewrite Nat.iter_succ.
    destruct (Nat.iter k shr_1 rec) as [m r s] eqn:E. cbn [shr_m] in *.
    rewrite shr_1_spec by exact IHp. cbn [shr_m].
    rewrite IH, Nat2Z.inj_succ, Z.pow_succ_r by lia.
    rewrite Z.div_div by lia.
    split; [f_equal; lia | apply Z.div_pos; lia].
Qed.

(** The round and sticky bits after [k >= 1] shifts of an exact mantissa. *)
Lemma iter_shr_flags (k : nat) (m : Z) :
  0 <= m ->
  let rec := Nat.iter (S k) shr_1 (Build_shr_record m false false) in
  shr_r rec = Z.odd (m / 2 ^ Z.of_nat k) /\
  shr_s rec = negb (m mod 2 ^ Z.of_nat k =? 0).
Proof.
  intros H0. induction k as [|k IH].
  - cbn [Nat.iter]. rewrite shr_1_spec by exact H0. cbn.
    rewrite Z.div_1_r, Z.mod_1_r. auto.
  - cbn zeta in *. rewrite Nat.iter_succ.
    destruct (iter_shr_m (S k) (Build_shr_record m false false) H0) as [Em Ep].
    destruct (Nat.iter (S k) shr_1 (Build_shr_record m false false))
      as [mk rk sk] eqn:E.
    cbn [shr_m shr_r shr_s] in *. destruct IH as [-> ->].
    rewrite shr_1_spec by exact Ep. cbn [shr_r shr_s]. subst mk.
    split; [reflexivity|].
    rewrite (Nat2Z.inj_succ k), Z.pow_succ_r by lia.
    rewrite (Z.mul_comm 2), Z.rem_mul_r by lia.
    rewrite Zmod_odd.
    pose proof (Z.mod_pos_bound m (2 ^ Z.of_nat k) ltac:(lia)).
    destruct (Z.odd (m / 2 ^ Z.of_nat k)), (Z.eqb_spec (m mod 2 ^ Z.of_nat k) 0);
      cbn [orb negb]; symmetry.
    + apply negb_true_iff, Z.eqb_neq. lia.
    + apply negb_true_iff, Z.eqb_neq. lia.
    + apply negb_false_iff, Z.eqb_eq. lia.
    + apply negb_true_iff, Z.eqb_neq. lia.
Qed.

(** Where the exact value lies after [k >= 1] shifts, by the remainder. *)
Lemma iter_shr_location (k : nat) (m : Z) :
  0 <= m ->
  let rem := m mod 2 ^ Z.of_nat (S k) in
  loc_of_shr_record (Nat.iter (S k) shr_1 (Build_shr_record m false false))
  = location_of_remainder rem (2 ^ Z.of_nat k).
Proof.
  intros H0 rem. unfold location_of_remainder.
  destruct (iter_shr_flags k m H0) as [Er Es].
  destruct (Nat.iter (S k) shr_1 (Build_shr_record m false false)) as [mk rk sk].
  cbn [shr_r shr_s] in *. subst rk sk. cbn [loc_of_shr_record].
  assert (Hrem : rem = m mod 2 ^ Z.of_nat k
                       + 2 ^ Z.of_nat k * (if Z.odd (m / 2 ^ Z.of_nat k) then 1 else 0)).
  { unfold rem. rewrite (Nat2Z.inj_succ k), Z.pow_succ_r by lia.
    rewrite (Z.mul_comm 2), Z.rem_mul_r by lia. now rewrite Zmod_odd. }
  pose proof (Z.mod_pos_bound m (2 ^ Z.of_nat k) ltac:(lia)).
  destruct (Z.odd (m / 2 ^ Z.of_nat k)), (Z.eqb_spec (m mod 2 ^ Z.of_nat k) 0);
    cbn [negb]; destruct (Z.eqb_spec rem 0); try lia.
  - f_equal. symmetry. apply Z.compare_eq_iff. lia.
  - f_equal. symmetry. apply Z.compare_gt_iff. lia.
  - reflexivity.
  - f_equal. symmetry. apply Z.compare_lt_iff. lia.
Qed.

Lemma loc_of_shr_record_of_loc (m : Z) (l : location) :
  loc_of_shr_record (shr_record_of_loc m l) = l.
Proof. destruct l as [|[| |]]; reflexivity. Qed.

Lemma shr_m_record_of_loc (m : Z) (l : location) :
  shr_m (shr_record_of_loc m l) = m.
Proof. destruct l as [|[| |]]; reflexivity. Qed.

Lemma round_nearest_even_cases (m : Z) (l : location) :
  (round_nearest_even m l = m \/ round_nearest_even m l = m + 1) /\
  (l = loc_Exact -> round_nearest_even m l = m).
Proof.
  destruct l as [|[| |]]; cbn; try destruct (Z.even m); auto; split; auto;
    discriminate.
Qed.

Lemma fexp_normal (e : Z) : -1074 <= e - 53 -> fexp 53 1024 e = e - 53.
Proof. unfold fexp, emin. lia. Qed.

(** The mantissa and location [shr_fexp] delivers for a mantissa of at
    least 53 bits in the normal range. *)
Lemma shr_fexp_normal (mx ex : Z) (lx : location) :
  2 ^ 52 <= mx ->
  let n := Z.log2 mx - 52 in
  -1074 <= ex + n ->
  exists mrs,
    shr_fexp 53 1024 mx ex lx = (mrs, ex + n) /\
    shr_m mrs = mx / 2 ^ n /\
    (lx = loc_Exact ->
     loc_of_shr_record mrs
     = location_of_remainder (mx mod 2 ^ n) (2 ^ (n - 1))).
Proof.
  intros Hmx n He.
  assert (Hpos : 0 < mx) by lia.
  assert (Hlog : 52 <= Z.log2 mx) by (apply Z.log2_le_pow2; lia).
  destruct mx as [|p|p]; try lia.
  unfold shr_fexp. rewrite Zdigits2_log2.
  rewrite fexp_normal by (subst n; lia).
  replace (Z.log2 (Z.pos p) + 1 + ex - 53 - ex) with n by (subst n; lia).
  destruct n as [|q|q] eqn:En; try lia.
  - unfold shr. eexists. split; [f_equal; lia|].
    rewrite shr_m_record_of_loc, loc_of_shr_record_of_loc, Z.div_1_r, Z.mod_1_r.
    split; [reflexivity|]. intros ->. reflexivity.
  - unfold shr. rewrite iter_pos_nat. eexists. split; [reflexivity|].
    destruct (iter_shr_m (Pos.to_nat q) (shr_record_of_loc (Z.pos p) lx)) as [Em _].
    { rewrite shr_m_record_of_loc. lia. }
    rewrite Em, shr_m_record_of_loc, positive_nat_Z. split; [reflexivity|].
    intros ->. cbn [shr_record_of_loc].
    destruct (Pos2Nat.is_succ q) as [k Hk]. rewrite Hk.
    rewrite iter_shr_location by lia.
    rewrite <- Hk, positive_nat_Z.
    replace (Z.of_nat k) with (Z.pos q - 1) by lia. reflexivity.
Qed.

Lemma shifted_mantissa_bounds (mx : Z) :
  2 ^ 52 <= mx ->
  2 ^ 52 <= mx / 2 ^ (Z.log2 mx - 52) < 2 ^ 53.
Proof.
  intros Hmx.
  assert (Hlog : 52 <= Z.log2 mx) by (apply Z.log2_le_pow2; lia).
  pose proof (Z.log2_spec mx ltac:(lia)) as [Hlo Hhi].
  set (n := Z.log2 mx - 52) in *.
  assert (Hp : 0 < 2 ^ n) by (apply Z.pow_pos_nonneg; lia).
  replace (Z.log2 mx) with (52 + n) in Hlo by lia.
  replace (Z.succ (Z.log2 mx)) with (53 + n) in Hhi by lia.
  rewrite Z.pow_add_r in Hlo, Hhi by lia.
  split.
  - apply Z.div_le_lower_bound; lia.
  - apply Z.div_lt_upper_bound; lia.
Qed.

(** [binary_round_aux] on a positive mantissa of at least 53 bits whose
    rounded value is in the normal range. *)
Lemma binary_round_aux_normal (mx ex : Z) (lx : location) :
  2 ^ 52 <= mx ->
  let n := Z.log2 mx - 52 in
  let e1 := ex + n in
  -1074 <= e1 -> e1 < 971 ->
  exists m2 : Z,
    (m2 = mx / 2 ^ n \/ m2 = mx / 2 ^ n + 1) /\
    (lx = loc_Exact -> mx mod 2 ^ n = 0 -> m2 = mx / 2 ^ n) /\
    (lx = loc_Exact ->
     m2 = round_nearest_even (mx / 2 ^ n)
            (location_of_remainder (mx mod 2 ^ n) (2 ^ (n - 1)))) /\
    binary_round_aux 53 1024 false mx ex lx
    = if m2 <? 2 ^ 53 then S754_finite false (Z.to_pos m2) e1
      else S754_finite false (Z.to_pos (2 ^ 52)) (e1 + 1).
Proof.
  intros Hmx n e1 Hlo Hhi.
  destruct (shr_fexp_normal mx ex lx Hmx Hlo) as (mrs & Es & Em & El).
  fold n in Es, Em, El. fold e1 in Es.
  pose proof (shifted_mantissa_bounds mx Hmx) as Hb. fold n in Hb.
  set (m1 := mx / 2 ^ n) in *.
  exists (round_nearest_even m1 (loc_of_shr_record mrs)).
  destruct (round_nearest_even_cases m1 (loc_of_shr_record mrs)) as [Hc Hx].
  remember (round_nearest_even m1 (loc_of_shr_record mrs)) as m2 eqn:Hm2.
  split; [exact Hc|]. split; [|split].
  - intros Hl Hz. apply Hx. rewrite (El Hl), Hz. reflexivity.
  - intros Hl. rewrite Hm2, (El Hl). reflexivity.
  - unfold binary_round_aux. rewrite Es, Em, <- Hm2. clear Hm2 Hx.
    destruct (Z.ltb_spec m2 (2 ^ 53)) as [Hlt|Hge].
    + destruct (shr_fexp_normal m2 e1 loc_Exact) as (mrs2 & Es2 & Em2 & _);
        [lia| |].
      { replace (Z.log2 m2) with 52 by (symmetry; apply log2_bounds; lia). lia. }
      replace (Z.log2 m2) with 52 in * by (symmetry; apply log2_bounds; lia).
      rewrite Z.sub_diag, Z.add_0_r in Es2. rewrite Z.sub_diag, Z.div_1_r in Em2.
      rewrite Es2, Em2.
      destruct m2 as [|p2|p2]; try lia.
      destruct (Z.leb_spec e1 (1024 - 53)); [reflexivity | lia].
    + assert (m2 = 2 ^ 53) by lia.
      destruct (shr_fexp_normal m2 e1 loc_Exact) as (mrs2 & Es2 & Em2 & _);
        [lia| |].
      { replace (Z.log2 m2) with 53 by (symmetry; apply log2_bounds; lia). lia. }
      replace (Z.log2 m2) with 53 in * by (symmetry; apply log2_bounds; lia).
      rewrite Es2, Em2. subst m2. change (2 ^ 53 / 2 ^ (53 - 52)) with (2 ^ 52).
      replace (e1 + (53 - 52)) with (e1 + 1) by lia.
      destruct (Z.leb_spec (e1 + 1) (1024 - 53)); [reflexivity | lia].
Qed.

Lemma pos_iter_xO (p k : positive) :
  Z.pos (Pos.iter xO p k) = Z.pos p * 2 ^ Z.pos k.
Proof.
  induction k as [|k IH] using Pos.peano_ind.
  - cbn. lia.
  - rewrite Pos.iter_succ, Pos2Z.inj_xO, IH, Pos2Z.inj_succ, Z.pow_succ_r by lia.
    lia.
Qed.

(** [(double)p] for [0 < p < 2^64]: a canonical positive double, and the
    integer it stands for. *)
Lemma double_of_Z_spec (p : Z) :
  0 < p < 2 ^ 64 ->
  exists M E : Z,
    double_of_Z p = S754_finite false (Z.to_pos M) E /\
    2 ^ 52 <= M < 2 ^ 53 /\ -52 <= E <= 12 /\
    M * 2 ^ (E + 52) = round_u64 p * 2 ^ 52.
Proof.
  intros [Hp0 Hp64].
  assert (Hl : 0 <= Z.log2 p < 64).
  { split; [apply Z.log2_nonneg|]. apply Z.log2_lt_pow2; lia. }
  pose proof (Z.log2_spec p Hp0) as [Hlo Hhi]. rewrite <- Z.add_1_r in Hhi.
  destruct p as [|q|q]; try lia.
  unfold double_of_Z, binary_normalize, binary_round, dprec, demax.
  change (Z.pos (digits2_pos q)) with (Zdigits2 (Z.pos q)).
  rewrite Zdigits2_log2, Z.add_0_r, fexp_normal by lia.
  set (l := Z.log2 (Z.pos q)) in *.
  unfold shl_align, round_u64. fold l.
  destruct (Z.ltb_spec (Z.pos q) (2 ^ 53)) as [Hsmall|Hbig].
  - assert (Hl52 : l <= 52).
    { destruct (Z.le_gt_cases l 52) as [|Hgt]; [assumption|].
      assert (2 ^ 53 <= 2 ^ l) by (apply Z.pow_le_mono_r; lia). lia. }
    exists (Z.pos q * 2 ^ (52 - l)), (l - 52).
    assert (Hpow : 2 ^ (52 - l) * 2 ^ l = 2 ^ 52)
      by (rewrite <- Z.pow_add_r by lia; f_equal; lia).
    assert (Hpow1 : 2 ^ (52 - l) * 2 ^ (l + 1) = 2 ^ 53)
      by (rewrite <- Z.pow_add_r by lia; f_equal; lia).
    assert (Hpp : 0 < 2 ^ (52 - l)) by (apply Z.pow_pos_nonneg; lia).
    assert (HM : 2 ^ 52 <= Z.pos q * 2 ^ (52 - l) < 2 ^ 53) by nia.
    assert (Hmz : exists mz,
               (match l + 1 - 53 - 0 with
                | Z.neg d => (Pos.iter xO q d, l + 1 - 53)
                | _ => (q, 0)
                end) = (mz, l - 52) /\ Z.pos mz = Z.pos q * 2 ^ (52 - l)).
    { destruct (l + 1 - 53 - 0) as [|d|d] eqn:Ed; try lia.
      - exists q. split; [f_equal; lia|]. replace (52 - l) with 0 by lia. lia.
      - exists (Pos.iter xO q d). split; [f_equal; lia|].
        rewrite pos_iter_xO. f_equal. f_equal. lia. }
    destruct Hmz as (mz & -> & Hmz).
    destruct (binary_round_aux_normal (Z.pos mz) (l - 52) loc_Exact)
      as (m2 & _ & Hex & _ & Hres); try lia.
    { replace (Z.log2 (Z.pos mz)) with 52 by (symmetry; apply log2_bounds; lia).
      lia. }
    { replace (Z.log2 (Z.pos mz)) with 52 by (symmetry; apply log2_bounds; lia).
      lia. }
    replace (Z.log2 (Z.pos mz)) with 52 in * by (symmetry; apply log2_bounds; lia).
    rewrite Z.sub_diag, Z.add_0_r in *.
    rewrite Z.mod_1_r, Z.div_1_r in Hex. specialize (Hex eq_refl eq_refl).
    subst m2. rewrite Hres, Hmz.
    destruct (Z.ltb_spec (Z.pos q * 2 ^ (52 - l)) (2 ^ 53)); [|lia].
    repeat split; try lia.
    replace (l - 52 + 52) with l by lia. nia.
  - assert (Hl53 : 53 <= l) by (apply Z.log2_le_pow2; lia).
    destruct (l + 1 - 53 - 0) as [|d|d] eqn:Ed; try lia.
    destruct (binary_round_aux_normal (Z.pos q) 0 loc_Exact)
      as (m2 & Hc & _ & Hrn & Hres); fold l; try lia.
    fold l in Hc, Hrn, Hres. rewrite Hres. specialize (Hrn eq_refl).
    pose proof (shifted_mantissa_bounds (Z.pos q) ltac:(lia)) as Hb. fold l in Hb.
    rewrite <- Hrn.
    destruct (Z.ltb_spec m2 (2 ^ 53)) as [Hlt|Hge].
    + exists m2, (l - 52). rewrite Z.add_0_l. repeat split; try lia.
      rewrite Z.pow_add_r by lia. lia.
    + exists (2 ^ 52), (l - 52 + 1). rewrite Z.add_0_l.
      repeat split; try lia. assert (m2 = 2 ^ 53) by lia. subst m2.
      rewrite !Z.pow_add_r by lia. lia.
Qed.

Lemma round_nearest_even_mono (m rem rem' half : Z) :
  0 <= rem <= rem' -> 0 < half ->
  round_nearest_even m (location_of_remainder rem half)
  <= round_nearest_even m (location_of_remainder rem' half).
Proof.
  intros Hr Hh. unfold location_of_remainder.
  destruct (Z.eqb_spec rem 0), (Z.eqb_spec rem' 0); try lia;
    cbn [round_nearest_even].
  - destruct (Z.compare_spec rem' half); try destruct (Z.even m); lia.
  - destruct (Z.compare_spec rem half), (Z.compare_spec rem' half);
      try destruct (Z.even m); lia.
Qed.

Lemma round_u64_big (p : Z) :
  2 ^ 53 <= p ->
  let n := Z.log2 p - 52 in
  1 <= n /\ 2 ^ 52 <= p / 2 ^ n < 2 ^ 53 /\
  p = p / 2 ^ n * 2 ^ n + p mod 2 ^ n /\ 0 <= p mod 2 ^ n < 2 ^ n /\
  round_u64 p
  = round_nearest_even (p / 2 ^ n)
      (location_of_remainder (p mod 2 ^ n) (2 ^ (n - 1))) * 2 ^ n /\
  p / 2 ^ n * 2 ^ n <= round_u64 p <= (p / 2 ^ n + 1) * 2 ^ n.
Proof.
  intros Hp n.
  assert (Hl : 53 <= Z.log2 p) by (apply Z.log2_le_pow2; lia).
  assert (Hn : 0 < 2 ^ n) by (apply Z.pow_pos_nonneg; lia).
  pose proof (shifted_mantissa_bounds p ltac:(lia)) as Hb. fold n in Hb.
  pose proof (Z.div_mod p (2 ^ n) ltac:(lia)) as Hdm.
  pose proof (Z.mod_pos_bound p (2 ^ n) Hn) as Hmod.
  assert (Hru : round_u64 p
                = round_nearest_even (p / 2 ^ n)
                    (location_of_remainder (p mod 2 ^ n) (2 ^ (n - 1))) * 2 ^ n).
  { unfold round_u64. destruct (Z.ltb_spec p (2 ^ 53)); [lia | reflexivity]. }
  repeat split; try lia.
  - rewrite Hru.
    destruct (round_nearest_even_cases (p / 2 ^ n)
                (location_of_remainder (p mod 2 ^ n) (2 ^ (n - 1)))) as [[->| ->] _];
      nia.
  - rewrite Hru.
    destruct (round_nearest_even_cases (p / 2 ^ n)
                (location_of_remainder (p mod 2 ^ n) (2 ^ (n - 1)))) as [[->| ->] _];
      nia.
Qed.

Lemma round_u64_mono (p p' : Z) :
  0 < p <= p' -> round_u64 p <= round_u64 p'.
Proof.
  intros [Hp Hpp].
  destruct (Z.lt_ge_cases p' (2 ^ 53)) as [Hs'|Hb'].
  - unfold round_u64.
    destruct (Z.ltb_spec p (2 ^ 53)), (Z.ltb_spec p' (2 ^ 53)); lia.
  - destruct (round_u64_big p' Hb') as (Hn' & Hm' & Hd' & Hr' & Hru' & Hbd').
    set (n' := Z.log2 p' - 52) in *.
    destruct (Z.lt_ge_cases p (2 ^ 53)) as [Hs|Hb].
    + assert (round_u64 p = p).
      { unfold round_u64. destruct (Z.ltb_spec p (2 ^ 53)); lia. }
      assert (2 ^ 52 * 2 ^ 1 <= 2 ^ 52 * 2 ^ n').
      { apply Z.mul_le_mono_nonneg_l; [lia|]. apply Z.pow_le_mono_r; lia. }
      nia.
    + destruct (round_u64_big p Hb) as (Hn & Hm & Hd & Hr & Hru & Hbd).
      set (n := Z.log2 p - 52) in *.
      assert (Hnn : n <= n') by (unfold n, n'; pose proof (Z.log2_le_mono p p'); lia).
      destruct (Z.eq_dec n n') as [E|NE].
      * rewrite <- E in *.
        assert (Hq : p / 2 ^ n <= p' / 2 ^ n).
        { apply Z.div_le_mono; [apply Z.pow_pos_nonneg|]; lia. }
        destruct (Z.eq_dec (p / 2 ^ n) (p' / 2 ^ n)) as [Eq|Nq].
        -- rewrite Hru, Hru', <- Eq.
           apply Z.mul_le_mono_nonneg_r; [lia|].
           apply round_nearest_even_mono; [lia|].
           apply Z.pow_pos_nonneg; lia.
        -- assert (0 < 2 ^ n) by (apply Z.pow_pos_nonneg; lia). nia.
      * assert (Hle : 2 ^ 53 * 2 ^ n <= 2 ^ 52 * 2 ^ n').
        { replace n' with (n + 1 + (n' - n - 1)) by lia.
          rewrite !Z.pow_add_r by lia.
          assert (0 < 2 ^ n) by (apply Z.pow_pos_nonneg; lia).
          assert (1 <= 2 ^ (n' - n - 1)) by (apply Z.pow_le_mono_r with (b := 0); lia).
          nia. }
        assert (0 < 2 ^ n) by (apply Z.pow_pos_nonneg; lia).
        assert (0 < 2 ^ n') by (apply Z.pow_pos_nonneg; lia).
        nia.
Qed.

Lemma round_u64_error (p : Z) :
  0 < p < 2 ^ 64 ->
  0 < round_u64 p /\ Z.abs (round_u64 p - p) * 2 ^ 52 <= p.
Proof.
  intros [Hp _].
  destruct (Z.lt_ge_cases p (2 ^ 53)) as [Hs|Hb].
  - assert (round_u64 p = p) as ->.
    { unfold round_u64. destruct (Z.ltb_spec p (2 ^ 53)); lia. }
    rewrite Z.sub_diag. cbn. lia.
  - destruct (round_u64_big p Hb) as (Hn & Hm & Hd & Hr & Hru & Hbd).
    set (n := Z.log2 p - 52) in *.
    assert (0 < 2 ^ n) by (apply Z.pow_pos_nonneg; lia).
    split; [nia|].
    assert (Z.abs (round_u64 p - p) <= 2 ^ n) by lia.
    nia.
Qed.

Lemma canonical_order (M1 E1 M2 E2 : Z) :
  2 ^ 52 <= M1 < 2 ^ 53 -> 2 ^ 52 <= M2 < 2 ^ 53 ->
  -52 <= E1 -> -52 <= E2 ->
  M1 * 2 ^ (E1 + 52) <= M2 * 2 ^ (E2 + 52) ->
  E1 < E2 \/ (E1 = E2 /\ M1 <= M2).
Proof.
  intros H1 H2 He1 He2 H.
  destruct (Z.lt_trichotomy E1 E2) as [Hlt|[Heq|Hgt]]; [left; exact Hlt| |].
  - right. split; [exact Heq|]. subst E2.
    assert (0 < 2 ^ (E1 + 52)) by (apply Z.pow_pos_nonneg; lia). nia.
  - exfalso. replace (E1 + 52) with (E2 + 52 + 1 + (E1 - E2 - 1)) in H by lia.
    rewrite !Z.pow_add_r in H by lia.
    assert (0 < 2 ^ (E2 + 52)) by (apply Z.pow_pos_nonneg; lia).
    assert (1 <= 2 ^ (E1 - E2 - 1)) by (apply Z.pow_le_mono_r with (b := 0); lia).
    change (2 ^ 1) with 2 in H.
    set (a := 2 ^ (E2 + 52)) in *. set (c := 2 ^ (E1 - E2 - 1)) in *.
    assert (a <= a * c) by nia.
    assert (2 ^ 53 * a <= M1 * (a * 2 * c)) by nia.
    assert (M2 * a < 2 ^ 53 * a) by nia.
    lia.
Qed.

Lemma new_location_zero (nb : Z) : new_location nb 0 = loc_Exact.
Proof. unfold new_location. destruct (Z.even nb); reflexivity. Qed.

(** The quotient of two canonical positive doubles with small exponents. *)
Lemma ddiv_spec (mx my : positive) (ex ey : Z) :
  2 ^ 52 <= Z.pos mx < 2 ^ 53 -> 2 ^ 52 <= Z.pos my < 2 ^ 53 ->
  -200 <= ex <= 200 -> -200 <= ey <= 200 ->
  let q := (Z.pos mx * 2 ^ 53) / Z.pos my in
  let r := (Z.pos mx * 2 ^ 53) mod Z.pos my in
  let n := Z.log2 q - 52 in
  let e1 := ex - ey - 53 + n in
  0 <= n <= 1 /\
  exists M E m2 : Z,
    ddiv (S754_finite false mx ex) (S754_finite false my ey)
    = S754_finite false (Z.to_pos M) E /\
    2 ^ 52 <= M < 2 ^ 53 /\
    (m2 = q / 2 ^ n \/ m2 = q / 2 ^ n + 1) /\
    (r = 0 -> q mod 2 ^ n = 0 -> m2 = q / 2 ^ n) /\
    ((M = m2 /\ E = e1) \/ (m2 = 2 ^ 53 /\ M = 2 ^ 52 /\ E = e1 + 1)).
Proof.
  intros Hx Hy Hex Hey q r n e1.
  pose proof (Z.div_mod (Z.pos mx * 2 ^ 53) (Z.pos my) ltac:(lia)) as Hdm.
  pose proof (Z.mod_pos_bound (Z.pos mx * 2 ^ 53) (Z.pos my) ltac:(lia)) as Hr.
  fold q r in Hdm, Hr.
  assert (Hq : 2 ^ 52 <= q < 2 ^ 54).
  { split.
    - apply Z.div_le_lower_bound; [lia|]. nia.
    - apply Z.div_lt_upper_bound; [lia|]. nia. }
  assert (Hlog : 52 <= Z.log2 q < 54).
  { split; [apply Z.log2_le_pow2; lia | apply Z.log2_lt_pow2; lia]. }
  split; [unfold n; lia|].
  unfold ddiv, SFdiv, SFdiv_core_binary, dprec, demax.
  rewrite !Zdigits2_log2.
  replace (Z.log2 (Z.pos mx)) with 52 by (symmetry; apply log2_bounds; lia).
  replace (Z.log2 (Z.pos my)) with 52 by (symmetry; apply log2_bounds; lia).
  replace (52 + 1 + ex - (52 + 1 + ey)) with (ex - ey) by lia.
  rewrite fexp_normal by lia.
  rewrite Z.min_l by lia.
  replace (ex - ey - (ex - ey - 53)) with 53 by lia.
  rewrite Z.shiftl_mul_pow2 by lia.
  unfold Z.div, Z.modulo in q, r.
  destruct (Z.div_eucl (Z.pos mx * 2 ^ 53) (Z.pos my)) as [q0 r0] eqn:Ediv.
  cbn [fst snd] in q, r. subst q r. cbn [xorb].
  destruct (binary_round_aux_normal q0 (ex - ey - 53) (new_location (Z.pos my) r0))
    as (m2 & Hc & Hexact & _ & Hres); try (fold n; lia).
  fold n in Hc, Hexact, Hres. rewrite Hres.
  pose proof (shifted_mantissa_bounds q0 ltac:(lia)) as Hb. fold n in Hb.
  destruct (Z.ltb_spec m2 (2 ^ 53)) as [Hlt|Hge].
  - exists m2, (ex - ey - 53 + n), m2.
    split; [reflexivity|]. split; [lia|]. split; [exact Hc|]. split.
    + intros -> Hz. apply Hexact; [apply new_location_zero | exact Hz].
    + left. split; [reflexivity | unfold e1; reflexivity].
  - exists (2 ^ 52), (ex - ey - 53 + n + 1), m2.
    split; [reflexivity|]. split; [lia|]. split; [exact Hc|]. split.
    + intros -> Hz. apply Hexact; [apply new_location_zero | exact Hz].
    + right. unfold e1. lia.
Qed.

Lemma ddiv_at_most_one (mx my : positive) (ex ey : Z) :
  2 ^ 52 <= Z.pos mx < 2 ^ 53 -> 2 ^ 52 <= Z.pos my < 2 ^ 53 ->
  -60 <= ex <= 60 -> -60 <= ey <= 60 ->
  ex < ey \/ (ex = ey /\ Z.pos mx <= Z.pos my) ->
  exists M E : Z,
    ddiv (S754_finite false mx ex) (S754_finite false my ey)
    = S754_finite false (Z.to_pos M) E /\
    2 ^ 52 <= M < 2 ^ 53 /\ -200 <= E /\ at_most_one M E.
Proof.
  intros Hx Hy Hex Hey Hle.
  destruct (ddiv_spec mx my ex ey Hx Hy ltac:(lia) ltac:(lia))
    as (Hn & M & E & m2 & Hres & HM & Hc & Hexact & Hform).
  set (q := Z.pos mx * 2 ^ 53 / Z.pos my) in *.
  set (r := (Z.pos mx * 2 ^ 53) mod Z.pos my) in *.
  set (n := Z.log2 q - 52) in *.
  exists M, E. split; [exact Hres|]. split; [exact HM|]. split; [lia|].
  unfold at_most_one.
  destruct Hle as [Hlt|[Heq Hm]]; [lia|].
  destruct (Z.eq_dec (Z.pos mx) (Z.pos my)) as [Em|Nm].
  - assert (Hq : q = 2 ^ 53).
    { unfold q. rewrite Em, Z.mul_comm. apply Z.div_mul. lia. }
    assert (Hr : r = 0).
    { unfold r. rewrite Em, Z.mul_comm. apply Z.mod_mul. lia. }
    assert (Hn1 : n = 1) by (unfold n; rewrite Hq; reflexivity).
    rewrite Hn1, Hq in *. specialize (Hexact Hr eq_refl).
    change (2 ^ 53 / 2 ^ 1) with (2 ^ 52) in Hexact. lia.
  - assert (Hq : q < 2 ^ 53).
    { unfold q. apply Z.div_lt_upper_bound; [lia|]. nia. }
    assert (Hq2 : 2 ^ 52 <= q).
    { unfold q. apply Z.div_le_lower_bound; [lia|]. nia. }
    assert (Hn0 : n = 0).
    { unfold n. replace (Z.log2 q) with 52; [reflexivity|].
      symmetry. apply log2_bounds; lia. }
    rewrite Hn0 in *. lia.
Qed.

Lemma dmul_100_spec (M E : Z) :
  2 ^ 52 <= M < 2 ^ 53 -> -300 <= E <= 300 ->
  let P := M * 7036874417766400 in
  let n := Z.log2 P - 52 in
  let e1 := E - 46 + n in
  52 <= n <= 53 /\
  exists M' E' m2 : Z,
    dmul (S754_finite false (Z.to_pos M) E) d_100
    = S754_finite false (Z.to_pos M') E' /\
    2 ^ 52 <= M' < 2 ^ 53 /\
    (m2 = P / 2 ^ n \/ m2 = P / 2 ^ n + 1) /\
    (P mod 2 ^ n = 0 -> m2 = P / 2 ^ n) /\
    ((M' = m2 /\ E' = e1) \/ (m2 = 2 ^ 53 /\ M' = 2 ^ 52 /\ E' = e1 + 1)).
Proof.
  intros HM HE P n e1.
  assert (HP : 2 ^ 104 <= P < 2 ^ 106) by (unfold P; lia).
  assert (Hlog : 104 <= Z.log2 P < 106).
  { split; [apply Z.log2_le_pow2; lia | apply Z.log2_lt_pow2; lia]. }
  split; [unfold n; lia|].
  unfold dmul, SFmul, d_100, dprec, demax. cbn [xorb].
  rewrite Pos2Z.inj_mul, Z2Pos.id by lia. fold P.
  destruct (binary_round_aux_normal P (E + -46) loc_Exact)
    as (m2 & Hc & Hexact & _ & Hres); try (fold n; lia).
  fold n in Hc, Hexact, Hres. rewrite Hres.
  pose proof (shifted_mantissa_bounds P ltac:(lia)) as Hb. fold n in Hb.
  destruct (Z.ltb_spec m2 (2 ^ 53)) as [Hlt|Hge].
  - exists m2, (E + -46 + n), m2.
    split; [reflexivity|]. split; [lia|]. split; [exact Hc|]. split.
    + intros Hz. apply Hexact; [reflexivity | exact Hz].
    + left. unfold e1. lia.
  - exists (2 ^ 52), (E + -46 + n + 1), m2.
    split; [reflexivity|]. split; [lia|]. split; [exact Hc|]. split.
    + intros Hz. apply Hexact; [reflexivity | exact Hz].
    + right. unfold e1. lia.
Qed.

Lemma dmul_100_at_most_100 (M E : Z) :
  2 ^ 52 <= M < 2 ^ 53 -> -200 <= E -> at_most_one M E ->
  exists M' E' : Z,
    dmul (S754_finite false (Z.to_pos M) E) d_100
    = S754_finite false (Z.to_pos M') E' /\
    2 ^ 52 <= M' < 2 ^ 53 /\ at_most_100 M' E'.
Proof.
  intros HM HE Hone.
  assert (HE2 : E <= -52) by (unfold at_most_one in Hone; lia).
  destruct (dmul_100_spec M E HM ltac:(lia))
    as (Hn & M' & E' & m2 & Hres & HM' & Hc & Hexact & Hform).
  set (P := M * 7036874417766400) in *.
  set (n := Z.log2 P - 52) in *.
  exists M', E'. split; [exact Hres|]. split; [exact HM'|].
  unfold at_most_100.
  destruct Hone as [Hlt|[-> ->]].
  - (* E <= -53 *)
    destruct (Z.eq_dec n 53) as [En|Nn]; [|lia].
    destruct (Z.eq_dec E (-53)) as [EE|NE]; [|lia].
    rewrite En in *. subst E.
    assert (Hdiv : P / 2 ^ 53 < 7036874417766400).
    { apply Z.div_lt_upper_bound; [lia|]. unfold P. lia. }
    lia.
  - assert (HP : P = 7036874417766400 * 2 ^ 52) by (unfold P; lia).
    assert (Hn52 : n = 52).
    { unfold n. rewrite HP. reflexivity. }
    rewrite Hn52 in *.
    assert (Hz : P mod 2 ^ 52 = 0) by (rewrite HP; apply Z.mod_mul; lia).
    specialize (Hexact Hz).
    assert (P / 2 ^ 52 = 7036874417766400) by (rewrite HP; apply Z.div_mul; lia).
    lia.
Qed.

(** ** Doubles: the real numbers they stand for *)

Lemma bpow_pos (e : Z) : (0 < bpow e)%R.
Proof. apply powerRZ_lt. lra. Qed.

Lemma bpow_add (a b : Z) : bpow (a + b) = (bpow a * bpow b)%R.
Proof. apply powerRZ_add. lra. Qed.

Lemma bpow_IZR (k : Z) : 0 <= k -> bpow k = IZR (2 ^ k).
Proof.
  intros Hk. unfold bpow. rewrite <- (Z2Nat.id k Hk).
  rewrite <- pow_powerRZ, <- pow_IZR. reflexivity.
Qed.

Lemma bpow_cancel (a : Z) : (bpow a * bpow (- a) = 1)%R.
Proof. rewrite <- bpow_add, Z.add_opp_diag_r. reflexivity. Qed.

Lemma bpow_opp (a : Z) : bpow (- a) = (/ bpow a)%R.
Proof. apply powerRZ_neg'. Qed.

Lemma double_to_R_canonical (M E : Z) :
  0 < M ->
  double_to_R (S754_finite false (Z.to_pos M) E) = (IZR M * bpow E)%R.
Proof.
  intros HM. unfold double_to_R, bpow. rewrite Z2Pos.id by exact HM. lra.
Qed.

(** A rounding to one of the two neighbours of [T] at 53 bits is within
    [T * 2^-52] of it. *)
Lemma faithful_rel_error (T : R) (m1 m2 e1 : Z) :
  (IZR m1 <= T < IZR m1 + 1)%R -> 2 ^ 52 <= m1 ->
  m2 = m1 \/ m2 = m1 + 1 ->
  (Rabs (IZR m2 * bpow e1 - T * bpow e1) <= T * bpow e1 * bpow (-52))%R.
Proof.
  intros HT Hm Hc.
  pose proof (bpow_pos e1) as He.
  assert (H52 : (IZR m1 * bpow (-52) >= 1)%R).
  { apply IZR_le in Hm. rewrite <- bpow_IZR in Hm by lia.
    pose proof (bpow_cancel 52) as Hc52. change (- (52)) with (-52) in Hc52.
    pose proof (bpow_pos (-52)) as Hp.
    assert (0 <= (IZR m1 - bpow 52) * bpow (-52))%R
      by (apply Rmult_le_pos; lra).
    lra. }
  assert (Hd : (Rabs (IZR m2 - T) <= 1)%R).
  { apply Rabs_le. destruct Hc as [-> | ->]; [|rewrite plus_IZR]; lra. }
  replace (IZR m2 * bpow e1 - T * bpow e1)%R with ((IZR m2 - T) * bpow e1)%R by ring.
  rewrite Rabs_mult, (Rabs_pos_eq (bpow e1)) by lra.
  pose proof (bpow_pos (-52)) as Hp.
  assert (Hm1 : (0 <= (T - IZR m1) * bpow (-52))%R)
    by (apply Rmult_le_pos; lra).
  assert (HT1 : (1 <= T * bpow (-52))%R) by lra.
  assert (Hab : (Rabs (IZR m2 - T) * bpow e1 <= 1 * bpow e1)%R)
    by (apply Rmult_le_compat_r; lra).
  assert (Hfin : (0 <= (T * bpow (-52) - 1) * bpow e1)%R)
    by (apply Rmult_le_pos; lra).
  lra.
Qed.

Lemma double_of_Z_value (p : Z) :
  0 < p < 2 ^ 64 ->
  double_to_R (double_of_Z p) = IZR (round_u64 p) /\
  (Rabs (IZR (round_u64 p) - IZR p) <= IZR p * bpow (-52))%R.
Proof.
  intros Hp.
  destruct (double_of_Z_spec p Hp) as (M & E & -> & HM & HE & HW).
  destruct (round_u64_error p Hp) as [Hpos Herr].
  pose proof (bpow_cancel 52) as Hc52. change (- (52)) with (-52) in Hc52.
  pose proof (bpow_pos (-52)) as Hp52.
  split.
  - rewrite double_to_R_canonical by lia.
    replace E with ((E + 52) + -52) at 1 by lia.
    rewrite bpow_add, (bpow_IZR (E + 52)) by lia.
    rewrite <- Rmult_assoc, <- mult_IZR, HW, mult_IZR, <- bpow_IZR by lia.
    rewrite Rmult_assoc, Hc52. ring.
  - rewrite <- minus_IZR, <- abs_IZR.
    apply IZR_le in Herr. rewrite mult_IZR, <- bpow_IZR in Herr by lia.
    assert (Hab : (0 <= IZR (Z.abs (round_u64 p - p)))%R)
      by (apply IZR_le; lia).
    assert (Hmul : (IZR (Z.abs (round_u64 p - p)) * bpow 52 * bpow (-52)
                    <= IZR p * bpow (-52))%R)
      by (apply Rmult_le_compat_r; lra).
    rewrite Rmult_assoc, Hc52 in Hmul. lra.
Qed.

(** The value of a rounded result in its two forms: the mantissa as
    rounded, or 2^52 one binade up when the rounding carried to 2^53. *)
Lemma carried_value (M E m2 e1 : Z) :
  0 < M ->
  (M = m2 /\ E = e1) \/ (m2 = 2 ^ 53 /\ M = 2 ^ 52 /\ E = e1 + 1) ->
  double_to_R (S754_finite false (Z.to_pos M) E) = (IZR m2 * bpow e1)%R.
Proof.
  intros HM Hform. rewrite double_to_R_canonical by exact HM.
  destruct Hform as [[-> ->] | (-> & -> & ->)]; [reflexivity|].
  rewrite bpow_add, <- (bpow_IZR 52), <- (bpow_IZR 53) by lia.
  change 53 with (52 + 1). rewrite (bpow_add 52 1). ring.
Qed.

(** A value [P + x], [0 <= x < 1], in units of [2^n] lies between the
    shifted mantissa and its successor. *)
Lemma floor_shift_bounds (P n : Z) (x : R) :
  0 <= n -> (0 <= x < 1)%R ->
  (IZR (P / 2 ^ n) <= (IZR P + x) / bpow n < IZR (P / 2 ^ n) + 1)%R.
Proof.
  intros Hn Hx.
  assert (Hn2 : 0 < 2 ^ n) by (apply Z.pow_pos_nonneg; lia).
  pose proof (Z.div_mod P (2 ^ n) ltac:(lia)) as Hqd.
  pose proof (Z.mod_pos_bound P (2 ^ n) Hn2) as Hqr.
  pose proof (bpow_pos n) as Hbn.
  apply IZR_eq in Hqd. rewrite plus_IZR, mult_IZR, <- bpow_IZR in Hqd by lia.
  assert (Hrho : (0 <= IZR (P mod 2 ^ n) <= bpow n - 1)%R).
  { split; [apply IZR_le; lia|]. rewrite bpow_IZR by lia.
    rewrite <- minus_IZR. apply IZR_le. lia. }
  rewrite Hqd. split.
  - apply Rmult_le_reg_r with (bpow n); [exact Hbn|].
    unfold Rdiv. rewrite Rmult_assoc, Rinv_l by lra. lra.
  - apply Rmult_lt_reg_r with (bpow n); [exact Hbn|].
    unfold Rdiv. rewrite Rmult_assoc, Rinv_l by lra. lra.
Qed.

Lemma ddiv_error (mx my : positive) (ex ey : Z) :
  2 ^ 52 <= Z.pos mx < 2 ^ 53 -> 2 ^ 52 <= Z.pos my < 2 ^ 53 ->
  -60 <= ex <= 60 -> -60 <= ey <= 60 ->
  let X := (IZR (Z.pos mx) * bpow ex)%R in
  let Y := (IZR (Z.pos my) * bpow ey)%R in
  (Rabs (double_to_R (ddiv (S754_finite false mx ex) (S754_finite false my ey))
         - X / Y) <= X / Y * bpow (-52))%R.
Proof.
  intros Hx Hy Hex Hey X Y.
  destruct (ddiv_spec mx my ex ey Hx Hy ltac:(lia) ltac:(lia))
    as (Hn & M & E & m2 & -> & HM & Hc & _ & Hform).
  set (q := Z.pos mx * 2 ^ 53 / Z.pos my) in *.
  set (n := Z.log2 q - 52) in *.
  set (e1 := ex - ey - 53 + n) in *.
  pose proof (Z.div_mod (Z.pos mx * 2 ^ 53) (Z.pos my) ltac:(lia)) as Hdm.
  pose proof (Z.mod_pos_bound (Z.pos mx * 2 ^ 53) (Z.pos my) ltac:(lia)) as Hr.
  fold q in Hdm. set (r := (Z.pos mx * 2 ^ 53) mod Z.pos my) in *.
  set (m1 := q / 2 ^ n) in *.
  assert (Hq : 2 ^ 52 <= q).
  { unfold q. apply Z.div_le_lower_bound; [lia|]. nia. }
  pose proof (shifted_mantissa_bounds q Hq) as Hb. fold n m1 in Hb.
  set (T := ((IZR q + IZR r / IZR (Z.pos my)) / bpow n)%R).
  assert (Hmy : (0 < IZR (Z.pos my))%R) by (apply IZR_lt; lia).
  assert (Hbn : (0 < bpow n)%R) by apply bpow_pos.
  assert (HXY : (X / Y = T * bpow e1)%R).
  { unfold X, Y, T, e1.
    replace (ex - ey - 53 + n) with (ex + (- ey + (- (53) + n))) by lia.
    rewrite !bpow_add, (bpow_opp ey), (bpow_opp 53).
    pose proof (bpow_pos ey). pose proof (bpow_pos 53). pose proof (bpow_pos ex).
    apply IZR_eq in Hdm. rewrite plus_IZR, !mult_IZR, <- bpow_IZR in Hdm by lia.
    assert (Hmx : IZR (Z.pos mx)
                  = ((IZR (Z.pos my) * IZR q + IZR r) / bpow 53)%R).
    { rewrite <- Hdm. field. lra. }
    rewrite Hmx. field. repeat split; lra. }
  assert (Hrr : (0 <= IZR r / IZR (Z.pos my) < 1)%R).
  { split.
    - apply Rmult_le_pos; [apply IZR_le; lia|].
      left. apply Rinv_0_lt_compat. exact Hmy.
    - apply Rmult_lt_reg_r with (IZR (Z.pos my)); [exact Hmy|].
      unfold Rdiv. rewrite Rmult_assoc, Rinv_l, Rmult_1_r, Rmult_1_l by lra.
      apply IZR_lt. lia. }
  pose proof (floor_shift_bounds q n _ ltac:(lia) Hrr) as HT. fold m1 T in HT.
  pose proof (carried_value M E m2 e1 ltac:(lia) Hform) as HV.
  rewrite HV, HXY.
  apply (faithful_rel_error T m1 m2 e1); [exact HT | lia | exact Hc].
Qed.

Lemma dmul_100_error (M E : Z) :
  2 ^ 52 <= M < 2 ^ 53 -> -300 <= E <= 300 ->
  let V := (IZR M * bpow E)%R in
  (Rabs (double_to_R (dmul (S754_finite false (Z.to_pos M) E) d_100) - 100 * V)
   <= 100 * V * bpow (-52))%R.
Proof.
  intros HM HE V.
  destruct (dmul_100_spec M E HM HE)
    as (Hn & M' & E' & m2 & -> & HM' & Hc & _ & Hform).
  set (P := M * 7036874417766400) in *.
  set (n := Z.log2 P - 52) in *.
  set (e1 := E - 46 + n) in *.
  set (m1 := P / 2 ^ n) in *.
  assert (HP : 2 ^ 52 <= P) by (unfold P; lia).
  pose proof (shifted_mantissa_bounds P HP) as Hb. fold n m1 in Hb.
  set (T := ((IZR P + 0) / bpow n)%R).
  assert (Hbn : (0 < bpow n)%R) by apply bpow_pos.
  assert (H100 : (100 * V = T * bpow e1)%R).
  { unfold V, T, e1, P.
    replace (E - 46 + n) with (E + (- (46) + n)) by lia.
    rewrite !bpow_add, (bpow_opp 46), (bpow_IZR 46), mult_IZR by lia.
    change (2 ^ 46)%Z with 70368744177664%Z.
    pose proof (bpow_pos E). field. lra. }
  pose proof (floor_shift_bounds P n 0 ltac:(lia) ltac:(lra)) as HT.
  fold m1 T in HT.
  pose proof (carried_value M' E' m2 e1 ltac:(lia) Hform) as HV.
  rewrite HV, H100.
  apply (faithful_rel_error T m1 m2 e1); [exact HT | lia | exact Hc].
Qed.

(** ** Propagation of relative errors *)

Section RealBounds.

Local Open Scope R_scope.

Lemma Rabs_le_bounds (x y : R) : Rabs x <= y -> - y <= x <= y.
Proof.
  intros H. pose proof (Rle_abs x). pose proof (Rle_abs (- x)) as H2.
  rewrite Rabs_Ropp in H2. lra.
Qed.

Lemma quotient_bounds (n d A D eps : R) :
  0 <= n -> 0 < d -> 0 <= eps <= 1 / 100 ->
  Rabs (A - n) <= n * eps -> Rabs (D - d) <= d * eps ->
  (n / d) * (1 - 2 * eps) <= A / D <= (n / d) * (1 + 21 / 10 * eps) /\ 0 < D.
Proof.
  intros Hn Hd He HA HD.
  apply Rabs_le_bounds in HA, HD.
  assert (HDpos : 0 < D) by nra.
  split; [|exact HDpos].
  set (t := n / d). assert (Ht : t * d = n) by (unfold t; field; lra).
  assert (Ht0 : 0 <= t) by (unfold t; apply Rmult_le_pos; [lra|left; apply Rinv_0_lt_compat; lra]).
  set (q := A / D). assert (Hq : q * D = A) by (unfold q; field; lra).
  assert (Hq0 : 0 <= q).
  { unfold q. apply Rmult_le_pos; [nra|left; apply Rinv_0_lt_compat; lra]. }
  split.
  - (* t (1-2e) <= q : from q D = A >= n (1-e), D <= d (1+e) *)
    assert (H1 : t * d * (1 - eps) <= q * (d * (1 + eps))) by nra.
    assert (H2 : t * (1 - eps) <= q * (1 + eps)) by nra.
    assert (H3 : 0 <= t * eps * eps) by nra.
    apply Rmult_le_reg_r with (1 + eps); [lra|]. nra.
  - assert (H1 : q * (d * (1 - eps)) <= t * d * (1 + eps)) by nra.
    assert (H2 : q * (1 - eps) <= t * (1 + eps)) by nra.
    assert (H3 : 0 <= t * eps) by nra.
    assert (H4 : t * eps * eps <= t * eps / 100) by nra.
    apply Rmult_le_reg_r with (1 - eps); [lra|]. nra.
Qed.

Lemma percent_error (t q Q P eps : R) :
  0 <= t -> 0 <= eps <= 1 / 100 ->
  t * (1 - 2 * eps) <= q <= t * (1 + 21 / 10 * eps) ->
  Rabs (Q - q) <= q * eps ->
  Rabs (P - 100 * Q) <= 100 * Q * eps ->
  Rabs (P - 100 * t) <= 100 * t * (5 * eps).
Proof.
  intros Ht He Hq HQ HP.
  apply Rabs_le_bounds in HQ, HP. apply Rabs_le.
  assert (Hq0 : 0 <= q) by nra.
  assert (HQ0 : 0 <= Q) by nra.
  assert (HQu : Q <= t * (1 + 21 / 10 * eps) * (1 + eps)) by nra.
  assert (HQl : t * (1 - 2 * eps) * (1 - eps) <= Q) by nra.
  assert (HPu : P <= 100 * (t * (1 + 21 / 10 * eps) * (1 + eps)) * (1 + eps)) by nra.
  assert (HPl : 100 * (t * (1 - 2 * eps) * (1 - eps)) * (1 - eps) <= P) by nra.
  assert (Hte : 0 <= t * eps) by nra.
  assert (Hte2 : 0 <= t * eps * eps) by nra.
  assert (Hte3 : 0 <= t * eps * eps * eps) by nra.
  assert (Hsm : t * eps * eps <= t * eps / 100) by nra.
  assert (Hsm3 : t * eps * eps * eps <= t * eps / 10000) by nra.
  split; nra.
Qed.

End RealBounds.

(** ** The percentages of the CPU sampler *)

Lemma bpow_m52_small : (0 < bpow (-52) <= 1 / 100)%R /\ (500 * bpow (-52) <= 1 / 10 ^ 12)%R.
Proof.
  change (-52) with (- (52)). rewrite bpow_opp, bpow_IZR by lia.
  change (2 ^ 52)%Z with 4503599627370496%Z. split; [split|]; lra.
Qed.

Lemma dleb_zero_canonical (M E : Z) :
  dleb d_zero (S754_finite false (Z.to_pos M) E) = true.
Proof. reflexivity. Qed.

Lemma dleb_at_most_100 (M E : Z) :
  0 < M -> at_most_100 M E ->
  dleb (S754_finite false (Z.to_pos M) E) d_100 = true.
Proof.
  intros HM H. unfold dleb, SFleb, SFcompare, d_100.
  destruct H as [Hlt|[-> Hle]].
  - apply Z.compare_lt_iff in Hlt. rewrite Hlt. reflexivity.
  - cbn [Z.compare Pos.compare]. rewrite Pos.compare_cont_spec. cbn [Pos.switch_Eq].
    destruct (Pos.compare_spec (Z.to_pos M) 7036874417766400) as [| |Hgt];
      try reflexivity.
    apply Pos2Z.pos_lt_pos in Hgt. rewrite Z2Pos.id in Hgt by lia. lia.
Qed.

(** [(double)num / den * 100.0] for [0 <= num <= den < 2^64], [den > 0]:
    one division, by a divisor that is not zero; a result between 0.0 and
    100.0; and within 5 * 2^-52 of the exact percentage, relatively. *)
Lemma percent_of_spec (num den : Z) :
  0 <= num <= den -> 0 < den < 2 ^ 64 ->
  exists r : double,
    percent_of num den = Ok r [double_of_Z den] /\
    dleb d_zero r = true /\ dleb r d_100 = true /\
    (Rabs (double_to_R r - 100 * (IZR num / IZR den))
     <= 100 * (IZR num / IZR den) * (5 * bpow (-52)))%R.
Proof.
  intros Hn Hd.
  unfold percent_of, div_logged, bind, ret. cbn [app].
  eexists. split; [reflexivity|].
  destruct (Z.eq_dec num 0) as [->|Hnz].
  - destruct (double_of_Z_spec den Hd) as (Md & Ed & -> & _).
    cbn [double_to_R dleb SFleb SFcompare dmul ddiv SFdiv SFmul double_of_Z
           binary_normalize xorb d_zero].
    split; [reflexivity|]. split; [reflexivity|].
    unfold Rdiv. rewrite !Rmult_0_l, Rmult_0_r, Rminus_diag, Rabs_R0.
    rewrite Rmult_0_l. lra.
  - assert (Hnum : 0 < num < 2 ^ 64) by lia.
    destruct (double_of_Z_value num Hnum) as [HAv HAe].
    destruct (double_of_Z_value den Hd) as [HDv HDe].
    destruct (double_of_Z_spec num Hnum) as (Mn & En & EqN & HMn & HEn & HWn).
    destruct (double_of_Z_spec den Hd) as (Md & Ed & EqD & HMd & HEd & HWd).
    rewrite EqN, EqD in *.
    pose proof (round_u64_mono num den ltac:(lia)) as Hmono.
    assert (Hord : En < Ed \/ (En = Ed /\ Mn <= Md)).
    { apply canonical_order; lia. }
    destruct (ddiv_at_most_one (Z.to_pos Mn) (Z.to_pos Md) En Ed)
      as (Mq & Eq & EqQ & HMq & HEq & Hone); rewrite ?Z2Pos.id by lia; try lia.
    pose proof (ddiv_error (Z.to_pos Mn) (Z.to_pos Md) En Ed) as Hqe.
    rewrite !Z2Pos.id in Hqe by lia.
    specialize (Hqe ltac:(lia) ltac:(lia) ltac:(lia) ltac:(lia)). cbv zeta in Hqe.
    rewrite EqQ in *.
    assert (HEq2 : Eq <= -52) by (unfold at_most_one in Hone; lia).
    destruct (dmul_100_at_most_100 Mq Eq HMq HEq Hone)
      as (Mp & Ep & EqP & HMp & H100).
    pose proof (dmul_100_error Mq Eq HMq ltac:(lia)) as Hpe. cbv zeta in Hpe.
    rewrite EqP in *.
    split; [apply dleb_zero_canonical|]. split; [apply dleb_at_most_100; [lia|exact H100]|].
    rewrite double_to_R_canonical in HAv, HDv, Hqe by lia.
    rewrite HAv, HDv in Hqe.
    destruct bpow_m52_small as [Heps _].
    assert (Hnr : (0 <= IZR num)%R) by (apply IZR_le; lia).
    assert (Hdr : (0 < IZR den)%R) by (apply IZR_lt; lia).
    destruct (quotient_bounds (IZR num) (IZR den) (IZR (round_u64 num))
                (IZR (round_u64 den)) (bpow (-52)) Hnr Hdr ltac:(lra) HAe HDe)
      as [Hqb _].
    apply (percent_error (IZR num / IZR den)
             (IZR (round_u64 num) / IZR (round_u64 den))
             (IZR Mq * bpow Eq) _ (bpow (-52))); try assumption; try lra.
    apply Rmult_le_pos; [lra|]. left. apply Rinv_0_lt_compat. exact Hdr.
Qed.

Lemma u64_small (x : Z) : 0 <= x < 2 ^ 64 -> u64 x = x.
Proof. intros H. unfold u64, u64_modulus. apply Z.mod_small. exact H. Qed.

Lemma cpu_deltas_exact (prev cur : cpu_stats) :
  cpu_nonneg prev -> cpu_nondecreasing prev cur -> cpu_sum cur < 2 ^ 64 ->
  cpu_diff_total prev cur = cpu_sum cur - cpu_sum prev /\
  cpu_diff_idle prev cur = (idle cur + iowait cur) - (idle prev + iowait prev) /\
  cpu_diff_iowait prev cur = iowait cur - iowait prev.
Proof.
  unfold cpu_nonneg, cpu_nondecreasing, cpu_sum.
  intros Hp Hm Hs.
  unfold cpu_diff_total, cpu_diff_idle, cpu_diff_iowait, cpu_total,
    cpu_idle_sum, cpu_non_idle_sum.
  rewrite !(u64_small (idle _ + iowait _)) by lia.
  rewrite !(u64_small (user _ + nice _ + system _ + irq _ + softirq _ + steal _))
    by lia.
  rewrite !(u64_small (idle _ + iowait _ + _)) by lia.
  rewrite !u64_small by lia. lia.
Qed.

(** C5, as the code has it.  For consecutive snapshots with non-negative,
    non-decreasing counters, a positive total delta, and the eight counters
    of the newer snapshot summing to less than 2^64 (so that none of the
    unsigned 64-bit sums and differences wraps), the busy percentage
    returned and the iowait percentage stored both lie between 0.0 and
    100.0 as doubles, every division is by the non-zero total delta, and
    the busy percentage plus its idle complement is within 10^-12 of 100. *)
Theorem cpu_percentages_within_bounds (vals : list Z) (uninit prev : cpu_stats) :
  let cur := store_cpu vals uninit in
  cpu_nonneg prev -> cpu_nondecreasing prev cur -> cpu_sum cur < 2 ^ 64 ->
  0 < cpu_diff_total prev cur ->
  exists busy io idle_pct : double,
    get_cpu_usage (CpuScanned vals) uninit prev
    = Ok (busy, cur, io) [double_of_Z (cpu_diff_total prev cur);
                          double_of_Z (cpu_diff_total prev cur)] /\
    idle_complement prev cur = Ok idle_pct [double_of_Z (cpu_diff_total prev cur)] /\
    dleb d_zero busy = true /\ dleb busy d_100 = true /\
    dleb d_zero io = true /\ dleb io d_100 = true /\
    dleb d_zero idle_pct = true /\ dleb idle_pct d_100 = true /\
    (Rabs (double_to_R busy + double_to_R idle_pct - 100) <= 1 / 10 ^ 12)%R.
Proof.
  intros cur Hp Hm Hs Hpos.
  destruct (cpu_deltas_exact prev cur Hp Hm Hs) as (Et & Ei & Ew).
  assert (Hrange : 0 <= cpu_diff_iowait prev cur <= cpu_diff_idle prev cur /\
                   cpu_diff_idle prev cur <= cpu_diff_total prev cur /\
                   cpu_diff_total prev cur < 2 ^ 64).
  { rewrite Et, Ei, Ew. unfold cpu_nonneg, cpu_nondecreasing, cpu_sum in *. lia. }
  set (dt := cpu_diff_total prev cur) in *.
  set (di := cpu_diff_idle prev cur) in *.
  set (dw := cpu_diff_iowait prev cur) in *.
  destruct (percent_of_spec dw dt ltac:(lia) ltac:(lia))
    as (io & Eio & Hio0 & Hio100 & _).
  destruct (percent_of_spec (dt - di) dt ltac:(lia) ltac:(lia))
    as (busy & Ebusy & Hb0 & Hb100 & Hberr).
  destruct (percent_of_spec di dt ltac:(lia) ltac:(lia))
    as (idle_pct & Eidle & Hi0 & Hi100 & Hierr).
  exists busy, io, idle_pct.
  split.
  { unfold get_cpu_usage. cbn [get_cpu_stats ret bind]. fold cur. fold dt di dw.
    destruct (Z.gtb_spec dt 0) as [_|]; [|lia].
    rewrite Eio. cbn [bind]. rewrite (u64_small (dt - di)) by lia.
    rewrite Ebusy. reflexivity. }
  split; [exact Eidle|].
  repeat (split; [assumption|]).
  apply Rabs_le_bounds in Hberr, Hierr.
  destruct bpow_m52_small as [Heps Htol].
  assert (Hdt : (0 < IZR dt)%R) by (apply IZR_lt; lia).
  assert (Hsum : (IZR (dt - di) / IZR dt + IZR di / IZR dt = 1)%R).
  { rewrite minus_IZR. field. lra. }
  set (b := (IZR (dt - di) / IZR dt)%R) in *.
  set (i := (IZR di / IZR dt)%R) in *.
  assert (Hmix : (b * bpow (-52) + i * bpow (-52) = bpow (-52))%R).
  { rewrite <- Rmult_plus_distr_r, Hsum. ring. }
  apply Rabs_le. lra.
Qed.

Lemma cpu_percentages_within_bounds_witness :
  exists busy io idle_pct : double,
    get_cpu_usage (CpuScanned [130; 2; 30; 4060; 60; 6; 7; 8]) zero_cpu_stats
                  (mk_cpu_stats 100 2 30 4000 50 6 7 8)
    = Ok (busy, mk_cpu_stats 130 2 30 4060 60 6 7 8, io)
         [double_of_Z 100; double_of_Z 100] /\
    idle_complement (mk_cpu_stats 100 2 30 4000 50 6 7 8)
                    (mk_cpu_stats 130 2 30 4060 60 6 7 8)
    = Ok idle_pct [double_of_Z 100] /\
    dleb d_zero busy = true /\ dleb busy d_100 = true /\
    dleb d_zero io = true /\ dleb io d_100 = true /\
    dleb d_zero idle_pct = true /\ dleb idle_pct d_100 = true /\
    (Rabs (double_to_R busy + double_to_R idle_pct - 100) <= 1 / 10 ^ 12)%R.
Proof.
  refine (cpu_percentages_within_bounds [130; 2; 30; 4060; 60; 6; 7; 8]
            zero_cpu_stats (mk_cpu_stats 100 2 30 4000 50 6 7 8) _ _ _ _).
  - unfold cpu_nonneg. cbn. lia.
  - unfold cpu_nondecreasing. cbn. lia.
  - unfold cpu_sum. cbn. lia.
  - reflexivity.
Defined.

(** C5, as stated, fails where the 64-bit sums wrap: every counter is
    non-decreasing and the total delta the code computes is 1, yet the busy
    percentage returned is 100 * 2^64, far above 100.0. *)
Lemma cpu_percentage_overshoots_on_wrap :
  let prev := zero_cpu_stats in
  let vals := [2 ^ 64 - 1; 0; 0; 2; 0; 0; 0; 0] in
  let cur := store_cpu vals zero_cpu_stats in
  cpu_nonneg prev /\ cpu_nondecreasing prev cur /\
  cpu_diff_total prev cur = 1 /\
  exists busy io divs,
    get_cpu_usage (CpuScanned vals) zero_cpu_stats prev = Ok (busy, cur, io) divs /\
    dleb busy d_100 = false /\
    busy = S754_finite false 7036874417766400 18.
Proof.
  cbv zeta. split; [|split; [|split]].
  - unfold cpu_nonneg. cbn. lia.
  - unfold cpu_nondecreasing. cbn. lia.
  - reflexivity.
  - do 3 eexists. split; [vm_compute; reflexivity|]. split; reflexivity.
Qed.

(** ** The memory sampler at a zero total, whatever the other counters *)

Lemma u64_range (x : Z) : 0 <= u64 x < 2 ^ 64.
Proof. unfold u64, u64_modulus. apply Z.mod_pos_bound. lia. Qed.

Lemma percent_of_zero_divisor (num : Z) :
  0 <= num < 2 ^ 64 ->
  exists r : double,
    percent_of num 0 = Ok r [d_zero] /\
    (r = S754_nan \/ r = S754_infinity false).
Proof.
  intros Hn. unfold percent_of, div_logged, bind, ret. cbn [app].
  eexists. split; [reflexivity|].
  destruct (Z.eq_dec num 0) as [->|Hnz].
  - left. reflexivity.
  - right. destruct (double_of_Z_spec num ltac:(lia)) as (M & E & -> & _).
    reflexivity.
Qed.

(** Whenever the table read reports a zero [MemTotal], the used-memory
    percentage returned is NaN or +infinity and the last division was by
    0.0. *)
Lemma get_mem_usage_zero_total (entries : list mem_entry) :
  mem_total (fold_left mem_scan_step entries mem_vars_init) = 0 ->
  exists (mem swap_pct : double) (divs : list double),
    get_mem_usage (MemScanned entries) = Ok (mem, swap_pct) (divs ++ [d_zero]) /\
    (mem = S754_nan \/ mem = S754_infinity false).
Proof.
  intros Hz. unfold get_mem_usage.
  set (v := fold_left mem_scan_step entries mem_vars_init) in *. rewrite Hz.
  destruct (percent_of_zero_divisor
              (u64 (0 - mem_free v - buffers v - cached v)) (u64_range _))
    as (mem & Em & Hmem).
  rewrite Em.
  destruct (swap_total v >? 0).
  - unfold percent_of, div_logged, bind, ret. cbn [app].
    exists mem. eexists. exists [double_of_Z (swap_total v)].
    split; [reflexivity | exact Hmem].
  - unfold bind, ret. cbn [app].
    exists mem, d_zero, []. split; [reflexivity | exact Hmem].
Qed.

(** ** The drain on any file content *)

Lemma fgets_chars_room (room : nat) :
  forall (data t rem : string) (e : bool),
    fgets_chars room data = (t, rem, e) ->
    (String.length t <= room)%nat /\ (e = true -> rem = ""%string) /\
    (t = ""%string -> room <> O -> data = ""%string).
Proof.
  induction room as [|r IH]; intros data t rem e H; cbn in H.
  - inversion H; subst. cbn. split; [lia|]. split; [discriminate|]. intros _ Hr. now destruct Hr.
  - destruct data as [|c rest].
    + inversion H; subst. cbn. split; [lia|]. split; reflexivity.
    + destruct (Ascii.eqb c LF).
      * inversion H; subst. cbn. split; [lia|]. split; discriminate.
      * destruct (fgets_chars r rest) as [[t0 rem0] e0] eqn:E.
        inversion H; subst.
        destruct (IH _ _ _ _ E) as (Hl & He & _).
        cbn. split; [lia|]. split; [exact He|discriminate].
Qed.

Lemma terminate_at_length (n : nat) :
  forall s : string, (String.length (terminate_at n s) <= String.length s)%nat.
Proof.
  induction n as [|n IH]; intros [|c s]; cbn; try lia.
  specialize (IH s). lia.
Qed.

Lemma terminate_at_le (n : nat) :
  forall s : string, (String.length (terminate_at n s) <= n)%nat.
Proof.
  induction n as [|n IH]; intros [|c s]; cbn; try lia.
  specialize (IH s). lia.
Qed.

Lemma strip_is_plain (s : string) :
  all_plain (terminate_at (strcspn s (String CR nl)) s) = true.
Proof.
  induction s as [|c s IH]; cbn; [reflexivity|].
  destruct (Ascii.eqb c NUL) eqn:E0; cbn; [reflexivity|].
  destruct (Ascii.eqb c CR) eqn:E1; cbn; [reflexivity|].
  destruct (Ascii.eqb c LF) eqn:E2; cbn; [reflexivity|].
  unfold plain_char. rewrite E0, E1, E2. cbn. exact IH.
Qed.

Lemma read_debug_loop_any (fuel : nat) :
  forall (fp : FILE) (b : debug_log) (u : Z),
    (String.length (f_unread fp) < fuel)%nat ->
    (f_eof fp = true -> f_unread fp = ""%string) ->
    exists (lines : list string) (e : bool),
      read_debug_loop fuel fp b u
      = Some (mk_FILE "" e, append_all lines b,
              match lines with [] => u | _ => 1 end) /\
      (f_eof fp = false -> (lines = [] <-> f_unread fp = ""%string)) /\
      Forall stored_line lines.
Proof.
  induction fuel as [|fuel IH]; intros fp b u Hfuel Heof; [lia|].
  cbn [read_debug_loop].
  destruct (fgets 1024 fp) as [[line|] fp'] eqn:E.
  - pose proof (fgets_some_consumes _ _ _ _ E) as Hlt.
    unfold fgets in E. destruct (f_eof fp) eqn:Ee; [discriminate|].
    destruct (fgets_chars (1024 - 1) (f_unread fp)) as [[t rem] e0] eqn:Ec.
    destruct (fgets_chars_room _ _ _ _ _ Ec) as (Hlen & Hrem & _).
    assert (Ht : t = line /\ fp' = mk_FILE rem e0)
      by (destruct t; inversion E; subst; split; reflexivity).
    destruct Ht as [-> ->].
    set (stored := terminate_at (strcspn line (String CR nl)) line).
    destruct (IH (mk_FILE rem e0) (debug_log_append stored b) 1)
      as (lines & e & Hloop & _ & Hall); [cbn in *; lia|exact Hrem|].
    exists (stored :: lines), e. split; [|split].
    + rewrite Hloop. cbn [append_all fold_left]. f_equal. f_equal.
      now destruct lines.
    + intros _. split; [discriminate|].
      intros Hempty. rewrite Hempty in Ec. cbn in Ec. inversion Ec; subst.
      cbn in E. discriminate.
    + constructor; [|exact Hall]. split.
      * pose proof (terminate_at_length (strcspn line (String CR nl)) line).
        fold stored in H. cbn in Hlen. lia.
      * apply strip_is_plain.
  - exists [], (f_eof fp'). unfold fgets in E.
    destruct (f_eof fp) eqn:Ee.
    + assert (Hfp : fp' = fp) by congruence. subst fp'.
      destruct fp as [un eo]. cbn in *. subst eo. rewrite (Heof eq_refl).
      split; [reflexivity|]. split; [discriminate|constructor].
    + destruct (fgets_chars (1024 - 1) (f_unread fp)) as [[t rem] e0] eqn:Ec.
      destruct (fgets_chars_room _ _ _ _ _ Ec) as (_ & _ & Hdata).
      destruct t; [|discriminate]. inversion E; subst.
      specialize (Hdata eq_refl ltac:(cbn; lia)). rewrite Hdata in Ec.
      cbn in Ec. inversion Ec; subst. cbn. split; [reflexivity|].
      split; [tauto|constructor].
Qed.

(** X1.  Whatever bytes the watched file holds beyond the read position, a
    drain of a stream whose end-of-file indicator is clear returns, reads up
    to the end of the file and leaves the indicator cleared; it reports 1
    exactly when there was at least one unread byte, and every line it
    appends is at most 1023 bytes long and free of CR, LF and NUL. *)
Theorem drain_reads_to_end_of_file (fp : FILE) (b : debug_log) :
  f_eof fp = false ->
  exists lines : list string,
    read_debug_file (Some fp) b
    = Some (match lines with [] => 0 | _ => 1 end,
            Some (mk_FILE "" false), append_all lines b) /\
    (lines = [] <-> f_unread fp = ""%string) /\
    Forall stored_line lines.
Proof.
  intros Heof.
  destruct (read_debug_loop_any (drain_fuel fp) fp b 0)
    as (lines & e & Hloop & Hiff & Hall).
  - unfold drain_fuel. lia.
  - rewrite Heof. discriminate.
  - exists lines. unfold read_debug_file. rewrite Hloop. cbn.
    split; [reflexivity|]. split; [exact (Hiff Heof)|exact Hall].
Qed.

Lemma drain_reads_to_end_of_file_witness :
  exists lines : list string,
    read_debug_file
      (Some (mk_FILE (String "a" (String CR (String LF (String "b" "")))) false))
      empty_log
    = Some (match lines with [] => 0 | _ => 1 end,
            Some (mk_FILE "" false), append_all lines empty_log) /\
    (lines = [] <->
     String "a" (String CR (String LF (String "b" ""))) = ""%string) /\
    Forall stored_line lines.
Proof.
  apply (drain_reads_to_end_of_file
           (mk_FILE (String "a" (String CR (String LF (String "b" "")))) false)).
  reflexivity.
Defined.

(** ** One iteration, taken apart *)

Lemma main_loop_body_inv (inp : tick_input) (g g' : globals) (l l' : locals)
    (out : list out_item) :
  main_loop_body inp g l = Continue g' l' out ->
  exists cpu prev' io d1 mem swap_pct d2 rc power' d3 new_debug fp' b',
    get_cpu_usage (in_cpu inp) (in_cpu_uninit inp) (prev l)
    = Ok (cpu, prev', io) d1 /\
    get_mem_usage (in_mem inp) = Ok (mem, swap_pct) d2 /\
    parse_power_status (in_power1 inp) (in_power2 inp) = Ok (rc, power') d3 /\
    read_debug_file (dbg_fp g) (debug_lines g, debug_line_count g)
    = Some (new_debug, fp', b') /\
    let g1 := set_tail (set_last_io_pct g io) fp' b' in
    let g2 := if hist_counter l =? 0 then history_push cpu mem g1 else g1 in
    let redraw := negb (resize_pending g2 =? 0) || negb (new_debug =? 0) in
    let loads' := snd (parse_loadavg (in_load inp) (loads l)) in
    g' = (if redraw then set_resize_pending g2 0 else g2) /\
    l' = mk_locals prev' loads' power'
                   (Z.rem (hist_counter l + 1) HISTORY_DIVISOR) (argv1 l) /\
    out = draw_frame redraw g' cpu mem swap_pct loads' power' (argv1 l).
Proof.
  unfold main_loop_body. intros H.
  destruct (get_cpu_usage _ _ _) as [[[cpu prev'] io] d1| |]; try discriminate.
  destruct (get_mem_usage _) as [[mem swap_pct] d2| |]; try discriminate.
  destruct (parse_power_status _ _) as [[rc power'] d3| |]; try discriminate.
  cbn [dbg_fp set_last_io_pct debug_lines debug_line_count] in H.
  assert (Hread : forall r,
    match dbg_fp g with
    | Some _ =>
        if in_endless inp then None
        else read_debug_file (dbg_fp g) (debug_lines g, debug_line_count g)
    | None => Some (0, dbg_fp g, (debug_lines g, debug_line_count g))
    end = Some r ->
    read_debug_file (dbg_fp g) (debug_lines g, debug_line_count g) = Some r).
  { intros r. destruct (dbg_fp g); [|intros E; exact E].
    destruct (in_endless inp); [discriminate|intros E; exact E]. }
  destruct (match dbg_fp g with Some _ => _ | None => _ end)
    as [[[new_debug fp'] b']|] eqn:Edrain; try discriminate.
  specialize (Hread _ eq_refl).
  inversion H; subst; clear H.
  exists cpu, prev', io, d1, mem, swap_pct, d2, rc, power', d3, new_debug, fp', b'.
  repeat (split; [reflexivity|]). split; [exact Hread|].
  cbv zeta. repeat split; reflexivity.
Qed.

(** ** What the loop keeps *)

Lemma handle_winch_keeps (ws : option (Z * Z)) (g : globals) :
  let g' := handle_winch ws g in
  hist_cpu g' = hist_cpu g /\ hist_mem g' = hist_mem g /\
  debug_lines g' = debug_lines g /\ debug_line_count g' = debug_line_count g /\
  dbg_fp g' = dbg_fp g /\ last_io_pct g' = last_io_pct g /\
  resize_pending g' = 1 /\
  (20 <= graph_width g <= MAXW -> 20 <= graph_width g' <= MAXW).
Proof.
  unfold handle_winch, MAXW. destruct ws as [[c r]|]; cbn;
    repeat (split; [reflexivity|]); [|tauto].
  intros _.
  destruct (Z.gtb_spec (c - 12) 512); [cbn; lia|].
  destruct (Z.ltb_spec (c - 12) 20); lia.
Qed.

Lemma winch_fold_keeps (wss : list (option (Z * Z))) :
  forall g : globals,
    let g' := fold_left (fun g ws => handle_winch ws g) wss g in
    hist_cpu g' = hist_cpu g /\ hist_mem g' = hist_mem g /\
    debug_lines g' = debug_lines g /\ debug_line_count g' = debug_line_count g /\
    dbg_fp g' = dbg_fp g /\ last_io_pct g' = last_io_pct g /\
    resize_pending g' = match wss with [] => resize_pending g | _ => 1 end /\
    (20 <= graph_width g <= MAXW -> 20 <= graph_width g' <= MAXW).
Proof.
  induction wss as [|ws wss IH]; intros g; cbn [fold_left].
  - cbv zeta. repeat (split; [reflexivity|]). tauto.
  - destruct (IH (handle_winch ws g)) as (H1 & H2 & H3 & H4 & H5 & H6 & H7 & H8).
    destruct (handle_winch_keeps ws g) as (K1 & K2 & K3 & K4 & K5 & K6 & K7 & K8).
    cbv zeta. rewrite H1, H2, H3, H4, H5, H6, K1, K2, K3, K4, K5, K6.
    repeat (split; [reflexivity|]). split.
    + rewrite H7. destruct wss; [exact K7|reflexivity].
    + intros Hgw. apply H8, K8, Hgw.
Qed.

Lemma Forall_last_n {A} (P : A -> Prop) (n : nat) (l : list A) :
  Forall P l -> Forall P (last_n n l).
Proof. unfold last_n. apply Forall_drop. Qed.

Lemma hist_counter_next (c : Z) :
  0 <= c < HISTORY_DIVISOR ->
  Z.rem (c + 1) HISTORY_DIVISOR = (c + 1) mod HISTORY_DIVISOR /\
  0 <= Z.rem (c + 1) HISTORY_DIVISOR < HISTORY_DIVISOR.
Proof.
  unfold HISTORY_DIVISOR. intros H.
  rewrite Z.rem_mod_nonneg by lia.
  split; [reflexivity|]. apply Z.mod_pos_bound. lia.
Qed.

Lemma main_loop_body_keeps (inp : tick_input) (g g' : globals) (l l' : locals)
    (out : list out_item) (ls : list string) :
  main_loop_body inp g l = Continue g' l' out ->
  20 <= graph_width g <= MAXW ->
  length (hist_cpu g) = Z.to_nat MAXW ->
  length (hist_mem g) = Z.to_nat MAXW ->
  0 <= hist_counter l < HISTORY_DIVISOR ->
  log_holds (debug_lines g, debug_line_count g) ls ->
  Forall stored_line ls ->
  (forall fp, dbg_fp g = Some fp -> f_eof fp = false) ->
  state_ok g' l'.
Proof.
  intros Hbody Hgw Hhc Hhm Hctr Hlog Hstored Hfp.
  destruct (main_loop_body_inv _ _ _ _ _ _ Hbody)
    as (cpu & prev' & io & d1 & mem & swap_pct & d2 & rc & power' & d3 &
        new_debug & fp' & b' & _ & _ & _ & Hread & Hrest).
  cbv zeta in Hrest. destruct Hrest as (Hg' & Hl' & _).
  assert (Htail : exists lines,
             b' = append_all lines (debug_lines g, debug_line_count g) /\
             Forall stored_line lines /\
             (forall fp, fp' = Some fp -> fp = mk_FILE "" false)).
  { destruct (dbg_fp g) as [fp|] eqn:Efp.
    - destruct (read_debug_loop_any (drain_fuel fp) fp
                  (debug_lines g, debug_line_count g) 0)
        as (lines & e & Hloop & _ & Hall).
      + unfold drain_fuel. lia.
      + rewrite (Hfp fp eq_refl). discriminate.
      + exists lines. unfold read_debug_file in Hread. rewrite Hloop in Hread.
        inversion Hread; subst. split; [reflexivity|]. split; [exact Hall|].
        intros fp0 E. inversion E. reflexivity.
    - exists []. cbn in Hread. inversion Hread; subst.
      split; [reflexivity|]. split; [constructor|discriminate]. }
  destruct Htail as (lines & Hb' & Hlines & Hfp').
  pose proof (append_all_holds lines _ _ Hlog) as Hholds. rewrite <- Hb' in Hholds.
  assert (Hall : Forall stored_line (last_n 12 (ls ++ lines)))
    by (apply Forall_last_n, Forall_app; split; assumption).
  set (g1 := set_tail (set_last_io_pct g io) fp' b') in *.
  set (g2 := if hist_counter l =? 0 then history_push cpu mem g1 else g1) in *.
  assert (H2 : graph_width g2 = graph_width g /\
               length (hist_cpu g2) = Z.to_nat MAXW /\
               length (hist_mem g2) = Z.to_nat MAXW /\
               debug_lines g2 = fst b' /\ debug_line_count g2 = snd b' /\
               dbg_fp g2 = fp').
  { subst g2. destruct (hist_counter l =? 0); cbn;
      rewrite ?history_shift_length by assumption; repeat split; assumption. }
  destruct H2 as (G1 & G2 & G3 & G4 & G5 & G6).
  assert (H3 : graph_width g' = graph_width g /\
               hist_cpu g' = hist_cpu g2 /\ hist_mem g' = hist_mem g2 /\
               debug_lines g' = fst b' /\ debug_line_count g' = snd b' /\
               dbg_fp g' = fp').
  { rewrite Hg'. destruct (negb _ || negb _); cbn; repeat split; assumption. }
  destruct H3 as (F1 & F2 & F3 & F4 & F5 & F6).
  unfold state_ok. rewrite F1, F2, F3, F4, F5, F6, Hl'. cbn [hist_counter].
  split; [exact Hgw|]. split; [exact G2|]. split; [exact G3|].
  split; [apply hist_counter_next, Hctr|]. split; [|exact Hfp'].
  exists (last_n 12 (ls ++ lines)). split; [|exact Hall].
  destruct b'; exact Hholds.
Qed.

Lemma tick_keeps (inp : tick_input) (g g' : globals) (l l' : locals)
    (out : list out_item) :
  state_ok g l -> tick inp g l = Continue g' l' out -> state_ok g' l'.
Proof.
  intros (Hgw & Hhc & Hhm & Hctr & (ls & Hlog & Hstored) & Hfp) Htick.
  unfold tick in Htick.
  destruct (winch_fold_keeps (in_winch inp) g)
    as (W1 & W2 & W3 & W4 & W5 & _ & _ & W8).
  cbv zeta in W1, W2, W3, W4, W5, W8.
  apply (main_loop_body_keeps _ _ _ _ _ _ ls Htick); unfold environment; cbn.
  - auto.
  - congruence.
  - congruence.
  - exact Hctr.
  - rewrite W3, W4. exact Hlog.
  - exact Hstored.
  - rewrite W5. intros fp E. destruct (dbg_fp g) as [fp0|]; [|discriminate].
    cbn in E. inversion E. cbn. rewrite (Hfp fp0 eq_refl). reflexivity.
Qed.

Lemma main_startup_ok (inp : startup_input) (g : globals) (l : locals)
    (out : list out_item) (divs : list double) :
  main_startup inp = Ok (g, l, out) divs -> state_ok g l.
Proof.
  unfold main_startup. intros H.
  destruct (install_winch_handler _) as [[] ?| |]; cbn in H; try discriminate.
  destruct (get_cpu_stats _ _) as [prev0 ?| |]; cbn in H; try discriminate.
  destruct (parse_power_status _ _) as [[rc power0] ?| |]; cbn in H;
    try discriminate.
  inversion H; subst; clear H.
  match goal with |- state_ok (handle_winch ?ws ?g0) _ =>
    destruct (handle_winch_keeps ws g0) as (K1 & K2 & K3 & K4 & K5 & _ & _ & K8);
    cbv zeta in K1, K2, K3, K4, K5, K8
  end.
  unfold state_ok. rewrite K1, K2, K3, K4, K5. cbn.
  split; [apply K8; cbn; unfold MAXW; lia|].
  split; [reflexivity|]. split; [reflexivity|].
  split; [unfold HISTORY_DIVISOR; lia|]. split.
  - exists []. split; [exact empty_log_holds|constructor].
  - intros fp E. destruct (su_argv1 inp); [|discriminate].
    destruct (su_fopen inp); cbn in E; [|discriminate]. congruence.
Qed.

Lemma reachable_keeps (g : globals) (l : locals) :
  reachable g l -> state_ok g l.
Proof.
  induction 1 as [inp g l out divs H|inp g l g' l' out _ IH Htick].
  - exact (main_startup_ok _ _ _ _ _ H).
  - exact (tick_keeps _ _ _ _ _ _ IH Htick).
Qed.

(** X2.  Every state the loop can be in, from a successful startup on and
    after any ticks whatever they read, has a graph width between 20 and
    [MAXW], history arrays of [MAXW] slots, a history counter below
    [HISTORY_DIVISOR], a log buffer of at most [MAX_DEBUG_LINES] stored
    lines and a tail stream read to the end of the file; so every history
    column a frame reads lies inside both arrays. *)
Theorem loop_state_is_kept (g : globals) (l : locals) :
  reachable g l ->
  state_ok g l /\
  (forall col : Z,
     MAXW - graph_width g <= col < MAXW ->
     0 <= col /\
     is_Some (hist_cpu g !! Z.to_nat col) /\
     is_Some (hist_mem g !! Z.to_nat col)).
Proof.
  intros Hr. pose proof (reachable_keeps g l Hr) as Hok.
  split; [exact Hok|].
  destruct Hok as (Hgw & Hhc & Hhm & _).
  intros col Hcol. split; [lia|].
  split; apply lookup_lt_is_Some; unfold MAXW in *; lia.
Qed.

Lemma loop_state_is_kept_witness :
  exists g l out divs,
    main_startup sample_startup = Ok (g, l, out) divs /\
    state_ok g l /\
    (forall col : Z,
       MAXW - graph_width g <= col < MAXW ->
       0 <= col /\
       is_Some (hist_cpu g !! Z.to_nat col) /\
       is_Some (hist_mem g !! Z.to_nat col)).
Proof.
  destruct (main_startup sample_startup) as [[[g l] out] divs| |] eqn:E;
    try (vm_compute in E; discriminate).
  exists g, l, out, divs. split; [reflexivity|].
  exact (loop_state_is_kept g l (reach_start _ _ _ _ _ E)).
Defined.

(** X3.  [handle_winch] takes the terminal size the [ioctl] answers and sets
    the graph width to the columns less 12, held between 20 and [MAXW]; when
    the [ioctl] fails the three sizes stay as they were; either way the
    resize flag is raised and neither the history nor the log buffer nor
    the tail stream is touched. *)
Theorem handle_winch_clamps_graph_width (g : globals) (cols rows : Z)
    (ws : option (Z * Z)) :
  (let g' := handle_winch (Some (cols, rows)) g in
   term_cols g' = cols /\ term_rows g' = rows /\
   graph_width g' = Z.max 20 (Z.min MAXW (cols - 12))) /\
  (let g' := handle_winch None g in
   term_cols g' = term_cols g /\ term_rows g' = term_rows g /\
   graph_width g' = graph_width g) /\
  (let g' := handle_winch ws g in
   resize_pending g' = 1 /\
   hist_cpu g' = hist_cpu g /\ hist_mem g' = hist_mem g /\
   debug_lines g' = debug_lines g /\
   debug_line_count g' = debug_line_count g /\ dbg_fp g' = dbg_fp g).
Proof.
  split; [|split].
  - cbn. split; [reflexivity|]. split; [reflexivity|]. unfold MAXW.
    destruct (Z.gtb_spec (cols - 12) 512); [cbn; lia|].
    destruct (Z.ltb_spec (cols - 12) 20); lia.
  - cbn. repeat split; reflexivity.
  - destruct (handle_winch_keeps ws g) as (K1 & K2 & K3 & K4 & K5 & _ & K7 & _).
    cbv zeta. repeat split; assumption.
Qed.

(** X4.  The history takes one sample in [HISTORY_DIVISOR]: a tick that finds
    the counter at 0 slides both arrays by one slot and stores the CPU and
    memory percentages it has just computed in the newest slot; a tick that
    finds it elsewhere leaves both arrays as they were; every tick advances
    the counter by one modulo [HISTORY_DIVISOR]. *)
Theorem history_takes_every_fourth_sample (inp : tick_input) (g g' : globals)
    (l l' : locals) (out : list out_item) :
  tick inp g l = Continue g' l' out ->
  0 <= hist_counter l < HISTORY_DIVISOR ->
  length (hist_cpu g) = Z.to_nat MAXW ->
  length (hist_mem g) = Z.to_nat MAXW ->
  hist_counter l' = (hist_counter l + 1) mod HISTORY_DIVISOR /\
  exists cpu mem prev' io swap_pct d1 d2,
    get_cpu_usage (in_cpu inp) (in_cpu_uninit inp) (prev l)
    = Ok (cpu, prev', io) d1 /\
    get_mem_usage (in_mem inp) = Ok (mem, swap_pct) d2 /\
    (hist_counter l = 0 ->
     hist_cpu g' = drop 1 (hist_cpu g) ++ [cpu] /\
     hist_mem g' = drop 1 (hist_mem g) ++ [mem]) /\
    (hist_counter l <> 0 ->
     hist_cpu g' = hist_cpu g /\ hist_mem g' = hist_mem g).
Proof.
  intros Htick Hctr Hhc Hhm. unfold tick in Htick.
  destruct (main_loop_body_inv _ _ _ _ _ _ Htick)
    as (cpu & prev' & io & d1 & mem & swap_pct & d2 & rc & power' & d3 &
        new_debug & fp' & b' & Hcpu & Hmem & _ & _ & Hrest).
  cbv zeta in Hrest. destruct Hrest as (Hg' & Hl' & _).
  destruct (winch_fold_keeps (in_winch inp) g) as (W1 & W2 & _).
  cbv zeta in W1, W2.
  split.
  - rewrite Hl'. cbn. apply hist_counter_next, Hctr.
  - exists cpu, mem, prev', io, swap_pct, d1, d2.
    split; [exact Hcpu|]. split; [exact Hmem|].
    assert (Hh : forall (flag : bool) (g2 : globals),
               hist_cpu (if flag then set_resize_pending g2 0 else g2) = hist_cpu g2 /\
               hist_mem (if flag then set_resize_pending g2 0 else g2) = hist_mem g2)
      by (intros [|] g2; split; reflexivity).
    rewrite Hg'. split.
    + intros H0. rewrite H0 in *. cbn [Z.eqb].
      rewrite (proj1 (Hh _ _)), (proj2 (Hh _ _)). cbn. unfold environment. cbn.
      rewrite W1, W2, !history_shift_spec by assumption. split; reflexivity.
    + intros Hn. destruct (Z.eqb_spec (hist_counter l) 0) as [E|_]; [contradiction|].
      rewrite (proj1 (Hh _ _)), (proj2 (Hh _ _)). cbn. unfold environment. cbn.
      split; assumption.
Qed.

Lemma history_takes_every_fourth_sample_witness :
  exists g' l' out cpu mem,
    tick sample_tick initial_globals sample_locals = Continue g' l' out /\
    hist_counter l' = 1 /\
    hist_cpu g' = drop 1 (hist_cpu initial_globals) ++ [cpu] /\
    hist_mem g' = drop 1 (hist_mem initial_globals) ++ [mem].
Proof.
  destruct (tick sample_tick initial_globals sample_locals)
    as [g' l' out| | |] eqn:E; try (vm_compute in E; discriminate).
  destruct (history_takes_every_fourth_sample _ _ _ _ _ _ E)
    as (Hc & cpu & mem & prev' & io & swap_pct & d1 & d2 & _ & _ & H0 & _);
    [cbn; unfold HISTORY_DIVISOR; lia|reflexivity|reflexivity|].
  exists g', l', out, cpu, mem. split; [reflexivity|].
  split; [exact Hc|]. exact (H0 eq_refl).
Defined.

(** X5.  A frame starts with a clear of the screen exactly when the resize
    flag was up, a window change arrived since the last frame, or the
    watched file has grown; otherwise it starts at the cursor-home
    sequence.  After every tick the resize flag is down. *)
Theorem screen_is_cleared_on_resize_or_new_lines (inp : tick_input)
    (g g' : globals) (l l' : locals) (out : list out_item) :
  tick inp g l = Continue g' l' out ->
  (forall fp, dbg_fp g = Some fp -> fp = mk_FILE "" false) ->
  resize_pending g' = 0 /\
  exists rest : list out_item,
    out = (if redraw_due inp g then [clear_screen] else []) ++ cursor_home :: rest.
Proof.
  intros Htick Hfp. unfold tick in Htick.
  destruct (main_loop_body_inv _ _ _ _ _ _ Htick)
    as (cpu & prev' & io & d1 & mem & swap_pct & d2 & rc & power' & d3 &
        new_debug & fp' & b' & _ & _ & _ & Hread & Hrest).
  cbv zeta in Hrest. destruct Hrest as (Hg' & _ & Hout).
  destruct (winch_fold_keeps (in_winch inp) g) as (_ & _ & _ & _ & W5 & _ & W7 & _).
  cbv zeta in W5, W7.
  set (g1 := set_tail (set_last_io_pct (environment inp g) io) fp' b') in *.
  set (g2 := if hist_counter l =? 0 then history_push cpu mem g1 else g1) in *.
  assert (Hrp : resize_pending g2
                = match in_winch inp with [] => resize_pending g | _ => 1 end).
  { subst g2 g1. destruct (hist_counter l =? 0); cbn; exact W7. }
  assert (Hnew : negb (new_debug =? 0)
                 = match dbg_fp g, in_appended inp with
                   | Some _, String _ _ => true
                   | _, _ => false
                   end).
  { assert (Efp0 : dbg_fp (environment inp g)
                   = file_append (in_appended inp) <$> dbg_fp g)
      by (unfold environment; cbn; rewrite W5; reflexivity).
    rewrite Efp0 in Hread.
    destruct (dbg_fp g) as [fp|] eqn:Efp.
    - rewrite (Hfp fp eq_refl) in Hread.
      change (file_append (in_appended inp) <$> Some (mk_FILE "" false))
        with (Some (mk_FILE (in_appended inp) false)) in Hread.
      destruct (read_debug_loop_any
                  (drain_fuel (mk_FILE (in_appended inp) false))
                  (mk_FILE (in_appended inp) false)
                  (debug_lines (environment inp g),
                   debug_line_count (environment inp g)) 0)
        as (lines & e & Hloop & Hiff & _);
        [unfold drain_fuel; lia|discriminate|].
      unfold read_debug_file in Hread. rewrite Hloop in Hread.
      inversion Hread; subst new_debug.
      specialize (Hiff eq_refl). cbn in Hiff.
      destruct (in_appended inp); destruct lines; try reflexivity.
      + discriminate (proj2 Hiff eq_refl).
      + discriminate (proj1 Hiff eq_refl).
    - cbn in Hread. inversion Hread. reflexivity. }
  assert (Hdue : negb (resize_pending g2 =? 0) || negb (new_debug =? 0)
                 = redraw_due inp g).
  { unfold redraw_due. rewrite Hrp, Hnew.
    destruct (in_winch inp); cbn.
    - now rewrite orb_false_r.
    - now rewrite orb_true_r. }
  rewrite Hdue in Hg', Hout. split.
  - rewrite Hg'. destruct (redraw_due inp g) eqn:Ed; [reflexivity|].
    apply orb_false_elim in Hdue as [Hdue _].
    apply negb_false_iff, Z.eqb_eq in Hdue. exact Hdue.
  - rewrite Hout. unfold draw_frame. eexists. reflexivity.
Qed.

Lemma screen_is_cleared_on_resize_or_new_lines_witness :
  exists g' l' out rest,
    tick sample_tick initial_globals sample_locals = Continue g' l' out /\
    resize_pending g' = 0 /\ out = cursor_home :: rest.
Proof.
  destruct (tick sample_tick initial_globals sample_locals)
    as [g' l' out| | |] eqn:E; try (vm_compute in E; discriminate).
  destruct (screen_is_cleared_on_resize_or_new_lines _ _ _ _ _ _ E)
    as (H0 & rest & Hout); [discriminate|].
  exists g', l', out, rest. split; [reflexivity|]. split; [exact H0|exact Hout].
Defined.

(** X6.  What a tick leaves in the snapshots of [main].  The CPU snapshot is
    the one just read.  When [/proc/loadavg] cannot be opened or read, the
    load figures stay those of the last tick; when the power-supply
    directory cannot be opened, the power snapshot is set back to no
    battery, not on AC; the path of the watched file never changes. *)
Theorem tick_snapshots (inp : tick_input) (g g' : globals) (l l' : locals)
    (out : list out_item) :
  tick inp g l = Continue g' l' out ->
  (forall vals, in_cpu inp = CpuScanned vals ->
     prev l' = store_cpu vals (in_cpu_uninit inp)) /\
  (in_load inp = LoadNoFile \/ in_load inp = LoadNoLine -> loads l' = loads l) /\
  (in_power1 inp = None -> power l' = mk_power (-1) 0) /\
  argv1 l' = argv1 l.
Proof.
  intros Htick. unfold tick in Htick.
  destruct (main_loop_body_inv _ _ _ _ _ _ Htick)
    as (cpu & prev' & io & d1 & mem & swap_pct & d2 & rc & power' & d3 &
        new_debug & fp' & b' & Hcpu & _ & Hpow & _ & Hrest).
  cbv zeta in Hrest. destruct Hrest as (_ & Hl' & _). rewrite Hl'. cbn.
  split; [|split; [|split; [|reflexivity]]].
  - intros vals Hv. rewrite Hv in Hcpu.
    unfold get_cpu_usage, get_cpu_stats, percent_of, div_logged, bind, ret in Hcpu.
    destruct (cpu_diff_total _ _ >? 0); congruence.
  - intros [Hl|Hl]; rewrite Hl; reflexivity.
  - intros Hp. rewrite Hp in Hpow. unfold parse_power_status, ret in Hpow.
    congruence.
Qed.

Lemma tick_snapshots_witness :
  exists g' l' out,
    tick sample_tick initial_globals sample_locals = Continue g' l' out /\
    prev l' = mk_cpu_stats 130 2 30 4060 60 6 7 8 /\
    argv1 l' = ""%string.
Proof.
  destruct (tick sample_tick initial_globals sample_locals)
    as [g' l' out| | |] eqn:E; try (vm_compute in E; discriminate).
  destruct (tick_snapshots _ _ _ _ _ _ E) as (Hprev & _ & _ & Hargv).
  exists g', l', out. split; [reflexivity|].
  split; [exact (Hprev _ eq_refl)|exact Hargv].
Defined.

(** ** The tail section of a frame *)

Lemma map_is_fmap {A B} (f : A -> B) (l : list A) : map f l = f <$> l.
Proof. induction l as [|x l IH]; cbn; [reflexivity|]. now rewrite IH. Qed.

Lemma map_slots_seqZ {B} (f : string -> B) (ls : list string)
    (rest : list (option string)) (start : Z) :
  0 <= start <= Z.of_nat (length ls) ->
  map (fun i => f (default "(null)"%string
                     (array_get None (map Some ls ++ rest) i)))
      (seqZ start (Z.of_nat (length ls) - start))
  = map f (drop (Z.to_nat start) ls).
Proof.
  intros Hs. apply list_eq. intros k.
  rewrite !map_is_fmap, !list_lookup_fmap, lookup_drop.
  destruct (Z_lt_le_dec (Z.of_nat k) (Z.of_nat (length ls) - start)) as [Hk|Hk].
  - rewrite lookup_seqZ_lt by exact Hk. cbn.
    destruct (lookup_lt_is_Some_2 ls (Z.to_nat start + k)) as [x Hx]; [lia|].
    rewrite Hx. cbn. f_equal. f_equal. unfold array_get.
    replace (Z.to_nat (start + Z.of_nat k)) with (Z.to_nat start + k)%nat by lia.
    rewrite lookup_app_l by (rewrite length_map; apply lookup_lt_Some in Hx; lia).
    rewrite map_is_fmap, list_lookup_fmap, Hx. reflexivity.
  - rewrite lookup_seqZ_ge by exact Hk. cbn.
    rewrite lookup_ge_None_2 by lia. reflexivity.
Qed.

Lemma draw_tail_lines (g : globals) (ls : list string) (path : string) :
  log_holds (debug_lines g, debug_line_count g) ls ->
  draw_tail path g
  = Text (" > tail: " ++ path ++ nl)%string ::
    map (fun s => Text (terminate_at (Z.to_nat (Z.max 1 (term_cols g - 1))) s
                        ++ nl)%string)
        (last_n (Z.to_nat (Z.max 0 (term_rows g - 19))) ls).
Proof.
  intros (rest & Hlines & Hcount & _). cbn in Hlines, Hcount.
  unfold draw_tail, HISTORY_HEIGHT. rewrite Hlines, Hcount. f_equal.
  replace (term_rows g - (1 + 10 + 1 + 2 * 2 + 1) - 2) with (term_rows g - 19) by lia.
  set (rows := if term_rows g - 19 >? 0 then term_rows g - 19 else 0).
  assert (Hrows : rows = Z.max 0 (term_rows g - 19))
    by (subst rows; destruct (Z.gtb_spec (term_rows g - 19) 0); lia).
  set (start := if Z.of_nat (length ls) >? rows
                then Z.of_nat (length ls) - rows else 0).
  assert (Hstart : 0 <= start <= Z.of_nat (length ls) /\
                   Z.to_nat start = (length ls - Z.to_nat rows)%nat)
    by (subst start; destruct (Z.gtb_spec (Z.of_nat (length ls)) rows); lia).
  assert (Hw : (if term_cols g >? 1 then term_cols g - 1 else 1)
               = Z.max 1 (term_cols g - 1))
    by (destruct (Z.gtb_spec (term_cols g) 1); lia).
  rewrite Hw.
  rewrite (map_slots_seqZ
             (fun s => Text (terminate_at (Z.to_nat (Z.max 1 (term_cols g - 1))) s
                             ++ nl)%string) ls rest start (proj1 Hstart)).
  unfold last_n. rewrite (proj2 Hstart), Hrows. reflexivity.
Qed.

(** X7.  The tail section of a frame is its header with the path, followed
    by the newest lines of the log buffer, oldest first: as many as the
    terminal has rows beyond the 19 the rest of the frame takes (none when
    it has 19 rows or fewer), each cut to one byte less than the terminal
    is wide (to one byte on a terminal of one column or none).  No slot
    beyond the lines stored is printed. *)
Theorem tail_shows_newest_lines (g : globals) (ls : list string) (path : string) :
  log_holds (debug_lines g, debug_line_count g) ls ->
  draw_tail path g
  = Text (" > tail: " ++ path ++ nl)%string ::
    map (fun s => Text (terminate_at (Z.to_nat (Z.max 1 (term_cols g - 1))) s
                        ++ nl)%string)
        (last_n (Z.to_nat (Z.max 0 (term_rows g - 19))) ls) /\
  length (draw_tail path g)
  = S (Nat.min (length ls) (Z.to_nat (Z.max 0 (term_rows g - 19)))).
Proof.
  intros Hlog. rewrite (draw_tail_lines g ls path Hlog).
  split; [reflexivity|].
  cbn [length]. rewrite length_map. unfold last_n. rewrite length_drop. lia.
Qed.

Lemma tail_shows_newest_lines_witness :
  let g := set_tail (handle_winch (Some (10, 21)) initial_globals)
                    (Some (mk_FILE "" false))
                    (append_all ["first"; "second line"; "third"]%string empty_log) in
  draw_tail "log.txt" g
  = [Text (" > tail: log.txt" ++ nl)%string;
     Text ("second li" ++ nl)%string; Text ("third" ++ nl)%string].
Proof.
  cbv zeta.
  refine (proj1 (tail_shows_newest_lines _ ["first"; "second line"; "third"]%string
                   "log.txt" _)).
  exact (append_all_holds ["first"; "second line"; "third"]%string
           empty_log [] empty_log_holds).
Defined.

(** ** The tail, from the file to the frame *)

Lemma fgets_chars_unterminated (a : string) :
  forall room : nat,
    all_plain a = true -> a <> ""%string ->
    (String.length a < room)%nat ->
    fgets_chars room a = (a, ""%string, true).
Proof.
  induction a as [|c a IH]; intros room Hp Hne Hlen; [contradiction|].
  destruct room as [|room]; [cbn in Hlen; lia|].
  cbn in Hp. apply andb_prop in Hp as [Hc Ha].
  cbn [fgets_chars]. rewrite (plain_char_not_LF c Hc).
  destruct a as [|c' a'].
  - destruct room; [cbn in Hlen; lia|reflexivity].
  - rewrite (IH room Ha ltac:(discriminate) ltac:(cbn in *; lia)). reflexivity.
Qed.

Lemma strip_plain (a : string) :
  all_plain a = true ->
  terminate_at (strcspn a (String CR nl)) a = a.
Proof.
  induction a as [|c a IH]; intros Hp; [reflexivity|].
  cbn in Hp. apply andb_prop in Hp as [Hc Ha].
  unfold plain_char in Hc. apply negb_true_iff in Hc.
  apply orb_false_elim in Hc as [Hc E0]. apply orb_false_elim in Hc as [E2 E1].
  cbn. rewrite E0, E1, E2. cbn. rewrite (IH Ha). reflexivity.
Qed.

(** X8.  The drain does not wait for the end of a line.  Bytes the writer
    has appended without a newline yet are stored as a line of their own;
    the rest of the line, appended before the next drain, is stored as the
    next line: where one line was written the buffer holds two. *)
Theorem line_written_in_two_pieces_is_stored_as_two (a b : string) (b0 : debug_log) :
  all_plain a = true -> a <> ""%string -> (String.length a <= 1022)%nat ->
  plain_line b ->
  read_debug_file (Some (file_append a (mk_FILE "" false))) b0
  = Some (1, Some (mk_FILE "" false), append_all [a] b0) /\
  read_debug_file (Some (file_append (b ++ nl) (mk_FILE "" false)))
                  (append_all [a] b0)
  = Some (1, Some (mk_FILE "" false), append_all [a; b] b0).
Proof.
  intros Ha Hne Hlen Hb. split.
  - unfold read_debug_file, file_append, drain_fuel. cbn [f_unread f_eof append].
    destruct (String.length a) as [|n] eqn:En; [destruct a; [contradiction|discriminate]|].
    cbn [read_debug_loop]. unfold fgets at 1. cbn [f_eof f_unread].
    rewrite (fgets_chars_unterminated a (1024 - 1) Ha Hne) by (cbn; lia).
    destruct a as [|c a']; [contradiction|].
    rewrite (strip_plain _ Ha).
    destruct n; reflexivity.
  - pose proof (drain_cycle_lines [b] (append_all [a] b0)
                  ltac:(constructor; [exact Hb|constructor])) as Hd.
    unfold drain_cycle in Hd. cbn [file_text] in Hd.
    rewrite string_app_empty_r in Hd. exact Hd.
Qed.

Lemma line_written_in_two_pieces_is_stored_as_two_witness :
  read_debug_file (Some (file_append "par" (mk_FILE "" false))) empty_log
  = Some (1, Some (mk_FILE "" false), append_all ["par"%string] empty_log) /\
  read_debug_file (Some (file_append ("tial" ++ nl) (mk_FILE "" false)))
                  (append_all ["par"%string] empty_log)
  = Some (1, Some (mk_FILE "" false), append_all ["par"; "tial"]%string empty_log).
Proof.
  apply (line_written_in_two_pieces_is_stored_as_two "par" "tial" empty_log);
    try reflexivity; try discriminate; try (cbn; lia).
  split; [cbn; lia|reflexivity].
Defined.

(** X9.  From the file to the screen.  On a tick of a process that watches
    a file, the complete lines the writer appended since the last tick
    (each of at most 1022 bytes, free of CR, LF and NUL) enter the log
    buffer in order, and the frame of that same tick ends with the tail
    section drawn from the buffer as it then is: the header and the newest
    lines that fit the terminal. *)
Theorem appended_lines_reach_the_frame (inp : tick_input) (g g' : globals)
    (l l' : locals) (out : list out_item) (old batch : list string) :
  tick inp g l = Continue g' l' out ->
  dbg_fp g = Some (mk_FILE "" false) ->
  log_holds (debug_lines g, debug_line_count g) old ->
  in_appended inp = file_text batch ->
  Forall plain_line batch ->
  let held := last_n 12 (old ++ batch) in
  log_contents (debug_lines g', debug_line_count g') = held /\
  exists front : list out_item,
    out = front ++
          Text (" > tail: " ++ argv1 l ++ nl)%string ::
          map (fun s => Text (terminate_at
                                (Z.to_nat (Z.max 1 (term_cols g' - 1))) s
                              ++ nl)%string)
              (last_n (Z.to_nat (Z.max 0 (term_rows g' - 19))) held).
Proof.
  intros Htick Hfp Hlog Happ Hbatch held. unfold tick in Htick.
  destruct (main_loop_body_inv _ _ _ _ _ _ Htick)
    as (cpu & prev' & io & d1 & mem & swap_pct & d2 & rc & power' & d3 &
        new_debug & fp' & b' & _ & _ & _ & Hread & Hrest).
  cbv zeta in Hrest. destruct Hrest as (Hg' & _ & Hout).
  destruct (winch_fold_keeps (in_winch inp) g) as (_ & _ & W3 & W4 & W5 & _).
  cbv zeta in W3, W4, W5.
  assert (Eenv : dbg_fp (environment inp g) = Some (mk_FILE (file_text batch) false) /\
                 debug_lines (environment inp g) = debug_lines g /\
                 debug_line_count (environment inp g) = debug_line_count g).
  { unfold environment. cbn. rewrite W3, W4, W5, Hfp, Happ. auto. }
  destruct Eenv as (E1 & E2 & E3). rewrite E1, E2, E3 in Hread.
  unfold read_debug_file in Hread.
  rewrite (read_debug_loop_lines batch _ _ _ Hbatch) in Hread
    by (unfold drain_fuel; cbn; lia).
  inversion Hread; subst new_debug fp' b'; clear Hread.
  pose proof (append_all_holds batch _ _ Hlog) as Hheld. fold held in Hheld.
  set (b' := append_all batch (debug_lines g, debug_line_count g)) in *.
  set (g1 := set_tail (set_last_io_pct (environment inp g) io)
                      (Some (clearerr (mk_FILE "" true))) b') in *.
  set (g2 := if hist_counter l =? 0 then history_push cpu mem g1 else g1) in *.
  assert (H2 : debug_lines g' = fst b' /\ debug_line_count g' = snd b' /\
               dbg_fp g' = Some (clearerr (mk_FILE "" true))).
  { rewrite Hg'. destruct (negb _ || negb _); subst g2;
      destruct (hist_counter l =? 0); cbn; auto. }
  destruct H2 as (F1 & F2 & F3).
  assert (Hlog' : log_holds (debug_lines g', debug_line_count g') held)
    by (rewrite F1, F2; destruct b'; exact Hheld).
  split; [exact (proj1 (log_holds_contents _ _ Hlog'))|].
  rewrite Hout. unfold draw_frame. rewrite F3.
  rewrite (draw_tail_lines g' held (argv1 l) Hlog').
  eexists. rewrite !app_assoc. reflexivity.
Qed.

Lemma appended_lines_reach_the_frame_witness :
  let g := set_tail initial_globals (Some (mk_FILE "" false)) empty_log in
  let inp := mk_tick_input (CpuScanned [130; 2; 30; 4060; 60; 6; 7; 8])
               zero_cpu_stats (MemScanned sample_meminfo) (LoadLine sample_loads)
               (Some []) (Some []) (file_text ["boot"; "ready"]%string) false
               [Some (80, 24)] in
  exists g' l' out front,
    tick inp g sample_locals = Continue g' l' out /\
    log_contents (debug_lines g', debug_line_count g') = ["boot"; "ready"]%string /\
    out = front ++
          Text (" > tail: " ++ argv1 sample_locals ++ nl)%string ::
          map (fun s => Text (terminate_at
                                (Z.to_nat (Z.max 1 (term_cols g' - 1))) s
                              ++ nl)%string)
              (last_n (Z.to_nat (Z.max 0 (term_rows g' - 19)))
                      ["boot"; "ready"]%string).
Proof.
  cbv zeta.
  match goal with |- exists g' l' out front, ?call = _ /\ _ =>
    destruct call as [g' l' out| | |] eqn:E; try (vm_compute in E; discriminate)
  end.
  destruct (appended_lines_reach_the_frame _ _ _ _ _ _ [] ["boot"; "ready"]%string E)
    as (Hheld & front & Hout);
    [reflexivity|exact empty_log_holds|reflexivity| |].
  - repeat constructor; cbn; lia.
  - exists g', l', out, front. split; [reflexivity|]. split; [exact Hheld|exact Hout].
Defined.

(** ** The samplers on sound counters *)

Lemma double_of_Z_positive (p : Z) :
  0 < p < 2 ^ 64 -> positive_finite (double_of_Z p).
Proof.
  intros Hp. destruct (double_of_Z_spec p Hp) as (M & E & -> & _).
  eexists. eexists. reflexivity.
Qed.

Lemma percent_of_nothing (den : Z) :
  0 < den < 2 ^ 64 -> percent_of 0 den = Ok d_zero [double_of_Z den].
Proof.
  intros Hd. unfold percent_of, div_logged, bind, ret. cbn [app].
  destruct (double_of_Z_spec den Hd) as (Md & Ed & -> & _). reflexivity.
Qed.

Lemma percent_of_whole (n : Z) :
  0 < n < 2 ^ 64 -> percent_of n n = Ok d_100 [double_of_Z n].
Proof.
  intros Hn. unfold percent_of, div_logged, bind, ret. cbn [app].
  destruct (double_of_Z_spec n Hn) as (M & E & -> & HM & HE & _).
  pose proof (ddiv_spec (Z.to_pos M) (Z.to_pos M) E E) as Hdiv.
  rewrite !Z2Pos.id in Hdiv by lia.
  specialize (Hdiv HM HM ltac:(lia) ltac:(lia)). cbv zeta in Hdiv.
  assert (Hq : M * 2 ^ 53 / M = 2 ^ 53) by (rewrite Z.mul_comm; apply Z.div_mul; lia).
  assert (Hr : (M * 2 ^ 53) mod M = 0) by (rewrite Z.mul_comm; apply Z.mod_mul; lia).
  rewrite Hq, Hr in Hdiv.
  change (Z.log2 (2 ^ 53) - 52) with 1 in Hdiv.
  change (2 ^ 53 / 2 ^ 1) with (2 ^ 52) in Hdiv.
  change (2 ^ 53 mod 2 ^ 1) with 0 in Hdiv.
  destruct Hdiv as (_ & Mq & Eq & m2 & -> & HMq & _ & Hexact & Hcase).
  specialize (Hexact eq_refl eq_refl). subst m2.
  assert (Hres : Mq = 2 ^ 52 /\ Eq = -52) by lia.
  destruct Hres as [-> ->]. reflexivity.
Qed.

(** X10.  [get_cpu_usage] never divides by zero: whatever [/proc/stat] held
    and whatever [*prev] held, counters running backwards or wrapping
    included, it divides twice by the same positive finite double or not at
    all. *)
Theorem get_cpu_usage_never_divides_by_zero (r : cpu_read) (uninit prev : cpu_stats)
    (v : double * cpu_stats * double) (divs : list double) :
  get_cpu_usage r uninit prev = Ok v divs ->
  Forall positive_finite divs /\
  (divs = [] \/ exists d, divs = [d; d]).
Proof.
  destruct r as [|vals]; [discriminate|].
  unfold get_cpu_usage, get_cpu_stats, percent_of, div_logged, bind, ret.
  cbn [app].
  destruct (Z.gtb_spec (cpu_diff_total prev (store_cpu vals uninit)) 0) as [Hp|Hz];
    intros H; inversion H; subst.
  - pose proof (u64_range (cpu_total (store_cpu vals uninit) - cpu_total prev)) as Hr.
    fold (cpu_diff_total prev (store_cpu vals uninit)) in Hr.
    pose proof (double_of_Z_positive _ (conj Hp (proj2 Hr))) as Hpos.
    split; [repeat constructor; exact Hpos|]. right. eexists. reflexivity.
  - split; [constructor|]. left. reflexivity.
Qed.

Lemma get_cpu_usage_never_divides_by_zero_witness :
  Forall positive_finite [double_of_Z 100; double_of_Z 100] /\
  ([double_of_Z 100; double_of_Z 100] = [] \/
   exists d, [double_of_Z 100; double_of_Z 100] = [d; d]).
Proof.
  refine (get_cpu_usage_never_divides_by_zero
            (CpuScanned [130; 2; 30; 4060; 60; 6; 7; 8]) zero_cpu_stats
            (mk_cpu_stats 100 2 30 4000 50 6 7 8)
            (dmul (ddiv (double_of_Z 30) (double_of_Z 100)) d_100,
             mk_cpu_stats 130 2 30 4060 60 6 7 8,
             dmul (ddiv (double_of_Z 10) (double_of_Z 100)) d_100) _ _).
  reflexivity.
Defined.

(** X11.  At the ends of the scale the percentages of [get_cpu_usage] are
    exact.  With a positive total delta, a zero idle delta gives a busy
    percentage of exactly 100.0 and an idle delta equal to the total delta
    one of exactly 0.0; a zero iowait delta gives an iowait percentage of
    exactly 0.0 and one equal to the total delta exactly 100.0. *)
Theorem cpu_percentages_exact_at_the_ends (vals : list Z) (uninit prev : cpu_stats) :
  let cur := store_cpu vals uninit in
  0 < cpu_diff_total prev cur ->
  exists (busy io : double) (divs : list double),
    get_cpu_usage (CpuScanned vals) uninit prev = Ok (busy, cur, io) divs /\
    (cpu_diff_idle prev cur = 0 -> busy = d_100) /\
    (cpu_diff_idle prev cur = cpu_diff_total prev cur -> busy = d_zero) /\
    (cpu_diff_iowait prev cur = 0 -> io = d_zero) /\
    (cpu_diff_iowait prev cur = cpu_diff_total prev cur -> io = d_100).
Proof.
  intros cur Hp.
  pose proof (u64_range (cpu_total cur - cpu_total prev)) as Hr.
  fold (cpu_diff_total prev cur) in Hr.
  assert (Hd : 0 < cpu_diff_total prev cur < 2 ^ 64) by lia.
  unfold get_cpu_usage, get_cpu_stats. cbn [bind ret]. fold cur.
  destruct (Z.gtb_spec (cpu_diff_total prev cur) 0) as [_|Hz]; [|lia].
  unfold percent_of at 1 2. unfold div_logged, bind, ret. cbn [app].
  eexists. eexists. eexists. split; [reflexivity|].
  split; [|split; [|split]]; intros E.
  - rewrite E, Z.sub_0_r, (u64_small _ (conj (Z.lt_le_incl _ _ Hp) (proj2 Hr))).
    pose proof (percent_of_whole _ Hd) as Hw.
    unfold percent_of, div_logged, bind, ret in Hw. cbn [app] in Hw. congruence.
  - rewrite E, Z.sub_diag.
    pose proof (percent_of_nothing _ Hd) as Hw.
    unfold percent_of, div_logged, bind, ret in Hw. cbn [app] in Hw.
    change (u64 0) with 0. congruence.
  - rewrite E.
    pose proof (percent_of_nothing _ Hd) as Hw.
    unfold percent_of, div_logged, bind, ret in Hw. cbn [app] in Hw. congruence.
  - rewrite E.
    pose proof (percent_of_whole _ Hd) as Hw.
    unfold percent_of, div_logged, bind, ret in Hw. cbn [app] in Hw. congruence.
Qed.

Lemma cpu_percentages_exact_at_the_ends_witness :
  exists (busy io : double) (divs : list double),
    get_cpu_usage (CpuScanned [150; 2; 30; 4000; 50; 6; 7; 8]) zero_cpu_stats
                  (mk_cpu_stats 100 2 30 4000 50 6 7 8)
    = Ok (busy, mk_cpu_stats 150 2 30 4000 50 6 7 8, io) divs /\
    busy = d_100 /\ io = d_zero.
Proof.
  destruct (cpu_percentages_exact_at_the_ends
              [150; 2; 30; 4000; 50; 6; 7; 8] zero_cpu_stats
              (mk_cpu_stats 100 2 30 4000 50 6 7 8))
    as (busy & io & divs & Hrun & Hfull & _ & Hnone & _); [reflexivity|].
  exists busy, io, divs. split; [exact Hrun|].
  split; [exact (Hfull eq_refl)|exact (Hnone eq_refl)].
Defined.

(** X12.  A scan of [/proc/stat] that converts all eight counters makes the
    result of [get_cpu_usage] independent of what its local snapshot held
    before; after a scan that converts fewer, the fields not converted, the
    last one at least, are what the uninitialised local held, in the
    snapshot stored to [*prev] too. *)
Theorem short_stat_scan_uses_uninitialised_fields (vals : list Z)
    (u1 u2 prev : cpu_stats) :
  ((8 <= length vals)%nat ->
   get_cpu_usage (CpuScanned vals) u1 prev = get_cpu_usage (CpuScanned vals) u2 prev) /\
  ((length vals < 8)%nat ->
   steal (store_cpu vals u1) = steal u1 /\
   exists cpu io divs,
     get_cpu_usage (CpuScanned vals) u1 prev = Ok (cpu, store_cpu vals u1, io) divs).
Proof.
  split.
  - intros Hlen.
    assert (Hst : store_cpu vals u1 = store_cpu vals u2).
    { do 8 (destruct vals as [|? vals]; [cbn in Hlen; lia|]). reflexivity. }
    unfold get_cpu_usage, get_cpu_stats. cbn [bind ret]. rewrite Hst. reflexivity.
  - intros Hlen. split.
    + unfold store_cpu. cbn [steal].
      rewrite (lookup_ge_None_2 vals 7) by lia. reflexivity.
    + unfold get_cpu_usage, get_cpu_stats, percent_of, div_logged, bind, ret.
      destruct (cpu_diff_total prev (store_cpu vals u1) >? 0);
        eexists; eexists; eexists; reflexivity.
Qed.

(** ** The memory sampler *)

Lemma mem_scan_step_other (v : mem_vars) (e : mem_entry) :
  known_key e = false -> mem_scan_step v e = v.
Proof.
  unfold known_key, mem_scan_step. intros H.
  repeat (apply orb_false_elim in H as [H ?]).
  repeat match goal with E : String.eqb _ _ = false |- _ => rewrite E; clear E end.
  reflexivity.
Qed.

Lemma mem_scan_filter (entries : list mem_entry) :
  forall v : mem_vars,
    fold_left mem_scan_step (List.filter known_key entries) v
    = fold_left mem_scan_step entries v.
Proof.
  induction entries as [|e es IH]; intros v; cbn; [reflexivity|].
  destruct (known_key e) eqn:E; cbn.
  - apply IH.
  - rewrite (mem_scan_step_other v e E). apply IH.
Qed.

(** X13.  [get_mem_usage] looks at six keys only: entries under any other
    key change nothing in its result.  A table without any of the six, the
    empty table included, leaves the totals at their initial 1 and the rest
    at 0, and the function reports 100.0 for memory and 100.0 for swap. *)
Theorem get_mem_usage_other_keys_and_defaults (entries : list mem_entry) :
  get_mem_usage (MemScanned entries)
  = get_mem_usage (MemScanned (List.filter known_key entries)) /\
  (forallb (fun e => negb (known_key e)) entries = true ->
   get_mem_usage (MemScanned entries)
   = Ok (d_100, d_100) [double_of_Z 1; double_of_Z 1]).
Proof.
  split.
  - unfold get_mem_usage. rewrite mem_scan_filter. reflexivity.
  - intros Hall.
    assert (Hfold : forall v, fold_left mem_scan_step entries v = v).
    { induction entries as [|e es IH]; intros v; cbn; [reflexivity|].
      cbn in Hall. apply andb_prop in Hall as [He Hes].
      apply negb_true_iff in He. rewrite (mem_scan_step_other v e He).
      apply IH, Hes. }
    unfold get_mem_usage. rewrite Hfold. reflexivity.
Qed.

(** X14.  On a sound table ([MemTotal] above zero, the free, buffer and cache
    figures summing to at most the total, [SwapFree] at most [SwapTotal],
    everything below 2^64) both percentages of [get_mem_usage] lie between
    0.0 and 100.0, no division is by zero, and the memory percentage is
    within 5 * 2^-52, relatively, of 100 * used / total. *)
Theorem mem_percentages_within_bounds (entries : list mem_entry) :
  let v := fold_left mem_scan_step entries mem_vars_init in
  let used := mem_total v - mem_free v - buffers v - cached v in
  0 <= mem_free v -> 0 <= buffers v -> 0 <= cached v ->
  0 <= used -> 0 < mem_total v < 2 ^ 64 ->
  0 <= swap_free v <= swap_total v -> swap_total v < 2 ^ 64 ->
  exists (mem swap_pct : double) (divs : list double),
    get_mem_usage (MemScanned entries) = Ok (mem, swap_pct) divs /\
    Forall positive_finite divs /\
    dleb d_zero mem = true /\ dleb mem d_100 = true /\
    dleb d_zero swap_pct = true /\ dleb swap_pct d_100 = true /\
    (Rabs (double_to_R mem - 100 * (IZR used / IZR (mem_total v)))
     <= 100 * (IZR used / IZR (mem_total v)) * (5 * bpow (-52)))%R.
Proof.
  intros v used Hf Hb Hc Hu Ht Hs Hst.
  unfold get_mem_usage. fold v. fold used.
  assert (Hused : u64 used = used) by (apply u64_small; lia).
  rewrite Hused.
  destruct (percent_of_spec used (mem_total v) ltac:(lia) Ht)
    as (mem & Em & Hm0 & Hm100 & Herr).
  rewrite Em.
  pose proof (double_of_Z_positive _ Ht) as Hpos.
  destruct (Z.gtb_spec (swap_total v) 0) as [Hsp|Hsz].
  - rewrite (u64_small (swap_total v - swap_free v)) by lia.
    destruct (percent_of_spec (swap_total v - swap_free v) (swap_total v)
                ltac:(lia) ltac:(lia))
      as (sw & Es & Hs0 & Hs100 & _).
    rewrite Es. unfold bind, ret. cbn [app].
    exists mem, sw. eexists. split; [reflexivity|].
    split; [|auto 10].
    repeat constructor; [apply double_of_Z_positive; lia|exact Hpos].
  - unfold bind, ret. cbn [app].
    exists mem, d_zero. eexists. split; [reflexivity|].
    split; [repeat constructor; exact Hpos|]. auto 10.
Qed.

Lemma mem_percentages_within_bounds_witness :
  exists (mem swap_pct : double) (divs : list double),
    get_mem_usage (MemScanned sample_meminfo) = Ok (mem, swap_pct) divs /\
    Forall positive_finite divs /\
    dleb d_zero mem = true /\ dleb mem d_100 = true /\
    dleb d_zero swap_pct = true /\ dleb swap_pct d_100 = true /\
    (Rabs (double_to_R mem - 100 * (IZR 4000 / IZR 8000))
     <= 100 * (IZR 4000 / IZR 8000) * (5 * bpow (-52)))%R.
Proof.
  apply (mem_percentages_within_bounds sample_meminfo); cbn; lia.
Defined.

(** ** From a percentage to a number of cells *)

Lemma ddiv_100_at_most_one (M E : Z) :
  2 ^ 52 <= M < 2 ^ 53 -> -200 <= E -> at_most_100 M E ->
  exists Mq Eq : Z,
    ddiv (S754_finite false (Z.to_pos M) E) d_100
    = S754_finite false (Z.to_pos Mq) Eq /\
    2 ^ 52 <= Mq < 2 ^ 53 /\ -300 <= Eq /\ at_most_one Mq Eq.
Proof.
  intros HM HE H100. unfold at_most_100 in H100.
  pose proof (ddiv_spec (Z.to_pos M) 7036874417766400%positive E (-46)) as Hd.
  rewrite Z2Pos.id in Hd by lia.
  specialize (Hd HM ltac:(lia) ltac:(lia) ltac:(lia)). cbv zeta in Hd.
  destruct Hd as (Hn & Mq & Eq & m2 & Hres & HMq & Hc & Hexact & Hform).
  set (q := M * 2 ^ 53 / Z.pos 7036874417766400) in *.
  set (r := (M * 2 ^ 53) mod Z.pos 7036874417766400) in *.
  set (n := Z.log2 q - 52) in *.
  exists Mq, Eq. split; [exact Hres|]. split; [exact HMq|]. split; [lia|].
  unfold at_most_one.
  destruct H100 as [Hlt|[Heq Hm]]; [lia|].
  destruct (Z.eq_dec M 7036874417766400) as [Em|Nm].
  - assert (Hq : q = 2 ^ 53) by (unfold q; rewrite Em; reflexivity).
    assert (Hr : r = 0) by (unfold r; rewrite Em; reflexivity).
    assert (Hn1 : n = 1) by (unfold n; rewrite Hq; reflexivity).
    rewrite Hn1, Hq in *. specialize (Hexact Hr eq_refl).
    change (2 ^ 53 / 2 ^ 1) with (2 ^ 52) in Hexact. lia.
  - assert (Hq : q < 2 ^ 53).
    { unfold q. apply Z.div_lt_upper_bound; [lia|]. lia. }
    assert (Hq2 : 2 ^ 52 <= q).
    { unfold q. apply Z.div_le_lower_bound; [lia|]. lia. }
    assert (Hn0 : n = 0).
    { unfold n. replace (Z.log2 q) with 52; [reflexivity|].
      symmetry. apply log2_bounds; lia. }
    rewrite Hn0 in *. lia.
Qed.

(** The product of a double of at most 1.0 and a positive double is at
    most that double, and is that double when the factor is 1.0. *)
Lemma dmul_at_most (Mq Eq Mn En : Z) :
  2 ^ 52 <= Mq < 2 ^ 53 -> 2 ^ 52 <= Mn < 2 ^ 53 ->
  -300 <= Eq -> at_most_one Mq Eq -> -52 <= En <= 12 ->
  exists M' E' : Z,
    dmul (S754_finite false (Z.to_pos Mq) Eq) (S754_finite false (Z.to_pos Mn) En)
    = S754_finite false (Z.to_pos M') E' /\
    2 ^ 52 <= M' < 2 ^ 53 /\ E' <= En /\ (E' = En -> M' <= Mn) /\
    (Mq = 2 ^ 52 -> Eq = -52 -> M' = Mn /\ E' = En).
Proof.
  intros HMq HMn HEq Hone HEn.
  set (P := Mq * Mn).
  assert (HP : 2 ^ 104 <= P < 2 ^ 106) by (unfold P; nia).
  assert (Hlog : 104 <= Z.log2 P < 106).
  { split; [apply Z.log2_le_pow2; lia | apply Z.log2_lt_pow2; lia]. }
  set (k := Z.log2 P - 52).
  unfold dmul, SFmul, dprec, demax. cbn [xorb].
  rewrite Pos2Z.inj_mul, !Z2Pos.id by lia. fold P.
  assert (HEq2 : Eq <= -52) by (unfold at_most_one in Hone; lia).
  destruct (binary_round_aux_normal P (Eq + En) loc_Exact)
    as (m2 & Hc & Hexact & _ & Hres); try (fold k; lia).
  fold k in Hc, Hexact, Hres. rewrite Hres.
  pose proof (shifted_mantissa_bounds P ltac:(lia)) as Hb. fold k in Hb.
  assert (Hm2 : (Eq < -52 -> k = 53 -> m2 <= Mn) /\
                (Mq = 2 ^ 52 -> k = 52 /\ m2 = Mn)).
  { split.
    - intros _ Hk. rewrite Hk in *.
      assert (P / 2 ^ 53 < Mn) by (apply Z.div_lt_upper_bound; [lia|unfold P; nia]).
      lia.
    - intros HMq2.
      assert (HP2 : P = Mn * 2 ^ 52) by (unfold P; rewrite HMq2; lia).
      assert (Hk : k = 52).
      { unfold k. replace (Z.log2 P) with 104; [reflexivity|].
        symmetry. apply log2_bounds; lia. }
      split; [exact Hk|]. rewrite Hk in *.
      assert (Hz : P mod 2 ^ 52 = 0) by (rewrite HP2; apply Z.mod_mul; lia).
      rewrite (Hexact eq_refl Hz), HP2. apply Z.div_mul. lia. }
  destruct Hm2 as [Hlow Hone1].
  destruct (Z.ltb_spec m2 (2 ^ 53)) as [Hlt|Hge].
  - exists m2, (Eq + En + k). split; [reflexivity|]. split; [lia|].
    destruct Hone as [Hlt1|[-> ->]].
    + split; [unfold k; lia|]. split.
      * intros Hk. apply Hlow; [exact Hlt1|unfold k in *; lia].
      * intros HMq2 HEq3. lia.
    + destruct (Hone1 eq_refl) as [Hk ->]. rewrite Hk.
      split; [lia|]. split; [lia|]. intros _ _. split; [reflexivity|lia].
  - exists (2 ^ 52), (Eq + En + k + 1). split; [reflexivity|]. split; [lia|].
    destruct Hone as [Hlt1|[-> ->]].
    + destruct (Z.eq_dec k 53) as [Hk|Hk].
      * specialize (Hlow Hlt1 Hk). lia.
      * split; [unfold k in *; lia|]. split; [lia|]. intros HMq2 HEq3. lia.
    + destruct (Hone1 eq_refl) as [Hk ->]. lia.
Qed.

(** [(int)x] for a positive double that is at most the integer [n]. *)
Lemma double_to_int_at_most (M' E' Mn En n : Z) :
  2 ^ 52 <= M' < 2 ^ 53 -> 2 ^ 52 <= Mn < 2 ^ 53 ->
  E' <= En -> (E' = En -> M' <= Mn) ->
  -52 <= En -> Mn * 2 ^ (En + 52) = n * 2 ^ 52 -> 0 < n <= INT_MAX ->
  0 <= double_to_int (S754_finite false (Z.to_pos M') E') <= n /\
  (M' = Mn -> E' = En -> double_to_int (S754_finite false (Z.to_pos M') E') = n).
Proof.
  intros HM' HMn HE Hm HEn Hn Hrange. unfold INT_MAX in Hrange.
  assert (HX : 0 < 2 ^ (En + 52)) by (apply Z.pow_pos_nonneg; lia).
  assert (HEn2 : En + 52 < 31).
  { apply (Z.pow_lt_mono_r_iff 2); [lia|lia|].
    change (2 ^ 31) with 2147483648. nia. }
  set (a := - E'). set (d := En - E').
  assert (Ha : 0 < a) by (unfold a; lia).
  assert (HA : 0 < 2 ^ a) by (apply Z.pow_pos_nonneg; lia).
  assert (HD : 1 <= 2 ^ d) by (apply (Z.pow_le_mono_r 2 0 d); unfold d; lia).
  assert (HAX : 2 ^ a * 2 ^ (En + 52) = 2 ^ 52 * 2 ^ d).
  { rewrite <- !Z.pow_add_r by (unfold a, d; lia). f_equal. unfold a, d. lia. }
  assert (HnA : n * 2 ^ a = Mn * 2 ^ d).
  { apply (Z.mul_cancel_r _ _ (2 ^ (En + 52))); [lia|].
    rewrite <- !Z.mul_assoc, HAX.
    rewrite (Z.mul_comm (2 ^ d) (2 ^ (En + 52))), !Z.mul_assoc, Hn. ring. }
  assert (HMD : M' <= Mn * 2 ^ d).
  { destruct (Z.eq_dec E' En) as [Ee|Ne].
    - assert (d = 0) by (unfold d; lia). replace (2 ^ d) with 1 by (subst d; now rewrite H).
      specialize (Hm Ee). lia.
    - assert (2 <= 2 ^ d) by (apply (Z.pow_le_mono_r 2 1 d); unfold d; lia). nia. }
  assert (Hv : 0 <= M' / 2 ^ a <= n).
  { split; [apply Z.div_pos; lia|].
    apply Z.lt_succ_r. apply Z.div_lt_upper_bound; [lia|]. nia. }
  assert (Hto : double_to_int (S754_finite false (Z.to_pos M') E') = M' / 2 ^ a).
  { unfold double_to_int. destruct E' as [|p|p]; try lia.
    rewrite Z2Pos.id by lia. rewrite Z.shiftr_div_pow2 by lia.
    change (- Z.neg p) with (Z.pos p) in a. fold a.
    unfold INT_MIN, INT_MAX.
    destruct (Z.leb_spec (- 2 ^ 31) (M' / 2 ^ a)); [|lia].
    destruct (Z.leb_spec (M' / 2 ^ a) (2 ^ 31 - 1)); [reflexivity|lia]. }
  rewrite Hto. split; [exact Hv|].
  intros -> ->. assert (Hd0 : d = 0) by (unfold d; lia).
  rewrite Hd0, Z.mul_1_r in HnA. rewrite <- HnA. apply Z.div_mul. lia.
Qed.

Lemma double_of_Z_small (n : Z) :
  0 < n <= INT_MAX ->
  exists Mn En : Z,
    double_of_Z n = S754_finite false (Z.to_pos Mn) En /\
    2 ^ 52 <= Mn < 2 ^ 53 /\ -52 <= En <= 12 /\
    Mn * 2 ^ (En + 52) = n * 2 ^ 52.
Proof.
  unfold INT_MAX. intros Hn.
  destruct (double_of_Z_spec n ltac:(lia)) as (Mn & En & E & HM & HE & HW).
  exists Mn, En. split; [exact E|]. split; [exact HM|]. split; [exact HE|].
  rewrite HW. unfold round_u64.
  destruct (Z.ltb_spec n (2 ^ 53)); [reflexivity|lia].
Qed.

Lemma scale_percent_value (p : double) (n : Z) :
  percent_value p -> 0 < n <= INT_MAX ->
  0 <= scale_percent p n <= n.
Proof.
  intros Hp Hn. unfold scale_percent.
  destruct (double_of_Z_small n Hn) as (Mn & En & -> & HMn & HEn & HW).
  destruct Hp as [->|(M & E & -> & HM & HE & H100)].
  - cbn. lia.
  - destruct (ddiv_100_at_most_one M E HM HE H100)
      as (Mq & Eq & -> & HMq & HEq & Hone).
    destruct (dmul_at_most Mq Eq Mn En HMq HMn HEq Hone HEn)
      as (M' & E' & -> & HM' & HE' & Hm & _).
    exact (proj1 (double_to_int_at_most M' E' Mn En n HM' HMn HE' Hm
                    (proj1 HEn) HW Hn)).
Qed.

Lemma scale_percent_100 (n : Z) :
  0 < n <= INT_MAX -> scale_percent d_100 n = n.
Proof.
  intros Hn. unfold scale_percent.
  destruct (double_of_Z_small n Hn) as (Mn & En & -> & HMn & HEn & HW).
  change (ddiv d_100 d_100) with (S754_finite false (Z.to_pos (2 ^ 52)) (-52)).
  destruct (dmul_at_most (2 ^ 52) (-52) Mn En ltac:(lia) HMn ltac:(lia)
              ltac:(right; split; reflexivity) HEn)
    as (M' & E' & -> & HM' & HE' & Hm & Hex).
  destruct (Hex eq_refl eq_refl) as [-> ->].
  exact (proj2 (double_to_int_at_most Mn En Mn En n HMn HMn ltac:(lia)
                  ltac:(lia) (proj1 HEn) HW Hn) eq_refl eq_refl).
Qed.

Lemma percent_of_value (num den : Z) :
  0 <= num <= den -> 0 < den < 2 ^ 64 ->
  exists r : double,
    percent_of num den = Ok r [double_of_Z den] /\ percent_value r.
Proof.
  intros Hn Hd.
  destruct (Z.eq_dec num 0) as [->|Hnz].
  - exists d_zero. split; [apply percent_of_nothing, Hd|left; reflexivity].
  - unfold percent_of, div_logged, bind, ret. cbn [app].
    eexists. split; [reflexivity|]. right.
    assert (Hnum : 0 < num < 2 ^ 64) by lia.
    destruct (double_of_Z_spec num Hnum) as (Mn & En & -> & HMn & HEn & HWn).
    destruct (double_of_Z_spec den Hd) as (Md & Ed & -> & HMd & HEd & HWd).
    pose proof (round_u64_mono num den ltac:(lia)) as Hmono.
    assert (Hord : En < Ed \/ (En = Ed /\ Mn <= Md)).
    { apply canonical_order; lia. }
    destruct (ddiv_at_most_one (Z.to_pos Mn) (Z.to_pos Md) En Ed)
      as (Mq & Eq & -> & HMq & HEq & Hone); rewrite ?Z2Pos.id by lia; try lia.
    assert (HEq2 : Eq <= -52) by (unfold at_most_one in Hone; lia).
    destruct (dmul_100_spec Mq Eq HMq ltac:(lia))
      as (Hk & Mp & Ep & m2 & Hres & HMp & _ & _ & Hform).
    destruct (dmul_100_at_most_100 Mq Eq HMq HEq Hone)
      as (Mp' & Ep' & Hres' & HMp' & H100).
    rewrite Hres. exists Mp, Ep. split; [reflexivity|]. split; [exact HMp|].
    split; [lia|].
    rewrite Hres in Hres'. inversion Hres' as [[Hmant Hexp]].
    apply Z2Pos.inj in Hmant; [|lia|lia]. subst Mp' Ep'. exact H100.
Qed.

(** X15.  A percentage computed as [(double)num / den * 100.0] from a
    numerator within its divisor fills a whole number of cells between 0
    and the width: [(int)(percent / 100.0 * width)] lies between 0 and
    [width] for every width an [int] can hold, the conversion to [int] never
    leaves its range, all cells are filled when the numerator is the
    divisor and none when it is 0. *)
Theorem percentage_fills_within_the_width (num den width : Z) :
  0 <= num <= den -> 0 < den < 2 ^ 64 -> 0 < width <= INT_MAX ->
  exists r : double,
    percent_of num den = Ok r [double_of_Z den] /\
    0 <= scale_percent r width <= width /\
    (num = den -> scale_percent r width = width) /\
    (num = 0 -> scale_percent r width = 0).
Proof.
  intros Hn Hd Hw.
  destruct (percent_of_value num den Hn Hd) as (r & Hr & Hv).
  exists r. split; [exact Hr|]. split; [exact (scale_percent_value r width Hv Hw)|].
  split.
  - intros ->. rewrite (percent_of_whole den Hd) in Hr. inversion Hr; subst r.
    apply scale_percent_100, Hw.
  - intros ->. rewrite (percent_of_nothing den Hd) in Hr. inversion Hr; subst r.
    unfold scale_percent. destruct (double_of_Z_small width Hw) as (Mn & En & -> & _).
    reflexivity.
Qed.

Lemma percentage_fills_within_the_width_witness :
  exists r : double,
    percent_of 30 100 = Ok r [double_of_Z 100] /\
    0 <= scale_percent r 50 <= 50 /\
    (30 = 100 -> scale_percent r 50 = 50) /\
    (30 = 0 -> scale_percent r 50 = 0).
Proof.
  apply (percentage_fills_within_the_width 30 100 50); unfold INT_MAX; lia.
Defined.

(** X16.  The bottom row of the history graph carries no information: for
    samples that are percentages in range the cell at height 0 is the one
    drawn for both series, whatever the two values; a cell at a height
    above [HISTORY_HEIGHT] would never be drawn. *)
Theorem history_bottom_row_is_solid (c m : double) (row : Z) :
  percent_value c -> percent_value m ->
  shade 0 (c, m) = Text "▓"%string /\
  (HISTORY_HEIGHT < row -> shade row (c, m) = Text " "%string).
Proof.
  intros Hc Hm.
  pose proof (scale_percent_value c HISTORY_HEIGHT Hc
                ltac:(unfold HISTORY_HEIGHT, INT_MAX; lia)) as Bc.
  pose proof (scale_percent_value m HISTORY_HEIGHT Hm
                ltac:(unfold HISTORY_HEIGHT, INT_MAX; lia)) as Bm.
  unfold shade. cbn [fst snd]. split.
  - destruct (Z.geb_spec (scale_percent c HISTORY_HEIGHT) 0); [|lia].
    destruct (Z.geb_spec (scale_percent m HISTORY_HEIGHT) 0); [reflexivity|lia].
  - intros Hrow.
    destruct (Z.geb_spec (scale_percent c HISTORY_HEIGHT) row); [lia|].
    destruct (Z.geb_spec (scale_percent m HISTORY_HEIGHT) row); [lia|reflexivity].
Qed.

Lemma history_bottom_row_is_solid_witness :
  shade 0 (d_zero, d_100) = Text "▓"%string /\
  (HISTORY_HEIGHT < 11 -> shade 11 (d_zero, d_100) = Text " "%string).
Proof.
  apply history_bottom_row_is_solid.
  - left. reflexivity.
  - right. exists 7036874417766400, (-46). split; [reflexivity|].
    split; [lia|]. split; [lia|]. right. split; [reflexivity|lia].
Defined.

(** ** The bars and the history graph *)

Lemma map_const_seqZ {B} (f : Z -> B) (c : B) (m len : Z) :
  (forall i, m <= i < m + len -> f i = c) ->
  map f (seqZ m len) = replicate (Z.to_nat len) c.
Proof.
  intros Hf. apply list_eq. intros k.
  rewrite map_is_fmap, list_lookup_fmap.
  destruct (Z_lt_le_dec (Z.of_nat k) len) as [Hk|Hk].
  - rewrite lookup_seqZ_lt by exact Hk. cbn.
    rewrite (Hf (m + Z.of_nat k)) by lia.
    symmetry. apply lookup_replicate_2. lia.
  - rewrite lookup_seqZ_ge by exact Hk. cbn.
    symmetry. apply lookup_replicate_None. lia.
Qed.

Lemma scale_percent_ends (n : Z) :
  0 <= n <= INT_MAX ->
  scale_percent d_100 n = n /\ scale_percent d_zero n = 0.
Proof.
  intros Hn. destruct (Z.eq_dec n 0) as [->|Hnz]; [split; reflexivity|].
  split; [apply scale_percent_100; lia|].
  unfold scale_percent.
  destruct (double_of_Z_small n ltac:(lia)) as (Mn & En & -> & _). reflexivity.
Qed.

(** X17.  A bar is its opening, [graph_width] cells and its caption,
    whatever the percentage: the first cells are filled, as many as
    [(int)(percent / 100.0 * graph_width)] held between 0 and the width, the
    others are blank.  At 100.0 every cell is filled; at 0.0, and at the
    NaN that a zero [MemTotal] gives, none is. *)
Theorem draw_bar_cells (label : string) (percent : double) (g : globals) :
  0 <= graph_width g <= INT_MAX ->
  let filled := Z.min (Z.max 0 (scale_percent percent (graph_width g)))
                      (graph_width g) in
  draw_bar label percent g
  = [Text "┌> "%string] ++
    replicate (Z.to_nat filled) (Text "■"%string) ++
    replicate (Z.to_nat (graph_width g - filled)) (Text " "%string) ++
    bar_caption label percent /\
  (percent = d_100 -> filled = graph_width g) /\
  (percent = d_zero \/ percent = S754_nan -> filled = 0).
Proof.
  intros Hgw filled. split; [|split].
  - unfold draw_bar, bar_caption. f_equal. rewrite app_assoc. f_equal.
    assert (Hsplit : seqZ 0 (graph_width g)
                     = seqZ 0 filled ++ seqZ (0 + filled) (graph_width g - filled)).
    { rewrite <- seqZ_app by (subst filled; lia). f_equal. lia. }
    rewrite Hsplit, map_app. f_equal.
    + apply map_const_seqZ. intros i Hi.
      destruct (Z.ltb_spec i (scale_percent percent (graph_width g)));
        [reflexivity|subst filled; lia].
    + apply map_const_seqZ. intros i Hi.
      destruct (Z.ltb_spec i (scale_percent percent (graph_width g)));
        [subst filled; lia|reflexivity].
  - intros ->. subst filled.
    rewrite (proj1 (scale_percent_ends _ Hgw)). lia.
  - intros [-> | ->]; subst filled.
    + rewrite (proj2 (scale_percent_ends _ Hgw)). lia.
    + change (scale_percent S754_nan (graph_width g)) with INT_MIN.
      unfold INT_MIN. lia.
Qed.

Lemma draw_bar_cells_witness :
  draw_bar "cpu" d_100 initial_globals
  = [Text "┌> "%string] ++
    replicate (Z.to_nat 50) (Text "■"%string) ++
    replicate (Z.to_nat (50 - 50)) (Text " "%string) ++
    bar_caption "cpu" d_100.
Proof.
  pose proof (draw_bar_cells "cpu" d_100 initial_globals) as H.
  cbv zeta in H. specialize (H ltac:(cbn; unfold INT_MAX; lia)).
  destruct H as (Hdraw & Hfull & _).
  rewrite (Hfull eq_refl) in Hdraw. exact Hdraw.
Defined.

Lemma lookup_zip {A B} (xs : list A) (ys : list B) (k : nat) (x : A) (y : B) :
  xs !! k = Some x -> ys !! k = Some y -> zip xs ys !! k = Some (x, y).
Proof.
  revert ys k. induction xs as [|x0 xs IH]; intros [|y0 ys] [|k] Hx Hy;
    try discriminate; cbn in *.
  - congruence.
  - apply IH; assumption.
Qed.

(** X18.  The history graph is its title and [HISTORY_HEIGHT] + 1 rows, from
    height [HISTORY_HEIGHT] down to height 0; each row holds one cell for
    each of the newest [graph_width] samples of the two arrays, oldest
    first, so the rightmost column is the sample pushed last. *)
Theorem history_shows_newest_samples (g : globals) :
  0 <= graph_width g <= MAXW ->
  length (hist_cpu g) = Z.to_nat MAXW ->
  length (hist_mem g) = Z.to_nat MAXW ->
  draw_history g
  = Text ("History (CPU=█, RAM=░)" ++ nl)%string ::
    concat (map (fun row =>
                   map (shade row)
                       (last_n (Z.to_nat (graph_width g)) (samples g))
                   ++ [Text nl])
                [10; 9; 8; 7; 6; 5; 4; 3; 2; 1; 0]).
Proof.
  intros Hgw Hc Hm. unfold draw_history. f_equal. f_equal.
  change (reverse (seqZ 0 (HISTORY_HEIGHT + 1)))
    with [10; 9; 8; 7; 6; 5; 4; 3; 2; 1; 0].
  apply map_ext. intros row. f_equal.
  assert (Hlen : length (samples g) = Z.to_nat MAXW)
    by (unfold samples; rewrite length_zip; lia).
  apply list_eq. intros k. unfold last_n.
  rewrite !map_is_fmap, !list_lookup_fmap, lookup_drop, Hlen.
  destruct (Z_lt_le_dec (Z.of_nat k) (graph_width g)) as [Hk|Hk].
  - rewrite lookup_seqZ_lt by exact Hk. cbn.
    set (col := (Z.to_nat MAXW - Z.to_nat (graph_width g) + k)%nat).
    destruct (lookup_lt_is_Some_2 (hist_cpu g) col) as [c Ec];
      [subst col; unfold MAXW in *; lia|].
    destruct (lookup_lt_is_Some_2 (hist_mem g) col) as [m Em];
      [subst col; unfold MAXW in *; lia|].
    unfold samples. rewrite (lookup_zip _ _ _ _ _ Ec Em). cbn.
    unfold history_cell, shade, array_get. cbn [fst snd].
    replace (Z.to_nat (MAXW - graph_width g + Z.of_nat k)) with col
      by (subst col; unfold MAXW in *; lia).
    rewrite Ec, Em. reflexivity.
  - rewrite lookup_seqZ_ge by exact Hk. cbn.
    rewrite lookup_ge_None_2; [reflexivity|].
    rewrite Hlen. unfold MAXW in *. lia.
Qed.

Lemma history_shows_newest_samples_witness :
  draw_history initial_globals
  = Text ("History (CPU=█, RAM=░)" ++ nl)%string ::
    concat (map (fun row =>
                   map (shade row)
                       (last_n (Z.to_nat (graph_width initial_globals))
                               (samples initial_globals))
                   ++ [Text nl])
                [10; 9; 8; 7; 6; 5; 4; 3; 2; 1; 0]).
Proof.
  apply history_shows_newest_samples; [cbn; unfold MAXW; lia|reflexivity..].
Defined.

(** ** Power supplies: any directory *)

Lemma last_cons_default {A} (l : list A) :
  forall c d : A, List.last (c :: l) d = List.last l c.
Proof.
  induction l as [|x l IH]; intros c d; [reflexivity|].
  change (List.last (c :: x :: l) d) with (List.last (x :: l) d).
  rewrite (IH x d), (IH x c). reflexivity.
Qed.

Lemma first_pass_step_battery (s : power_scan) (d : device) :
  let s1 := power_first_pass_step s d in
  let c := read_sys_int (a_capacity d) in
  (is_battery d = true /\ found_battery s = false /\
   found_battery s1 = (c >=? 0) /\ battery_percent (ps_power s1) = c) \/
  ((is_battery d = false \/ found_battery s = true) /\
   found_battery s1 = found_battery s /\
   battery_percent (ps_power s1) = battery_percent (ps_power s)).
Proof.
  unfold is_battery, power_first_pass_step.
  destruct (dot_entry d); cbn [negb andb]; [right; auto|].
  destruct (read_type d) as [t|]; [|right; auto].
  destruct (String.eqb t "Battery"); cbn [andb].
  - destruct (found_battery s) eqn:Ef; cbn [negb].
    + right. split; [auto|].
      destruct (ac_marker d t && negb (found_ac s)); [|auto].
      destruct (read_sys_int (a_online d) >? 0); cbn; auto.
    + left. cbn.
      destruct (read_sys_int (a_capacity d) >=? 0); auto.
  - right. split; [auto|].
    destruct (ac_marker d t && negb (found_ac s)); [|auto].
    destruct (read_sys_int (a_online d) >? 0); cbn; auto.
Qed.

Lemma first_pass_battery_percent (ds : list device) :
  forall s : power_scan,
    battery_percent (ps_power (fold_left power_first_pass_step ds s))
    = if found_battery s then battery_percent (ps_power s)
      else match List.find (fun c => c >=? 0) (battery_readings ds) with
           | Some c => c
           | None => List.last (battery_readings ds) (battery_percent (ps_power s))
           end.
Proof.
  induction ds as [|d ds IH]; intros s; cbn [fold_left].
  - unfold battery_readings. cbn. destruct (found_battery s); reflexivity.
  - rewrite IH.
    destruct (first_pass_step_battery s d)
      as [(Hb & Hf & Hf1 & Hp1)|(Hcase & Hf1 & Hp1)];
      cbv zeta in Hf1, Hp1; rewrite Hf1, Hp1.
    + rewrite Hf. unfold battery_readings. cbn [List.filter]. rewrite Hb.
      cbn [map List.find].
      destruct (read_sys_int (a_capacity d) >=? 0); [reflexivity|].
      destruct (List.find _ _); [reflexivity|].
      rewrite last_cons_default. reflexivity.
    + destruct (found_battery s) eqn:Ef; [reflexivity|].
      destruct Hcase as [Hb|Hb]; [|discriminate].
      unfold battery_readings. cbn [List.filter]. rewrite Hb. reflexivity.
Qed.

Lemma first_pass_on_ac (ds : list device) :
  forall s : power_scan,
    (on_ac (ps_power s) = 0 \/ on_ac (ps_power s) = 1) ->
    (found_ac s = true -> on_ac (ps_power s) = 1) ->
    let s' := fold_left power_first_pass_step ds s in
    (on_ac (ps_power s') = 0 \/ on_ac (ps_power s') = 1) /\
    (found_ac s' = true -> on_ac (ps_power s') = 1) /\
    (found_ac s = true -> found_ac s' = true).
Proof.
  induction ds as [|d ds IH]; intros s H01 Hac; cbn [fold_left].
  - cbv zeta. tauto.
  - assert (Hstep : let s1 := power_first_pass_step s d in
                    (on_ac (ps_power s1) = 0 \/ on_ac (ps_power s1) = 1) /\
                    (found_ac s1 = true -> on_ac (ps_power s1) = 1) /\
                    (found_ac s = true -> found_ac s1 = true)).
    { unfold power_first_pass_step.
      destruct (dot_entry d); [cbv zeta; tauto|].
      destruct (read_type d) as [t|]; [|cbv zeta; tauto].
      destruct (String.eqb t "Battery" && negb (found_battery s));
        [cbn; tauto|].
      destruct (ac_marker d t && negb (found_ac s)); [|cbv zeta; tauto].
      destruct (read_sys_int (a_online d) >? 0); cbn; tauto. }
    cbv zeta in Hstep. destruct Hstep as (S1 & S2 & S3).
    destruct (IH _ S1 S2) as (I1 & I2 & I3). cbv zeta. tauto.
Qed.

Lemma second_pass_keeps (ds : list device) (p p' : power_status_t)
    (divs : list double) :
  power_second_pass ds p = Ok p' divs ->
  battery_percent p' = battery_percent p /\
  (on_ac p' = on_ac p \/ on_ac p' = 1).
Proof.
  induction ds as [|d ds IH]; cbn [power_second_pass]; intros H.
  - inversion H; subst. tauto.
  - destruct (dot_entry d); [exact (IH H)|].
    destruct (a_type d) as [content|]; [|exact (IH H)].
    destruct (fgets_line 32 content) as [t|]; [|exact (IH H)].
    destruct (String.eqb t "Battery"); [|exact (IH H)].
    destruct (a_status d) as [status|]; [|discriminate].
    destruct (fgets_line 32 status) as [buf|]; [|inversion H; subst; tauto].
    destruct (String.eqb buf "Charging"); inversion H; subst; cbn; tauto.
Qed.

(** X19.  Whenever the power-supply directory opens and [parse_power_status]
    returns, it returns 0, [on_ac] is 0 or 1, and [battery_percent] is the
    capacity of the first battery, in directory order, whose capacity reads
    as a number that is not negative; batteries after it are not looked at.
    Without such a battery it is the reading of the last battery (-1 when
    its capacity cannot be read), and -1 without any battery. *)
Theorem first_readable_battery_is_reported (ds : list device)
    (dir2 : option (list device)) (rc : Z) (p : power_status_t)
    (divs : list double) :
  parse_power_status (Some ds) dir2 = Ok (rc, p) divs ->
  rc = 0 /\
  battery_percent p = reported_capacity ds /\
  (on_ac p = 0 \/ on_ac p = 1).
Proof.
  unfold parse_power_status. intros H.
  set (s0 := mk_power_scan (mk_power (-1) 0) false false) in *.
  pose proof (first_pass_battery_percent ds s0) as Hb. cbn in Hb.
  fold (reported_capacity ds) in Hb.
  destruct (first_pass_on_ac ds s0 ltac:(left; reflexivity) ltac:(discriminate))
    as (H01 & _ & _). cbv zeta in H01.
  set (s := fold_left power_first_pass_step ds s0) in *.
  assert (Hdirect : forall d, ret (0, ps_power s) = Ok (rc, p) d ->
                    rc = 0 /\ battery_percent p = reported_capacity ds /\
                    (on_ac p = 0 \/ on_ac p = 1)).
  { intros d E. inversion E; subst. auto. }
  destruct (negb (found_ac s) && found_battery s); [|exact (Hdirect _ H)].
  destruct dir2 as [ds2|]; [|exact (Hdirect _ H)].
  unfold bind in H.
  destruct (power_second_pass ds2 (ps_power s)) as [p2 d2| |] eqn:E2;
    try discriminate.
  destruct (second_pass_keeps _ _ _ _ E2) as (K1 & K2).
  cbn in H. inversion H; subst. split; [reflexivity|].
  split; [congruence|]. destruct K2 as [K2|K2]; [rewrite K2; exact H01|auto].
Qed.

Lemma first_readable_battery_is_reported_witness :
  let ds := [sample_adapter; sample_battery "Full";
             mk_device "BAT1" (Some ("Battery" ++ nl)%string)
                       (Some ("77" ++ nl)%string) None None] in
  reported_capacity ds = 42 /\
  exists p divs,
    parse_power_status (Some ds) (Some ds) = Ok (0, p) divs /\
    battery_percent p = reported_capacity ds /\
    (on_ac p = 0 \/ on_ac p = 1).
Proof.
  cbv zeta. split; [reflexivity|].
  match goal with |- exists p divs, ?call = _ /\ _ =>
    destruct call as [[rc p] divs| |] eqn:E; try (vm_compute in E; discriminate)
  end.
  destruct (first_readable_battery_is_reported _ _ _ _ _ E) as (-> & Hp & H01).
  exists p, divs. split; [reflexivity|]. split; assumption.
Defined.

(** X20.  An AC device that reads on line decides: when the directory holds
    an entry that is not hidden, whose type does not read ["Battery"], that
    carries an AC marker (type ["Mains"] or ["ADP1"], or a name with "ADP"
    or "AC" in it) and whose [online] attribute reads above 0, the call
    returns 0 with [on_ac] at 1, whatever the batteries report; the second
    pass over the directory is not made. *)
Theorem online_ac_adapter_sets_on_ac (before after : list device) (a : device)
    (t : string) (dir2 : option (list device)) :
  dot_entry a = false ->
  read_type a = Some t ->
  String.eqb t "Battery" = false ->
  ac_marker a t = true ->
  0 < read_sys_int (a_online a) ->
  parse_power_status (Some (before ++ a :: after)) dir2
  = Ok (0, mk_power (reported_capacity (before ++ a :: after)) 1) [].
Proof.
  intros Hdot Ht Hnb Hac Hon.
  set (ds := before ++ a :: after).
  set (s0 := mk_power_scan (mk_power (-1) 0) false false).
  pose proof (first_pass_battery_percent ds s0) as Hb. cbn in Hb.
  fold (reported_capacity ds) in Hb.
  assert (Hfound : found_ac (fold_left power_first_pass_step ds s0) = true /\
                   on_ac (ps_power (fold_left power_first_pass_step ds s0)) = 1).
  { subst ds. rewrite fold_left_app. cbn [fold_left].
    set (s1 := fold_left power_first_pass_step before s0).
    destruct (first_pass_on_ac before s0 ltac:(left; reflexivity) ltac:(discriminate))
      as (B1 & B2 & _). cbv zeta in B1, B2. fold s1 in B1, B2.
    assert (Hs2 : found_ac (power_first_pass_step s1 a) = true /\
                  on_ac (ps_power (power_first_pass_step s1 a)) = 1).
    { unfold power_first_pass_step. rewrite Hdot, Ht, Hnb, Hac. cbn [andb].
      destruct (found_ac s1) eqn:Ef; cbn [negb].
      - split; [exact Ef|exact (B2 eq_refl)].
      - destruct (Z.gtb_spec (read_sys_int (a_online a)) 0); [|lia].
        split; reflexivity. }
    destruct Hs2 as [F1 F2].
    destruct (first_pass_on_ac after (power_first_pass_step s1 a)
                ltac:(right; exact F2) ltac:(intros _; exact F2))
      as (_ & A2 & A3). cbv zeta in A2, A3.
    split; [exact (A3 F1)|exact (A2 (A3 F1))]. }
  destruct Hfound as [Hf Ho].
  unfold parse_power_status. fold s0. rewrite Hf. cbn [negb andb]. unfold ret.
  f_equal. f_equal.
  destruct (ps_power (fold_left power_first_pass_step ds s0)) as [bp oa].
  cbn in Hb, Ho. congruence.
Qed.

Lemma online_ac_adapter_sets_on_ac_witness :
  parse_power_status
    (Some ([sample_battery "Discharging"] ++ sample_adapter :: [])) None
  = Ok (0, mk_power
             (reported_capacity ([sample_battery "Discharging"]
                                 ++ sample_adapter :: [])) 1) [].
Proof.
  apply (online_ac_adapter_sets_on_ac [sample_battery "Discharging"] []
           sample_adapter "Mains"); try reflexivity.
Defined.

(** X21.  When the first pass has found a battery and no AC device on line,
    and the first battery the second pass meets has a [status] attribute
    that cannot be opened, [freopen] returns a null stream and the call goes
    on to [fclose] of it. *)
Theorem unreadable_battery_status_closes_null_stream (before after : list device)
    (b : device) :
  Forall (fun d => inert d = true) before ->
  Forall (fun d => inert d = true) after ->
  dot_entry b = false ->
  read_type b = Some "Battery"%string ->
  0 <= read_sys_int (a_capacity b) ->
  a_status b = None ->
  parse_power_status (Some (before ++ b :: after)) (Some (before ++ b :: after))
  = Crash.
Proof.
  intros Hbefore Hafter Hdot Ht Hcap Hst.
  unfold parse_power_status.
  rewrite fold_left_app, (first_pass_all_inert before _ Hbefore). cbn [fold_left].
  assert (Hstep : power_first_pass_step
                    (mk_power_scan (mk_power (-1) 0) false false) b
                  = mk_power_scan (mk_power (read_sys_int (a_capacity b)) 0)
                                  true false).
  { unfold power_first_pass_step. rewrite Hdot, Ht. cbn.
    destruct (Z.geb_spec (read_sys_int (a_capacity b)) 0); [reflexivity|lia]. }
  rewrite Hstep, (first_pass_all_inert after _ Hafter). cbn [found_ac found_battery negb andb ps_power].
  rewrite (second_pass_skips_inert before _ _ Hbefore).
  cbn [power_second_pass]. rewrite Hdot.
  unfold read_type in Ht. destruct (a_type b) as [content|]; [|discriminate].
  rewrite Ht. cbn. rewrite Hst. reflexivity.
Qed.

Lemma unreadable_battery_status_closes_null_stream_witness :
  let b := mk_device "BAT0" (Some ("Battery" ++ nl)%string)
                     (Some ("42" ++ nl)%string) None None in
  parse_power_status (Some ([] ++ b :: [])) (Some ([] ++ b :: [])) = Crash.
Proof.
  cbv zeta.
  apply (unreadable_battery_status_closes_null_stream [] []);
    try constructor; try reflexivity. vm_compute. discriminate.
Defined.

(** X22.  The charging status is read from the first battery of the
    directory, which need not be the battery whose capacity is reported.
    With a first battery whose capacity cannot be read, a second one whose
    capacity can, and no AC device, the call reports the capacity of the
    second battery and sets [on_ac] from the [status] of the first; the
    [status] of the second is never read. *)
Theorem charging_status_is_read_from_first_battery
    (before between after : list device) (b0 b1 : device) (status : string) :
  Forall (fun d => inert d = true) before ->
  Forall (fun d => inert d = true) between ->
  Forall (fun d => inert d = true) after ->
  dot_entry b0 = false -> read_type b0 = Some "Battery"%string ->
  dot_entry b1 = false -> read_type b1 = Some "Battery"%string ->
  read_sys_int (a_capacity b0) < 0 ->
  0 <= read_sys_int (a_capacity b1) ->
  a_status b0 = Some status ->
  let ds := before ++ b0 :: between ++ b1 :: after in
  parse_power_status (Some ds) (Some ds)
  = Ok (0, mk_power (read_sys_int (a_capacity b1))
                    (if reads_charging status then 1 else 0)) [].
Proof.
  intros Hbefore Hbetween Hafter Hd0 Ht0 Hd1 Ht1 Hc0 Hc1 Hst ds.
  unfold parse_power_status. subst ds.
  rewrite fold_left_app, (first_pass_all_inert before _ Hbefore). cbn [fold_left].
  assert (Hs0 : power_first_pass_step
                  (mk_power_scan (mk_power (-1) 0) false false) b0
                = mk_power_scan (mk_power (read_sys_int (a_capacity b0)) 0)
                                false false).
  { unfold power_first_pass_step. rewrite Hd0, Ht0. cbn.
    destruct (Z.geb_spec (read_sys_int (a_capacity b0)) 0); [lia|reflexivity]. }
  rewrite Hs0, fold_left_app, (first_pass_all_inert between _ Hbetween).
  cbn [fold_left].
  assert (Hs1 : power_first_pass_step
                  (mk_power_scan (mk_power (read_sys_int (a_capacity b0)) 0)
                                 false false) b1
                = mk_power_scan (mk_power (read_sys_int (a_capacity b1)) 0)
                                true false).
  { unfold power_first_pass_step. rewrite Hd1, Ht1. cbn.
    destruct (Z.geb_spec (read_sys_int (a_capacity b1)) 0); [reflexivity|lia]. }
  rewrite Hs1, (first_pass_all_inert after _ Hafter).
  cbn [found_ac found_battery negb andb ps_power].
  rewrite (second_pass_skips_inert before _ _ Hbefore).
  cbn [power_second_pass]. rewrite Hd0.
  unfold read_type in Ht0. destruct (a_type b0) as [content|]; [|discriminate].
  rewrite Ht0. cbn [String.eqb Ascii.eqb Bool.eqb]. rewrite Hst.
  unfold reads_charging.
  destruct (fgets_line 32 status) as [buf|]; [|reflexivity].
  destruct (String.eqb buf "Charging"); reflexivity.
Qed.

Lemma charging_status_is_read_from_first_battery_witness :
  let b0 := mk_device "BAT0" (Some ("Battery" ++ nl)%string) None None
                      (Some ("Charging" ++ nl)%string) in
  let b1 := mk_device "BAT1" (Some ("Battery" ++ nl)%string)
                      (Some ("80" ++ nl)%string) None
                      (Some ("Discharging" ++ nl)%string) in
  parse_power_status (Some ([] ++ b0 :: [] ++ b1 :: []))
                     (Some ([] ++ b0 :: [] ++ b1 :: []))
  = Ok (0, mk_power 80 1) [].
Proof.
  cbv zeta.
  apply (charging_status_is_read_from_first_battery [] [] []
           (mk_device "BAT0" (Some ("Battery" ++ nl)%string) None None
                      (Some ("Charging" ++ nl)%string))
           (mk_device "BAT1" (Some ("Battery" ++ nl)%string)
                      (Some ("80" ++ nl)%string) None
                      (Some ("Discharging" ++ nl)%string))
           ("Charging" ++ nl)%string);
    try constructor; try reflexivity. vm_compute. discriminate.
Defined.

(** ** The load sampler on a full parse, and startup *)

(** X23.  [parse_loadavg] returns 0 or -1, and 0 exactly when all six fields
    of the line convert; the snapshot is then the six values read, whatever
    it held before.  When the file cannot be opened or no line can be read
    the snapshot is left as it was. *)
Theorem parse_loadavg_succeeds_on_six_fields (r : load_read) (l : loadavg_t) :
  (fst (parse_loadavg r l) = 0 \/ fst (parse_loadavg r l) = -1) /\
  (fst (parse_loadavg r l) = 0 <->
   exists a b c ru t p,
     r = LoadLine (Scan6 a b c ru t p) /\
     snd (parse_loadavg r l) = mk_loadavg a b c ru t p) /\
  (r = LoadNoFile \/ r = LoadNoLine -> parse_loadavg r l = (-1, l)).
Proof.
  split; [|split].
  - destruct r as [| |[]]; cbn; auto.
  - split.
    + destruct r as [| |[]]; cbn; try discriminate.
      intros _. do 6 eexists. split; reflexivity.
    + intros (a & b & c & ru & t & p & -> & _). reflexivity.
  - intros [->| ->]; reflexivity.
Qed.

(** X24.  [main] ends before the loop, with status 1, exactly when the signal
    handler cannot be installed or [/proc/stat] cannot be opened; it runs
    into [fclose] of a null stream before the loop exactly when neither is
    the case and the first power enumeration does; in every other case it
    enters the loop.  It then has written one clear of the screen, with the
    history counter at 0, the resize flag up and an empty log buffer.  The
    tail is off when no path was given and also when the file cannot be
    opened; when it is on, the stream stands at the end of the file, so
    nothing the file held at startup is ever read.  The CPU snapshot is
    the one just read; a load average that cannot be read leaves the load
    figures at what the uninitialised local held. *)
Theorem main_startup_outcomes (inp : startup_input) :
  (forall c, main_startup inp = Exit c <->
             c = 1 /\ (su_sigaction_ok inp = false \/ su_cpu inp = CpuNoFile)) /\
  (main_startup inp = Crash <->
   su_sigaction_ok inp = true /\ su_cpu inp <> CpuNoFile /\
   parse_power_status (su_power1 inp) (su_power2 inp) = Crash) /\
  (su_sigaction_ok inp = true -> su_cpu inp <> CpuNoFile ->
   parse_power_status (su_power1 inp) (su_power2 inp) <> Crash ->
   exists g l divs, main_startup inp = Ok (g, l, [clear_screen]) divs) /\
  (forall g l out divs,
     main_startup inp = Ok (g, l, out) divs ->
     out = [clear_screen] /\ hist_counter l = 0 /\ resize_pending g = 1 /\
     log_contents (debug_lines g, debug_line_count g) = [] /\
     (dbg_fp g = None <-> su_argv1 inp = None \/ su_fopen inp = None) /\
     (forall fp, dbg_fp g = Some fp -> fp = mk_FILE "" false) /\
     (su_load inp = LoadNoFile \/ su_load inp = LoadNoLine ->
      loads l = su_uninit_loads inp) /\
     (forall vals, su_cpu inp = CpuScanned vals ->
        prev l = store_cpu vals (su_uninit_prev inp))).
Proof.
  unfold main_startup, install_winch_handler, get_cpu_stats.
  split; [|split; [|split]].
  - intros c.
    destruct (su_sigaction_ok inp); cbn [bind ret].
    + destruct (su_cpu inp) as [|vals]; cbn [bind ret].
      * split; [intros H; inversion H; auto|intros [-> _]; reflexivity].
      * pose proof (parse_power_status_never_exits (su_power1 inp) (su_power2 inp)) as Hne.
        destruct (parse_power_status _ _) as [[rc pw] d| |]; cbn.
        -- split; [discriminate|]. intros [_ [H|H]]; discriminate.
        -- now destruct (Hne code).
        -- split; [discriminate|]. intros [_ [H|H]]; discriminate.
    + split; [intros H; inversion H; auto|intros [-> _]; reflexivity].
  - destruct (su_sigaction_ok inp); cbn [bind ret].
    + destruct (su_cpu inp) as [|vals]; cbn [bind ret].
      * split; [discriminate|]. intros (_ & H & _). now destruct H.
      * destruct (parse_power_status _ _) as [[rc pw] d| |]; cbn.
        -- split; [discriminate|]. intros (_ & _ & H). discriminate.
        -- split; [discriminate|]. intros (_ & _ & H). discriminate.
        -- split; [intros _|reflexivity].
           split; [reflexivity|]. split; [discriminate|reflexivity].
    + split; [discriminate|]. intros (H & _). discriminate.
  - intros Hs Hc Hp. rewrite Hs. cbn [bind ret].
    destruct (su_cpu inp) as [|vals]; [now destruct Hc|]. cbn [bind ret].
    pose proof (parse_power_status_never_exits (su_power1 inp) (su_power2 inp)) as Hne.
    destruct (parse_power_status _ _) as [[rc pw] d| |]; cbn.
    + do 3 eexists. reflexivity.
    + now destruct (Hne code).
    + now destruct Hp.
  - intros g l out divs H.
    destruct (su_sigaction_ok inp); cbn [bind ret] in H; [|discriminate].
    destruct (su_cpu inp) as [|vals]; cbn [bind ret] in H; [discriminate|].
    destruct (parse_power_status _ _) as [[rc pw] d| |]; cbn in H;
      try discriminate.
    inversion H; subst; clear H.
    match goal with |- context [handle_winch ?ws ?g0] =>
      destruct (handle_winch_keeps ws g0) as (_ & _ & K3 & K4 & K5 & _ & K7 & _);
      cbv zeta in K3, K4, K5, K7
    end.
    rewrite K3, K4, K5, K7. cbn.
    split; [reflexivity|]. split; [reflexivity|]. split; [reflexivity|].
    split; [reflexivity|]. split; [|split; [|split]].
    + destruct (su_argv1 inp); destruct (su_fopen inp); cbn;
        split; auto; try discriminate; intros [E|E]; discriminate.
    + intros fp E. destruct (su_argv1 inp); [|discriminate].
      destruct (su_fopen inp); cbn in E; [|discriminate]. congruence.
    + intros [-> | ->]; reflexivity.
    + intros vals0 Hv. inversion Hv. reflexivity.
Qed.

Lemma main_startup_outcomes_witness :
  (exists g l out divs,
     main_startup sample_startup = Ok (g, l, out) divs /\
     out = [clear_screen] /\ hist_counter l = 0 /\ resize_pending g = 1 /\
     dbg_fp g = None) /\
  main_startup
    (mk_startup_input None None true (Some (80, 24)) (CpuScanned sample_cpu_vals)
       (LoadLine sample_loads)
       (Some [mk_device "BAT0" (Some ("Battery" ++ nl)%string)
                        (Some ("42" ++ nl)%string) None None])
       (Some [mk_device "BAT0" (Some ("Battery" ++ nl)%string)
                        (Some ("42" ++ nl)%string) None None])
       zero_cpu_stats zero_loads)
  = Crash.
Proof.
  split.
  - destruct (main_startup sample_startup) as [[[g l] out] divs| |] eqn:E;
      try (vm_compute in E; discriminate).
    destruct (proj2 (proj2 (proj2 (main_startup_outcomes sample_startup))) _ _ _ _ E)
      as (Hout & Hctr & Hrp & _ & Hfp & _).
    exists g, l, out, divs. split; [reflexivity|].
    split; [exact Hout|]. split; [exact Hctr|]. split; [exact Hrp|].
    apply Hfp. left. reflexivity.
  - apply (proj1 (proj2 (main_startup_outcomes _))).
    split; [reflexivity|]. split; [discriminate|reflexivity].
Defined.

(** ** Reading back a printed integer *)

Lemma scan_digits_numeral (d : Decimal.uint) (rest : string) :
  forall acc : option Z,
    scan_digits (DecimalString.NilEmpty.string_of_uint d ++ rest) acc
    = scan_digits rest
        (match d with
         | Decimal.Nil => acc
         | _ => Some (uint_value d (default 0 acc))
         end).
Proof.
  induction d as [|d IH|d IH|d IH|d IH|d IH|d IH|d IH|d IH|d IH|d IH];
    intros acc; [reflexivity|..];
    cbn [DecimalString.NilEmpty.string_of_uint append scan_digits];
    match goal with |- context [digit_val ?c] =>
      let v := eval vm_compute in (digit_val c) in
      change (digit_val c) with v
    end;
    cbv iota; rewrite IH; destruct d; cbn [uint_value default];
    rewrite ?Z.add_0_r; reflexivity.
Qed.

Lemma of_uint_acc_value (d : Decimal.uint) :
  forall acc : positive,
    Z.pos (Pos.of_uint_acc d acc) = uint_value d (Z.pos acc).
Proof.
  induction d as [|d IH|d IH|d IH|d IH|d IH|d IH|d IH|d IH|d IH|d IH];
    intros acc; cbn [Pos.of_uint_acc uint_value]; [reflexivity|..];
    rewrite IH; f_equal; lia.
Qed.

Lemma of_uint_value (d : Decimal.uint) :
  Z.of_N (Pos.of_uint d) = uint_value d 0.
Proof.
  induction d as [|d IH|d IH|d IH|d IH|d IH|d IH|d IH|d IH|d IH|d IH];
    cbn [Pos.of_uint uint_value]; [reflexivity|exact IH|..];
    cbn [Z.of_N]; rewrite of_uint_acc_value; reflexivity.
Qed.

Lemma to_uint_value (p : positive) : uint_value (Pos.to_uint p) 0 = Z.pos p.
Proof.
  rewrite <- of_uint_value, DecimalPos.Unsigned.of_to. reflexivity.
Qed.

Lemma scan_numeral_line (p : positive) :
  scan_digits (DecimalString.NilEmpty.string_of_uint (Pos.to_uint p) ++ nl) None
  = Some (Z.pos p).
Proof.
  rewrite scan_digits_numeral.
  pose proof (DecimalPos.Unsigned.to_uint_nonnil p) as Hnn.
  pose proof (to_uint_value p) as Hv.
  destruct (Pos.to_uint p); [contradiction|..]; cbn [default]; rewrite Hv;
    reflexivity.
Qed.

Lemma int32_small (w : Z) : INT_MIN <= w <= INT_MAX -> int32 w = w.
Proof.
  unfold int32, INT_MIN, INT_MAX. intros H.
  rewrite Z.mod_small by lia. lia.
Qed.

Lemma scan_int_unsigned (d : Decimal.uint) (rest : string) :
  d <> Decimal.Nil ->
  scan_int (DecimalString.NilEmpty.string_of_uint d ++ rest)
  = match scan_digits (DecimalString.NilEmpty.string_of_uint d ++ rest) None with
    | Some v => Some (int32 (Z.min v LONG_MAX))
    | None => None
    end.
Proof.
  intros Hd. destruct d; [contradiction|..]; reflexivity.
Qed.

(** X25.  [read_sys_int] reads back what the kernel prints: for a file that
    holds the decimal form of an [int], as [%d] prints it, and a newline,
    it returns that [int]. *)
Theorem read_sys_int_reads_printed_int (n : Z) :
  INT_MIN <= n <= INT_MAX ->
  read_sys_int (Some (print_int n ++ nl)%string) = n.
Proof.
  intros Hn. unfold read_sys_int, print_int.
  destruct n as [|p|p]; [reflexivity|..];
    cbn [Z.to_int DecimalString.NilZero.string_of_int];
    pose proof (DecimalPos.Unsigned.to_uint_nonnil p) as Hnn;
    assert (Hs : DecimalString.NilZero.string_of_uint (Pos.to_uint p)
                 = DecimalString.NilEmpty.string_of_uint (Pos.to_uint p))
      by (destruct (Pos.to_uint p); [contradiction|..]; reflexivity);
    rewrite Hs.
  - rewrite scan_int_unsigned by exact Hnn. rewrite scan_numeral_line.
    unfold LONG_MAX, INT_MIN, INT_MAX in *.
    rewrite Z.min_l by lia. cbn [default]. apply int32_small.
    unfold INT_MIN, INT_MAX. lia.
  - change (scan_int (String "-" (DecimalString.NilEmpty.string_of_uint (Pos.to_uint p)) ++ nl))
      with (match scan_digits (DecimalString.NilEmpty.string_of_uint (Pos.to_uint p) ++ nl) None with
            | Some v => Some (int32 (Z.max (- v) (- LONG_MAX - 1)))
            | None => None
            end).
    rewrite scan_numeral_line.
    unfold LONG_MAX, INT_MIN, INT_MAX in *.
    rewrite Z.max_l by lia. cbn [default]. apply int32_small.
    unfold INT_MIN, INT_MAX. lia.
Qed.

Lemma read_sys_int_reads_printed_int_witness :
  read_sys_int (Some (print_int 42 ++ nl)%string) = 42 /\
  read_sys_int (Some (print_int (-2147483648) ++ nl)%string) = -2147483648.
Proof.
  split; apply read_sys_int_reads_printed_int; unfold INT_MIN, INT_MAX; lia.
Defined.
